(** * rpmconf: the conflict-resolution engine and the orphan scanner

    A shallow embedding of [rpmconf/rpmconf.py] (class [RpmConf]).

    The program is a sequence of file-system operations, prints and
    blocking reads.  It is modelled by explicit state passing over a
    [world] (file system, output so far, environment); the answers of
    the user are a list of [read_event]s, one per call of
    [flush_input]; [sys.exit] and Python exceptions are results of
    their own.  External programs and library routines whose result
    the program only passes on (merge tools, difflib, time.ctime,
    mkstemp, os.path.normpath, the package database) are collected in
    the record [externals].

    The file system is a map from the paths the program uses to what
    is there.  A link is followed on its target, taken from the
    directory of the link when it is relative; the map does not know
    which directories lie on the way, so a path is one key, and two
    paths that lead to one file through a link to a directory are two
    keys.  Statements about files are therefore statements about the
    paths named in them; the directories the orphan scan walks are
    modelled apart, by identity, with the paths that lead to them.

    What the model leaves out: other processes (the files change only
    through the program and the tools it starts), permissions (the
    program runs as root), hard links, pipes and sockets.  The listing
    [_ls_conf_file] prints is an event; /usr/bin/ls is taken to
    succeed. *)

From Stdlib Require Import ZArith String Ascii List Lia.
From stdpp Require Import base option gmap strings list.

Open Scope Z_scope.

(** ** Strings *)

Definition nl : string := String (ascii_of_nat 10) EmptyString.

(** [str.upper] on the UTF-8 text of an answer.  An ASCII letter goes
    to its capital.  Two letters outside ASCII have an ASCII capital:
    U+0131, the dotless i (bytes C4 B1), goes to I, and U+017F, the long
    s (bytes C5 BF), goes to S.  Any other character outside ASCII is
    left as it is here: [str.upper] takes it to a character outside
    ASCII or to more than one character, and the program compares the
    result with single ASCII letters and the empty string only. *)
Definition upper_ascii (c : ascii) : ascii :=
  let n := nat_of_ascii c in
  if ((97 <=? n)%nat && (n <=? 122)%nat)%bool then ascii_of_nat (n - 32) else c.

Definition dotless_i (c d : ascii) : bool :=
  bool_decide (c = ascii_of_nat 196) && bool_decide (d = ascii_of_nat 177).

Definition long_s (c d : ascii) : bool :=
  bool_decide (c = ascii_of_nat 197) && bool_decide (d = ascii_of_nat 191).

Fixpoint upper (s : string) : string :=
  match s with
  | EmptyString => EmptyString
  | String c r =>
      match r with
      | String d r' =>
          if dotless_i c d then String "I"%char (upper r')
          else if long_s c d then String "S"%char (upper r')
          else String (upper_ascii c) (upper r)
      | EmptyString => String (upper_ascii c) EmptyString
      end
  end.


(** [str.rfind] of a character: the last index, or -1. *)
Fixpoint rfind_aux (c : ascii) (s : string) (i last : Z) : Z :=
  match s with
  | EmptyString => last
  | String a r => rfind_aux c r (i + 1) (if bool_decide (a = c) then i else last)
  end.

Definition rfind (c : ascii) (s : string) : Z := rfind_aux c s 0 (-1).

(** The slice [p[i:j]] for [0 <= i]. *)
Definition slice (p : string) (i j : Z) : string :=
  String.substring (Z.to_nat i) (Z.to_nat (j - i)) p.

Fixpoint has_non_dot (s : string) : bool :=
  match s with
  | EmptyString => false
  | String a r => if bool_decide (a = "."%char) then has_non_dot r else true
  end.

(** [os.path.splitext]: the extension starts at the last dot of the
    last component, leading dots of that component apart. *)
Definition splitext (p : string) : string * string :=
  let sepIndex := rfind "/"%char p in
  let dotIndex := rfind "."%char p in
  if (sepIndex <? dotIndex) && has_non_dot (slice p (sepIndex + 1) dotIndex)
  then (slice p 0 dotIndex, slice p dotIndex (Z.of_nat (String.length p)))
  else (p, EmptyString).

(** [str.ljust(width)]. *)
Fixpoint spaces (n : nat) : string :=
  match n with
  | O => EmptyString
  | S k => String " "%char (spaces k)
  end.

Definition ljust (width : nat) (s : string) : string :=
  s +:+ spaces (width - String.length s).

(** Membership test of Python's [x in [...]] on strings. *)
Definition str_in (s : string) (l : list string) : bool := bool_decide (s ∈ l).

(** Truth value of a Python string: the empty string is false. *)
Definition truthy (s : string) : bool := negb (bool_decide (s = EmptyString)).

(** ** The file system

    Paths are strings.  A node is a regular file (content, modification
    time), a symbolic link (target text), a directory or a special
    file: a device such as /dev/null, which reads as empty and swallows
    what is written to it.  Links are followed at most [MAXSYMLINKS]
    times, as the kernel does. *)

Inductive node : Type :=
| Reg (content : string) (mtime : Z)
| Lnk (target : string)
| Dir (mtime : Z)
| Special (mtime : Z).

#[global] Instance node_eq_dec : EqDecision node.
Proof. solve_decision. Defined.

Abbreviation filesystem := (gmap string node).

Definition MAXSYMLINKS : nat := 40.

(** The components of a path: the text between the slashes. *)
Fixpoint split_slash (s : string) : list string :=
  match s with
  | EmptyString => [EmptyString]
  | String c r =>
      if bool_decide (c = "/"%char) then EmptyString :: split_slash r
      else
        match split_slash r with
        | [] => [String c EmptyString]
        | h :: t => String c h :: t
        end
  end.

(** Walking the components from the directories [stack] (innermost
    first): an empty component and [.] stay, [..] goes up. *)
Fixpoint collapse (cs stack : list string) : list string :=
  match cs with
  | [] => stack
  | c :: r =>
      if (bool_decide (c = EmptyString) || bool_decide (c = "."))%bool
      then collapse r stack
      else if bool_decide (c = "..") then collapse r (tail stack)
      else collapse r (c :: stack)
  end.

Fixpoint join_slash (cs : list string) : string :=
  match cs with
  | [] => EmptyString
  | c :: r => "/" +:+ c +:+ join_slash r
  end.

Definition starts_with_slash (s : string) : bool :=
  match s with
  | String c _ => bool_decide (c = "/"%char)
  | EmptyString => false
  end.

(** The path the link at [p] with target text [t] leads to: [t] itself
    walked from the root when it is absolute, and walked from the
    directory of the link otherwise.  The result is absolute unless
    both [p] and [t] are relative. *)
Definition link_target (p t : string) : string :=
  let base :=
    if starts_with_slash t then [] else collapse (removelast (split_slash p)) [] in
  let cs := rev (collapse (split_slash t) base) in
  if (starts_with_slash t || starts_with_slash p)%bool then
    match cs with
    | [] => "/"
    | _ => join_slash cs
    end
  else
    match join_slash cs with
    | String _ r => r
    | EmptyString => "."
    end.

Fixpoint follow (fuel : nat) (fs : filesystem) (p : string) : option (string * node) :=
  match fs !! p with
  | None => None
  | Some (Lnk t) =>
      match fuel with
      | O => None
      | S fuel' => follow fuel' fs (link_target p t)
      end
  | Some n => Some (p, n)
  end.

(** [os.stat]: follows links; [None] stands for the raised OSError. *)
Definition os_stat (fs : filesystem) (p : string) : option (string * node) :=
  follow MAXSYMLINKS fs p.

Definition node_mtime (n : node) : Z :=
  match n with
  | Reg _ m => m
  | Dir m => m
  | Special m => m
  | Lnk _ => 0
  end.

Definition os_path_islink (fs : filesystem) (p : string) : bool :=
  match fs !! p with
  | Some (Lnk _) => true
  | _ => false
  end.

Definition os_path_exists (fs : filesystem) (p : string) : bool :=
  match os_stat fs p with
  | Some _ => true
  | None => false
  end.

Definition os_path_lexists (fs : filesystem) (p : string) : bool :=
  match fs !! p with
  | Some _ => true
  | None => false
  end.

(** [os.access(p, os.F_OK)]: existence, links followed. *)
Definition os_access_F_OK (fs : filesystem) (p : string) : bool :=
  os_path_exists fs p.

Inductive exn : Type :=
| FileNotFoundError
| FileExistsError
| IsADirectoryError
| OtherOSError
| SameFileError
| CalledProcessError (returncode : Z)
| UnicodeDecodeError
| EOFError
| KeyboardInterrupt.

#[global] Instance exn_eq_dec : EqDecision exn.
Proof. solve_decision. Defined.

Definition os_readlink (fs : filesystem) (p : string) : exn + string :=
  match fs !! p with
  | Some (Lnk t) => inr t
  | Some _ => inl OtherOSError
  | None => inl FileNotFoundError
  end.

(** [os.unlink]: the name [p] is removed, a link itself and not what it
    leads to.  The other keys stay: no other path of the map is taken
    to lead to the same file. *)
Definition os_unlink (fs : filesystem) (p : string) : exn + filesystem :=
  match fs !! p with
  | None => inl FileNotFoundError
  | Some (Dir _) => inl IsADirectoryError
  | Some _ => inr (delete p fs)
  end.

Definition os_symlink (target dst : string) (fs : filesystem) : exn + filesystem :=
  match fs !! dst with
  | Some _ => inl FileExistsError
  | None => inr (<[dst := Lnk target]> fs)
  end.

(** [os.path.basename]: what follows the last slash. *)
Fixpoint basename_aux (s acc : string) : string :=
  match s with
  | EmptyString => acc
  | String c r =>
      if bool_decide (c = "/"%char) then basename_aux r r else basename_aux r acc
  end.

Definition basename (p : string) : string := basename_aux p p.

(** [os.path.join] of two components (posixpath). *)
Definition ends_with_slash (a : string) : bool :=
  match String.get (String.length a - 1) a with
  | Some c => bool_decide (c = "/"%char)
  | None => false
  end.

Definition os_path_join (a b : string) : string :=
  match b with
  | String "/"%char _ => b
  | _ =>
      if (bool_decide (a = EmptyString) || ends_with_slash a)%bool then a +:+ b
      else a +:+ "/" +:+ b
  end.

(** Where a write through path [p] lands: the path itself, or the end of
    the chain of links starting at it (a dangling link is written
    through, creating its target). *)
Fixpoint write_target (fuel : nat) (fs : filesystem) (p : string) : option string :=
  match fs !! p with
  | Some (Lnk t) =>
      match fuel with
      | O => None
      | S fuel' => write_target fuel' fs (link_target p t)
      end
  | _ => Some p
  end.

(** What is at [pd] once content [c] has been written there and the
    modification time set to [m]: a device stays a device. *)
Definition written (fs : filesystem) (pd c : string) (m : Z) : node :=
  match fs !! pd with
  | Some (Special _) => Special m
  | _ => Reg c m
  end.

(** What reading a node to its end gives. *)
Definition content_of (n : node) : string :=
  match n with
  | Reg c _ => c
  | _ => EmptyString
  end.

(** [shutil.copyfile] followed by [copystat]: the content and the
    modification time of [src] arrive at [dst]. *)
Definition copyfile (src dst : string) (fs : filesystem) : exn + filesystem :=
  match os_stat fs src with
  | None => inl FileNotFoundError
  | Some (_, Dir _) => inl IsADirectoryError
  | Some (_, Lnk _) => inl OtherOSError
  | Some (ps, n) =>
      match write_target MAXSYMLINKS fs dst with
      | None => inl OtherOSError
      | Some pd =>
          if bool_decide (ps = pd) then inl SameFileError
          else
            match fs !! pd with
            | Some (Dir _) => inl IsADirectoryError
            | _ => inr (<[pd := written fs pd (content_of n) (node_mtime n)]> fs)
            end
      end
  end.

(** [shutil.copy2(src, dst)]: a directory as destination receives the
    file under the source's base name. *)
Definition shutil_copy2 (src dst : string) (fs : filesystem) : exn + filesystem :=
  match os_stat fs dst with
  | Some (_, Dir _) => copyfile src (os_path_join dst (basename src)) fs
  | _ => copyfile src dst fs
  end.

(** [filecmp.cmp(f1, f2)] with its default [shallow=True]: both sides
    must be regular files; equal signatures (type, size, mtime) are
    taken as equal files, otherwise sizes and then contents decide. *)
Definition filecmp_cmp (fs : filesystem) (f1 f2 : string) : exn + bool :=
  match os_stat fs f1, os_stat fs f2 with
  | Some (_, n1), Some (_, n2) =>
      match n1, n2 with
      | Reg c1 m1, Reg c2 m2 =>
          if (bool_decide (String.length c1 = String.length c2) && bool_decide (m1 = m2))%bool
          then inr true
          else if negb (bool_decide (String.length c1 = String.length c2)) then inr false
          else inr (bool_decide (c1 = c2))
      | _, _ => inr false
      end
  | _, _ => inl FileNotFoundError
  end.

(** ** The world, events and results *)

Inductive event : Type :=
| Print (s : string)                              (* print(...) *)
| Ls (context : bool) (conf_file other_file : string)
                                                  (* output of /usr/bin/ls -ltrd [--context] *)
| Input (question : string)                       (* the blocking read of flush_input *)
| Pager (text : string)                           (* pydoc.pager(...) *)
| LoggerInfo (s : string)
| LoggerError (s : string)
| StderrWrite (s : string)
| Sigstop                                         (* os.kill(os.getpid(), SIGSTOP) *)
| CheckCall (argv : list string).                 (* a subprocess was started *)

#[global] Instance event_eq_dec : EqDecision event.
Proof. solve_decision. Defined.

Record world : Type := mkWorld {
  w_fs : filesystem;
  w_out : list event;
  w_MERGE : option string        (* os.environ.get('MERGE') *)
}.

Definition set_fs (fs : filesystem) (w : world) : world :=
  mkWorld fs (w_out w) (w_MERGE w).

Definition emit (e : event) (w : world) : world :=
  mkWorld (w_fs w) (w_out w ++ [e])%list (w_MERGE w).

Definition print (s : string) (w : world) : world := emit (Print s) w.

(** What a call leaves behind: a value, [sys.exit(code)], or an
    exception on its way up. *)
Inductive result (A : Type) : Type :=
| Ok (a : A) (w : world)
| SysExit (code : Z) (w : world)
| Raised (e : exn) (w : world).

Arguments Ok {A} a w.
Arguments SysExit {A} code w.
Arguments Raised {A} e w.

Definition M (A : Type) : Type := world → result A.

Definition ret {A} (a : A) : M A := fun w => Ok a w.

Definition bind {A B} (m : M A) (k : A → M B) : M B :=
  fun w =>
    match m w with
    | Ok a w' => k a w'
    | SysExit c w' => SysExit c w'
    | Raised e w' => Raised e w'
    end.

Notation "x <~ m ;; k" := (bind m (fun x => k))
  (at level 100, m at next level, right associativity).
Notation "m ;;; k" := (bind m (fun _ => k))
  (at level 100, right associativity).

Definition say (s : string) : M unit := fun w => Ok tt (print s w).
Definition tell (e : event) : M unit := fun w => Ok tt (emit e w).
Definition sys_exit {A} (code : Z) : M A := fun w => SysExit code w.
Definition raise {A} (e : exn) : M A := fun w => Raised e w.

(** A file-system operation that may raise. *)
Definition lift_fs (op : filesystem → exn + filesystem) : M unit :=
  fun w =>
    match op (w_fs w) with
    | inr fs' => Ok tt (set_fs fs' w)
    | inl e => Raised e w
    end.

(** [try: m except <the exceptions h accepts>: h e]. *)
Definition try_except {A} (m : M A) (h : exn → option (M A)) : M A :=
  fun w =>
    match m w with
    | Raised e w' =>
        match h e with
        | Some handler => handler w'
        | None => Raised e w'
        end
    | r => r
    end.

(** One blocking read of the user's answer. *)
Inductive read_event : Type :=
| Line (s : string)      (* a line, without its newline *)
| Eof                    (* EOFError *)
| Interrupt.             (* KeyboardInterrupt *)

(** Outcome of starting an external program on the current files. *)
Inductive tool_result : Type :=
| NotFound                                   (* the executable does not exist *)
| Exited (returncode : Z) (fs' : filesystem).

(** Library routines and external programs the engine only calls. *)
Record externals : Type := mkExternals {
  subprocess : list string → filesystem → tool_result;
  unified_diff : string → string → string → string → string → string → string;
  decodes : string → bool;               (* the content is valid text *)
  usr_bin_diff : filesystem → string → string → string;
  ctime : Z → string;                    (* time.ctime *)
  mkstemp : filesystem → string;         (* name of the fresh scratch file *)
  normpath : string → string;            (* os.path.normpath *)
  repr : string → string;                (* repr of a str *)
  dbMatch_basenames : string → list string
                                         (* names of the packages declaring a path *)
}.

(** The fields of [RpmConf] the engine reads. *)
Record RpmConf : Type := mkRpmConf {
  clean : bool;
  debug : bool;
  selinux : bool;
  diff : bool;
  frontend : option string;
  test : bool;
  exclude : list string;
  root : option string;
  unattended : option string
}.

(** ** The directories [os.walk] sees

    [os.walk] sees the file system as directories with entries.  A
    directory is known by its identity [(st_dev, st_ino)]; an entry is a
    name together with what [os.stat] (links followed) finds behind it.
    Since links are followed, two paths may lead to one directory and a
    directory may contain a path to itself. *)

Abbreviation ident := (Z * Z)%type.

Inductive entry : Type :=
| SubDir (id : ident)     (* a directory, or a link to one *)
| NonDir.                 (* anything else: listed under [files] *)

Record tree : Type := mkTree {
  t_top : gmap string ident;                       (* the directory a top path names *)
  t_ls : gmap ident (list (string * entry))        (* scandir *)
}.

Definition scandir (t : tree) (id : ident) : list (string * entry) :=
  default [] (t_ls t !! id).

Definition dirs_of (es : list (string * entry)) : list (string * ident) :=
  omap (fun e => match e.2 with SubDir id => Some (e.1, id) | NonDir => None end) es.

Definition files_of (es : list (string * entry)) : list string :=
  omap (fun e => match e.2 with SubDir _ => None | NonDir => Some e.1 end) es.

(** The state of [_clean_orphan] during the walk.  [yielded] is a log
    of the directories [os.walk] has listed (path, identity, whether it
    is the top of a walk); the program does not read it. *)
Record scan_state : Type := mkScan {
  dirs_inodes : gset ident;
  files_merge : list (string * string * string);
  files_delete : list string;
  yielded : list (string * ident * bool)
}.

(** ** The engine *)

Section Engine.

Variable X : externals.
Variable self : RpmConf.

(** [flush_input(question)]: the question is shown and the read gives
    [ev]: a line, or one of the two exceptions [input] raises. *)
Definition flush_input (question : string) (ev : read_event) : M string :=
  tell (Input question) ;;;
  match ev with
  | Line s => ret s
  | Eof => raise EOFError
  | Interrupt => raise KeyboardInterrupt
  end.

(** [st_mtime] of [os.stat]; the callers have tested existence. *)
Definition st_mtime (fs : filesystem) (p : string) : Z :=
  match os_stat fs p with
  | Some (_, n) => node_mtime n
  | None => 0
  end.

Definition is_broken_symlink (fs : filesystem) (file1 : string) : bool :=
  os_path_islink fs file1 && os_path_exists fs file1.

Definition dev_null : string := "/dev/null".

Definition err_msg_template (f : string) : string :=
  "Warning: file " +:+ f +:+ " is broken symlink. I'm using /dev/null instead." +:+ nl.

Definition missing_file_template (f : string) : string :=
  "Warning: file " +:+ f +:+ " is missing. I'm using /dev/null instead." +:+ nl.

Definition symlink_info (fs : filesystem) (f : string) : string :=
  "Info: '" +:+ f +:+ "' is symlink to '" +:+
  match os_readlink fs f with inr t => t | inl _ => EmptyString end +:+ "'." +:+ nl.

(** One side of [show_diff] (the source spells the block out once for
    [file1] and once for [file2]): the text added to [err_msg], the file
    that is read, and the date shown. *)
Definition diff_side (fs : filesystem) (file : string) : string * string * string :=
  if os_path_islink fs file then
    if is_broken_symlink fs file
    then (symlink_info fs file, file, ctime X (st_mtime fs file))
    else (symlink_info fs file +:+ err_msg_template file, dev_null, EmptyString)
  else
    if negb (os_path_exists fs file)
    then (missing_file_template file, dev_null, EmptyString)
    else (EmptyString, file, ctime X (st_mtime fs file)).

(** [open(f).readlines()]. *)
Definition readlines (fs : filesystem) (f : string) : exn + string :=
  match os_stat fs f with
  | None => inl FileNotFoundError
  | Some (_, Reg c _) => if decodes X c then inr c else inl UnicodeDecodeError
  | Some (_, Dir _) => inl IsADirectoryError
  | Some (_, _) => inr EmptyString
  end.

Definition show_diff (file1 file2 : string) : M unit :=
  fun w =>
    let fs := w_fs w in
    let '(msg1, f1, fromdate) := diff_side fs file1 in
    let '(msg2, f2, todate) := diff_side fs file2 in
    let err_msg := msg1 +:+ msg2 in
    match readlines fs f1 with
    | inl UnicodeDecodeError => Ok tt (emit (Pager (err_msg +:+ usr_bin_diff X fs f1 f2)) w)
    | inl e => Raised e w
    | inr fromlines =>
        match readlines fs f2 with
        | inl UnicodeDecodeError => Ok tt (emit (Pager (err_msg +:+ usr_bin_diff X fs f1 f2)) w)
        | inl e => Raised e w
        | inr tolines =>
            Ok tt (emit (Pager (err_msg +:+ unified_diff X fromlines tolines f1 f2 fromdate todate)) w)
        end
    end.

Definition _show_cond_diff (file_ex file1 file2 : string) : M unit :=
  fun w => if os_path_lexists (w_fs w) file_ex then show_diff file1 file2 w else Ok tt w.

Definition _copy_fs (src dst : string) (fs : filesystem) : exn + filesystem :=
  if os_path_islink fs src then
    match os_readlink fs src with
    | inl e => inl e
    | inr linkto =>
        match os_symlink linkto dst fs with
        | inl FileExistsError =>
            match os_unlink fs dst with
            | inl e => inl e
            | inr fs' => os_symlink linkto dst fs'
            end
        | r => r
        end
    end
  else shutil_copy2 src dst fs.

Definition _copy (src dst : string) : M unit := lift_fs (_copy_fs src dst).

Definition _remove (conf_file : string) : M unit :=
  if debug self then say ("rm " +:+ conf_file)
  else lift_fs (fun fs => os_unlink fs conf_file).

Definition _overwrite (src dst : string) : M unit :=
  if debug self then say ("cp --no-dereference " +:+ src +:+ " " +:+ dst)
  else (_copy src dst ;;; _remove src).

Definition _ls_conf_file (conf_file other_file : string) : M unit :=
  fun w =>
    let w1 := print ("Configuration file '" +:+ conf_file +:+ "'") w in
    let '(conf_file, w2) :=
      if negb (os_path_exists (w_fs w1) conf_file)
      then (dev_null, print "File is missing. Using /dev/null instead." w1)
      else (conf_file, w1) in
    Ok tt (emit (Ls (selinux self) conf_file other_file) w2).

(** [subprocess.check_call(argv)]. *)
Definition check_call (argv : list string) : M unit :=
  fun w =>
    let w1 := emit (CheckCall argv) w in
    match subprocess X argv (w_fs w) with
    | NotFound => Raised FileNotFoundError w1
    | Exited rc fs' =>
        if bool_decide (rc = 0) then Ok tt (set_fs fs' w1)
        else Raised (CalledProcessError rc) (set_fs fs' w1)
    end.

Definition on_CalledProcessError {A} (h : Z → M A) (e : exn) : option (M A) :=
  match e with
  | CalledProcessError rc => Some (h rc)
  | _ => None
  end.

Definition on_FileNotFoundError {A} (h : M A) (e : exn) : option (M A) :=
  match e with
  | FileNotFoundError => Some h
  | _ => None
  end.

Definition no_frontend_message : string :=
  "You did not select any frontend for merge." +:+ nl +:+
  "      Define it with environment variable 'MERGE' or flag -f.".

Definition strerror_ENOENT : string := "No such file or directory".

Definition merge_branches (conf_file other_file : string) : M unit :=
  fun w =>
    let fe := frontend self in
    if bool_decide (fe ∈ [Some "vimdiff"; Some "gvimdiff"; Some "meld"]) then
      check_call ["/usr/bin/" +:+ default EmptyString fe; conf_file; other_file] w
    else if bool_decide (fe = Some "diffuse") then
      try_except (check_call ["/usr/bin/diffuse"; conf_file; other_file])
        (on_CalledProcessError (fun _ => say "Files not merged.")) w
    else if bool_decide (fe = Some "kdiff3") then
      try_except
        (check_call ["/usr/bin/kdiff3"; conf_file; other_file; "-o"; conf_file] ;;;
         _remove other_file ;;;
         _remove (conf_file +:+ ".orig"))
        (on_CalledProcessError (fun _ => say "Files not merged.")) w
    else if bool_decide (fe = Some "sdiff") then
      let tmp_file_name := mkstemp X (w_fs w) in
      try_except
        (lift_fs (fun fs => inr (<[tmp_file_name := Reg EmptyString 0]> fs)) ;;;
         check_call ["/usr/bin/sdiff"; "-o"; tmp_file_name; conf_file; other_file] ;;;
         _remove other_file ;;;
         _copy tmp_file_name conf_file ;;;
         _remove tmp_file_name)
        (on_CalledProcessError (fun rc =>
           if bool_decide (rc = 1) then
             _remove other_file ;;;
             _copy tmp_file_name conf_file ;;;
             _remove tmp_file_name
           else say "Files not merged.")) w
    else if ((bool_decide (fe = Some "env") || bool_decide (fe = None))
             && bool_decide (w_MERGE w ≠ None))%bool then
      let merge_tool := default EmptyString (w_MERGE w) in
      (say (repr X merge_tool) ;;;
       check_call [merge_tool; conf_file; other_file]) w
    else
      (tell (LoggerError no_frontend_message) ;;; sys_exit 2) w.

Definition _merge_conf_files (conf_file other_file : string) : M unit :=
  try_except (merge_branches conf_file other_file)
    (on_FileNotFoundError (tell (StderrWrite (strerror_ENOENT +:+ nl)) ;;; sys_exit 4)).

(** *** Per-file resolution *)

Definition prompt_rpmnew : string :=
" ==> Package distributor has shipped an updated version.
   What would you like to do about it ?  Your options are:
    Y or I  : install the package maintainer's version
    N or O  : keep your currently-installed version (and delete .rpmsave)
      D     : show the differences between the versions
      M     : merge configuration files
      Z     : background this process to examine the situation
      S     : skip this file
 The default action is to keep your current version.
*** aliases (Y/I/N/O/D/M/Z/S) [default=N] ? ".

Definition prompt_rpmsave : string :=
" ==> Package distributor has shipped an updated version.
 ==> Maintainer forced upgrade. Your old version has been backed up.
   What would you like to do about it?  Your options are:
    Y or I  : install (keep) the package maintainer's version
    N or O  : return back to your original file
      D     : show the differences between the versions
      M     : merge configuration files
      Z     : background this process to examine the situation
      S     : skip this file
 The default action is to keep package maintainer's version.
*** aliases (Y/I/N/O/M/D/Z/S) [default=Y] ? ".

Definition removed_msg (other_file : string) : string :=
  "File " +:+ other_file +:+ " was removed by 3rd party. Skipping.".

Definition merged_msg (other_file : string) : string :=
  "File " +:+ other_file +:+ " has been merged.".

(** How one pass through the body of the [while] loop ends: the
    function returned, or the body ran to its end with [option] set. *)
Inductive flow : Type :=
| Returned
| Chose (opt : string).

(** The condition both handlers start with.  [and] evaluates
    [filecmp.cmp] only when what precedes it holds. *)
Definition same_files (conf_file other_file : string) : M bool :=
  fun w =>
    let fs := w_fs w in
    if (negb (is_broken_symlink fs conf_file || is_broken_symlink fs other_file)
        && os_path_exists fs conf_file)%bool
    then
      match filecmp_cmp fs conf_file other_file with
      | inr b => Ok b w
      | inl e => Raised e w
      end
    else Ok false w.

(** The body of the loop from the second [os.access] test on, after the
    read has set [option].  The two handlers differ in the default
    ([dflt]) and in the order of the arguments of [show_diff]. *)
Definition after_read (dflt diff1 diff2 conf_file other_file opt : string) : M flow :=
  fun w =>
    if negb (os_access_F_OK (w_fs w) other_file)
    then Ok Returned (print (removed_msg other_file) w)
    else
      let opt := if truthy opt then opt else dflt in
      ((if bool_decide (opt = "D") then show_diff diff1 diff2 else ret tt) ;;;
       (if bool_decide (opt = "Z")
        then say "Run command 'fg' to continue" ;;; tell Sigstop
        else ret tt) ;;;
       (if bool_decide (opt = "M") then
          _merge_conf_files conf_file other_file ;;;
          (fun w' =>
             if negb (os_access_F_OK (w_fs w') other_file)
             then Ok Returned (print (merged_msg other_file) w')
             else Ok (Chose opt) w')
        else ret (Chose opt))) w.

(** The [try] block around the read: end of file stands for S, an
    interrupt ends the process. *)
Definition read_option (ev : read_event) : M string :=
  try_except (s <~ flush_input "Your choice: " ev ;; ret (upper s))
    (fun e =>
       match e with
       | EOFError => Some (ret "S")
       | KeyboardInterrupt => Some (sys_exit 1)
       | _ => None
       end).

(** One pass through the body of the loop, [ev] being what the read
    gives. *)
Definition iteration (prompt dflt diff1 diff2 conf_file other_file : string)
    (ev : read_event) : M flow :=
  fun w =>
    if negb (os_access_F_OK (w_fs w) other_file)
    then Ok Returned (print (removed_msg other_file) w)
    else
      (_ls_conf_file conf_file other_file ;;;
       say prompt ;;;
       opt <~ read_option ev ;;
       after_read dflt diff1 diff2 conf_file other_file opt) w.

Definition terminal_options : list string := ["Y"; "I"; "N"; "O"; "S"].

(** [while option not in ["Y", "I", "N", "O", "S"]: ...].  Every pass
    takes one read from the pending ones; when none is left the input
    is at end of file: the read raises EOFError, which sets [option] to
    S and ends the loop. *)
Fixpoint interact (prompt dflt diff1 diff2 conf_file other_file : string)
    (inp : list read_event) : M (flow * list read_event) :=
  match inp with
  | [] =>
      fun w =>
        match iteration prompt dflt diff1 diff2 conf_file other_file Eof w with
        | Ok f w' => Ok (f, []) w'
        | SysExit c w' => SysExit c w'
        | Raised e w' => Raised e w'
        end
  | ev :: rest =>
      fun w =>
        match iteration prompt dflt diff1 diff2 conf_file other_file ev w with
        | Ok Returned w' => Ok (Returned, rest) w'
        | Ok (Chose opt) w' =>
            if str_in opt terminal_options then Ok (Chose opt, rest) w'
            else interact prompt dflt diff1 diff2 conf_file other_file rest w'
        | SysExit c w' => SysExit c w'
        | Raised e w' => Raised e w'
        end
  end.

Definition _handle_rpmnew (conf_file other_file : string) (inp : list read_event)
  : M (list read_event) :=
  same <~ same_files conf_file other_file ;;
  if same : bool then _remove other_file ;;; ret inp
  else if bool_decide (unattended self = Some "use_maintainer")
  then _overwrite other_file conf_file ;;; ret inp
  else if bool_decide (unattended self ∈ [Some "use_your"; Some "default"])
  then _remove other_file ;;; ret inp
  else
    r <~ interact prompt_rpmnew "N" conf_file other_file conf_file other_file inp ;;
    match r with
    | (Returned, rest) => ret rest
    | (Chose opt, rest) =>
        (if str_in opt ["N"; "O"] then _remove other_file else ret tt) ;;;
        (if str_in opt ["Y"; "I"] then _overwrite other_file conf_file else ret tt) ;;;
        ret rest
    end.

Definition _handle_rpmsave (conf_file other_file : string) (inp : list read_event)
  : M (list read_event) :=
  same <~ same_files conf_file other_file ;;
  if same : bool then _remove other_file ;;; ret inp
  else if bool_decide (unattended self ∈ [Some "use_maintainer"; Some "default"])
  then _remove other_file ;;; ret inp
  else if bool_decide (unattended self = Some "use_your")
  then _overwrite other_file conf_file ;;; ret inp
  else
    r <~ interact prompt_rpmsave "Y" other_file conf_file conf_file other_file inp ;;
    match r with
    | (Returned, rest) => ret rest
    | (Chose opt, rest) =>
        (if str_in opt ["Y"; "I"] then _remove other_file else ret tt) ;;;
        (if str_in opt ["N"; "O"] then _overwrite other_file conf_file else ret tt) ;;;
        ret rest
    end.

(** *** Packages *)

Definition handle_suffix (suffix : string)
    (handler : string → string → list read_event → M (list read_event))
    (conf_file : string) (acc : Z * list read_event) : M (Z * list read_event) :=
  fun w =>
    let '(result, inp) := acc in
    let other_file := conf_file +:+ "." +:+ suffix in
    if os_access_F_OK (w_fs w) other_file then
      if test self then Ok (result + 1, inp) (print other_file w)
      else (inp' <~ handler conf_file other_file inp ;; ret (result, inp')) w
    else Ok (result, inp) w.

(** The body of the loop of [_handle_package] for one configuration
    file. *)
Definition handle_conf_file (conf_file : string) (acc : Z * list read_event)
  : M (Z * list read_event) :=
  fun w =>
    if diff self then
      let conf_file := if negb (os_path_exists (w_fs w) conf_file) then dev_null else conf_file in
      let conf_rpmnew := conf_file +:+ ".rpmnew" in
      let conf_rpmsave := conf_file +:+ ".rpmsave" in
      let conf_rpmorig := conf_file +:+ ".rpmorig" in
      (_show_cond_diff conf_rpmnew conf_file conf_rpmnew ;;;
       _show_cond_diff conf_rpmsave conf_rpmsave conf_file ;;;
       _show_cond_diff conf_rpmorig conf_rpmorig conf_file ;;;
       ret acc) w
    else
      (acc1 <~ handle_suffix "rpmnew" _handle_rpmnew conf_file acc ;;
       acc2 <~ handle_suffix "rpmsave" _handle_rpmsave conf_file acc1 ;;
       handle_suffix "rpmorig" _handle_rpmsave conf_file acc2) w.

(** [_handle_package], on the list [get_list_of_config] returns. *)
Fixpoint handle_conf_files (conf_files : list string) (acc : Z * list read_event)
  : M (Z * list read_event) :=
  match conf_files with
  | [] => ret acc
  | conf_file :: more =>
      acc' <~ handle_conf_file conf_file acc ;; handle_conf_files more acc'
  end.

Definition _handle_package (conf_files : list string) (inp : list read_event)
  : M (Z * list read_event) :=
  handle_conf_files conf_files (0, inp).

(** *** The orphan scan *)

Definition _clean_orphan_file (rpmnew_rpmsave : string)
  : (option string * string * string) * option string :=
  let rpmnew_rpmsave_orig := (splitext rpmnew_rpmsave).1 in
  let tmp_db := dbMatch_basenames X rpmnew_rpmsave_orig in
  match tmp_db with
  | [] => ((None, rpmnew_rpmsave_orig, rpmnew_rpmsave), Some rpmnew_rpmsave)
  | Name :: _ => ((Some Name, rpmnew_rpmsave_orig, rpmnew_rpmsave), None)
  end.

(** The inode loop: [scandirs] keeps the directories whose identity is
    new, and records it. *)
Fixpoint inode_loop (root_ : string) (dirs : list (string * ident))
    (seen : gset ident) : list (string * ident) * gset ident :=
  match dirs with
  | [] => ([], seen)
  | (dirname, dirkey) :: more =>
      if bool_decide (dirkey ∈ seen) then inode_loop root_ more seen
      else
        let '(scandirs, seen') := inode_loop root_ more ({[dirkey]} ∪ seen) in
        ((dirname, dirkey) :: scandirs, seen')
  end.

(** The loop over [files] of one directory. *)
Fixpoint files_loop (root_ : string) (files : list string)
    (fm : list (string * string * string)) (fd : list string)
  : list (string * string * string) * list string :=
  match files with
  | [] => (fm, fd)
  | name :: more =>
      let l_name := os_path_join root_ name in
      if str_in (splitext l_name).2 [".rpmnew"; ".rpmsave"] then
        let '((package_merge, orig, l), file_delete) := _clean_orphan_file l_name in
        let fm' :=
          match package_merge with
          | Some pkg => if truthy pkg then (fm ++ [(pkg, orig, l)])%list else fm
          | None => fm
          end in
        let fd' :=
          match file_delete with
          | Some f => if truthy f then (fd ++ [f])%list else fd
          | None => fd
          end in
        files_loop root_ more fm' fd'
      else files_loop root_ more fm fd
  end.

(** The body of [for root, dirs, files in os.walk(...)]: the new state
    and the directories left in [dirs] for the walk to enter. *)
Definition walk_body (t : tree) (excludes : list string)
    (root_ : string) (id : ident) (top : bool) (st : scan_state)
  : list (string * ident) * scan_state :=
  let es := scandir t id in
  let dirs := filter (fun d => os_path_join root_ d.1 ∉ excludes) (dirs_of es) in
  let '(scandirs, seen) := inode_loop root_ dirs (dirs_inodes st) in
  let '(fm, fd) := files_loop root_ (files_of es) (files_merge st) (files_delete st) in
  (scandirs, mkScan seen fm fd (yielded st ++ [(root_, id, top)])%list).

(** [os.walk(topdir, followlinks=True, topdown=True)] driven by the
    body above: the pending directories form a stack; the directory on
    top is listed, the body runs, and what it left in [dirs] is entered
    next, in order. *)
Fixpoint walk (fuel : nat) (t : tree) (excludes : list string)
    (stack : list (string * ident * bool)) (st : scan_state) : option scan_state :=
  match stack with
  | [] => Some st
  | (root_, id, top) :: pending =>
      match fuel with
      | O => None
      | S fuel' =>
          let '(scandirs, st') := walk_body t excludes root_ id top st in
          walk fuel' t excludes
            (map (fun d => (os_path_join root_ d.1, d.2, false)) scandirs ++ pending)%list st'
      end
  end.

Definition default_excludes : list string :=
  ["/var/lib/mock"; "/var/run"; "/var/lib/docker"; "/var/lib/containers"].

Definition topdirs : list string := ["/etc"; "/var"; "/usr"].

Definition root_set : bool :=
  match root self with
  | Some r => truthy r
  | None => false
  end.

(** The body of [for topdir in ...], the logging apart. *)
Definition scan_topdir (fuel : nat) (t : tree) (excludes : list string)
    (topdir : string) (st : scan_state) : option scan_state :=
  if bool_decide (topdir ∈ excludes) then Some st
  else
    let topdir := if root_set then normpath X (default EmptyString (root self) +:+ topdir)
                  else topdir in
    match t_top t !! topdir with
    | None => Some st
    | Some id => walk fuel t excludes [(topdir, id, true)] st
    end.

Fixpoint scan_topdirs (fuel : nat) (t : tree) (excludes : list string)
    (tops : list string) (st : scan_state) : option scan_state :=
  match tops with
  | [] => Some st
  | topdir :: more =>
      match scan_topdir fuel t excludes topdir st with
      | Some st' => scan_topdirs fuel t excludes more st'
      | None => None
      end
  end.

Definition scan (fuel : nat) (t : tree) : option scan_state :=
  scan_topdirs fuel t (exclude self ++ default_excludes)%list topdirs (mkScan ∅ [] [] []).

(** Identities that can ever be recorded: those behind a directory
    entry of some listing. *)
Definition candidates (t : tree) : gset ident :=
  list_to_set (concat (map (fun kv => (dirs_of kv.2).*2) (map_to_list (t_ls t)))).

(** Passes of the walk loop that always suffice. *)
Definition enough_fuel (t : tree) : nat := S (size (candidates t)).

(** [while answer not in ["Y", "N", ""]: answer = flush_input(...).upper()]:
    neither EOFError nor KeyboardInterrupt is caught here. *)
Fixpoint ask_delete (inp : list read_event) : M (string * list read_event) :=
  match inp with
  | [] =>
      s <~ flush_input "Delete these files (Y/n): " Eof ;; ret (upper s, [])
  | ev :: rest =>
      s <~ flush_input "Delete these files (Y/n): " ev ;;
      if str_in (upper s) ["Y"; "N"; EmptyString] then ret (upper s, rest)
      else ask_delete rest
  end.

Fixpoint for_each {A} (f : A → M unit) (l : list A) : M unit :=
  match l with
  | [] => ret tt
  | a :: more => f a ;;; for_each f more
  end.

(** What [_clean_orphan] does once the walks are over. *)
Definition report_and_delete (st : scan_state) (inp : list read_event)
  : M (list read_event) :=
  (if bool_decide (files_merge st ≠ []) then
     say "These files need merging - you may want to run 'rpmconf -a':" ;;;
     for_each (fun m => say (ljust 20 m.1.1 +:+ ": " +:+ m.2)) (files_merge st) ;;;
     say ("Skipping files above." +:+ nl)
   else ret tt) ;;;
  if bool_decide (files_delete st ≠ []) then
    say "Orphaned .rpmnew and .rpmsave files:" ;;;
    for_each say (files_delete st) ;;;
    a <~ ask_delete inp ;;
    (if str_in a.1 ["Y"; EmptyString] then for_each _remove (files_delete st) else ret tt) ;;;
    ret a.2
  else
    say "No orphaned .rpmnew and .rpmsave files found." ;;; ret inp.

(** [_clean_orphan] on the directories [t].  The walks return within
    [enough_fuel t] passes (lemma [scan_ok]), so the last branch is
    never taken. *)
Definition _clean_orphan (t : tree) (inp : list read_event) : M (list read_event) :=
  for_each (fun topdir => tell (LoggerInfo ("Searching through: " +:+ topdir))) topdirs ;;;
  match scan (enough_fuel t) t with
  | Some st => report_and_delete st inp
  | None => raise OtherOSError
  end.

(** [run], on the configuration files of the selected packages and the
    directory view of the walk. *)
Fixpoint handle_packages (packages : list (list string)) (acc : Z * list read_event)
  : M (Z * list read_event) :=
  match packages with
  | [] => ret acc
  | pkg_hdr :: more =>
      r <~ _handle_package pkg_hdr acc.2 ;;
      handle_packages more (acc.1 + r.1, r.2)
  end.

Definition run (packages : list (list string)) (t : tree) (inp : list read_event)
  : M (list read_event) :=
  r <~ handle_packages packages (0, inp) ;;
  inp' <~ (if clean self then _clean_orphan t r.2 else ret r.2) ;;
  if 0 <? r.1 then sys_exit 5 else ret inp'.

End Engine.

(** ** Vocabulary of the statements *)

(** The three kinds of artifact, their suffixes, and the handler
    [handle_conf_file] gives each of them. *)
Inductive kind : Type := NEW | BACKUP | ORIG.

Definition suffix (k : kind) : string :=
  match k with
  | NEW => "rpmnew"
  | BACKUP => "rpmsave"
  | ORIG => "rpmorig"
  end.

Definition artifact_of (k : kind) (base_path : string) : string :=
  base_path +:+ "." +:+ suffix k.

Definition resolve (X : externals) (self : RpmConf) (k : kind)
  : string → string → list read_event → M (list read_event) :=
  match k with
  | NEW => _handle_rpmnew X self
  | BACKUP => _handle_rpmsave X self
  | ORIG => _handle_rpmsave X self
  end.

Definition prompt_of (k : kind) : string :=
  match k with
  | NEW => prompt_rpmnew
  | _ => prompt_rpmsave
  end.

(** The handler gets as far as its prompt: no policy is in force, the
    opening comparison does not find the two files equal, and the
    artifact is there. *)
Definition reaches_prompt (self : RpmConf) (conf_file other_file : string) (w : world)
  : Prop :=
  (unattended self ∉ (Some <$> ["use_maintainer"; "use_your"; "default"]))
  ∧ same_files conf_file other_file w = Ok false w
  ∧ os_access_F_OK (w_fs w) other_file = true.

(** Answers the loop acts on; anything else is not recognized. *)
Definition recognized : list string :=
  ["Y"; "I"; "N"; "O"; "S"; "D"; "Z"; "M"; EmptyString].


(** The two terminal file operations. *)
Inductive action : Type := Overwrite | Delete.

Definition perform (self : RpmConf) (a : action)
    (conf_file other_file : string) : M unit :=
  match a with
  | Overwrite => _overwrite self other_file conf_file
  | Delete => _remove self other_file
  end.




(** The world with more output. *)
Definition add_out (evs : list event) (w : world) : world :=
  mkWorld (w_fs w) (w_out w ++ evs)%list (w_MERGE w).

Definition world_of {A} (r : result A) : world :=
  match r with
  | Ok _ w => w
  | SysExit _ w => w
  | Raised _ w => w
  end.

(** What one pass of the interactive loop shows before it reads. *)
Definition shown (self : RpmConf) (fs : filesystem) (prompt conf_file other_file : string)
  : list event :=
  (Print ("Configuration file '" +:+ conf_file +:+ "'") ::
   (if os_path_exists fs conf_file
    then [Ls (selinux self) conf_file other_file]
    else [Print "File is missing. Using /dev/null instead.";
          Ls (selinux self) dev_null other_file]) ++
   [Print prompt; Input "Your choice: "])%list.


(** The artifact is something [os.unlink] removes. *)
Definition is_file (fs : filesystem) (p : string) : Prop :=
  match fs !! p with
  | Some (Dir _) => False
  | Some _ => True
  | None => False
  end.

(** The states of one side of a diff, in the specification's words. *)
Inductive side : Type :=
| Missing
| BrokenLink (target : string)
| ValidLink (target : string) (mtime : Z)
| Present (mtime : Z).

Definition side_of (fs : filesystem) (file : string) : side :=
  match fs !! file with
  | Some (Lnk t) =>
      match follow MAXSYMLINKS fs file with
      | Some (_, n) => ValidLink t (node_mtime n)
      | None => BrokenLink t
      end
  | Some n => Present (node_mtime n)
  | None => Missing
  end.

(** The command line [_merge_conf_files] starts for the configured
    frontend, if one is configured. *)
Definition merge_argv (X : externals) (self : RpmConf) (w : world)
    (conf_file other_file : string) : option (list string) :=
  let fe := frontend self in
  if bool_decide (fe ∈ [Some "vimdiff"; Some "gvimdiff"; Some "meld"]) then
    Some ["/usr/bin/" +:+ default EmptyString fe; conf_file; other_file]
  else if bool_decide (fe = Some "diffuse") then
    Some ["/usr/bin/diffuse"; conf_file; other_file]
  else if bool_decide (fe = Some "kdiff3") then
    Some ["/usr/bin/kdiff3"; conf_file; other_file; "-o"; conf_file]
  else if bool_decide (fe = Some "sdiff") then
    Some ["/usr/bin/sdiff"; "-o"; mkstemp X (w_fs w); conf_file; other_file]
  else if ((bool_decide (fe = Some "env") || bool_decide (fe = None))
           && bool_decide (w_MERGE w ≠ None))%bool then
    Some [default EmptyString (w_MERGE w); conf_file; other_file]
  else None.

(** The note on a link and its target. *)
Definition link_note (file target : string) : string :=
  "Info: '" +:+ file +:+ "' is symlink to '" +:+ target +:+ "'." +:+ nl.

(** The identities of the directories of a list that were entered
    from a parent directory (the others are tops of walks). *)
Definition entered (l : list (string * ident * bool)) : list ident :=
  omap (fun y => if y.2 : bool then None else Some y.1.2) l.

(** The identities the walk has descended into. *)
Definition descended (st : scan_state) : list ident := entered (yielded st).

(** The identities of the directories the walk has listed, one for
    each listing, and the number of listings that were tops of walks. *)
Definition listed_identities (st : scan_state) : list ident :=
  (fun y => y.1.2) <$> yielded st.

Definition top_listings (l : list (string * ident * bool)) : nat :=
  length (filter (fun y => y.2 = true) l).

(** What the walk keeps true: the identities entered or about to be
    entered are pairwise distinct and all recorded, and only
    identities behind directory entries are recorded. *)
Definition walk_inv (t : tree) (stack : list (string * ident * bool)) (st : scan_state)
  : Prop :=
  NoDup (entered stack ++ descended st)
  ∧ (∀ i, i ∈ entered stack ++ descended st → i ∈ dirs_inodes st)
  ∧ dirs_inodes st ⊆ candidates t.

(** The file [l_name] has been classified: it is among the files to
    delete when no package declares its base name, among the files to
    merge, with the first declaring package, otherwise. *)
Definition classified (X : externals) (st : scan_state) (l_name : string) : Prop :=
  match dbMatch_basenames X (splitext l_name).1 with
  | [] => l_name ∈ files_delete st
  | pkg :: _ =>
      truthy pkg = true →
      (pkg, (splitext l_name).1, l_name) ∈ files_merge st ∧ l_name ∉ files_delete st
  end.

(** What the walk keeps true of its two lists: only files without a
    declaring package are to be deleted, and the artifacts of every
    listed directory are classified. *)
Definition lists_inv (X : externals) (t : tree) (st : scan_state) : Prop :=
  (∀ f, f ∈ files_delete st → dbMatch_basenames X (splitext f).1 = [])
  ∧ (∀ root_ id top name,
       (root_, id, top) ∈ yielded st →
       name ∈ files_of (scandir t id) →
       (splitext (os_path_join root_ name)).2 ∈ [".rpmnew"; ".rpmsave"] →
       classified X st (os_path_join root_ name)).

(** The computation leaves whatever is at path [p] as it is, however it
    ends. *)
Definition leaves {A} (p : string) (m : M A) : Prop :=
  ∀ w, w_fs (world_of (m w)) !! p = w_fs w !! p.

(** The file operation a terminal answer stands for; S stands for
    none. *)
Definition answer_action (k : kind) (opt : string) : option action :=
  match k with
  | NEW =>
      if str_in opt ["Y"; "I"] then Some Overwrite
      else if str_in opt ["N"; "O"] then Some Delete
      else None
  | _ =>
      if str_in opt ["Y"; "I"] then Some Delete
      else if str_in opt ["N"; "O"] then Some Overwrite
      else None
  end.

(** The order in which a handler passes the two files to [show_diff]. *)
Definition diff_order (k : kind) (conf_file other_file : string) : string * string :=
  match k with
  | NEW => (conf_file, other_file)
  | _ => (other_file, conf_file)
  end.

(** The artifacts of a configuration file that are there, in the
    order [_handle_package] looks for them. *)
Definition present_artifacts (fs : filesystem) (conf_file : string) : list string :=
  filter (fun p => os_access_F_OK fs p = true)
    [artifact_of NEW conf_file; artifact_of BACKUP conf_file; artifact_of ORIG conf_file].

Definition pending_artifacts (fs : filesystem) (conf_files : list string) : list string :=
  concat (present_artifacts fs <$> conf_files).

(** What [_clean_orphan] prints after the walks, before it asks. *)
Definition report (st : scan_state) : list event :=
  (if bool_decide (files_merge st ≠ []) then
     Print "These files need merging - you may want to run 'rpmconf -a':" ::
     ((fun m => Print (ljust 20 m.1.1 +:+ ": " +:+ m.2)) <$> files_merge st) ++
     [Print ("Skipping files above." +:+ nl)]
   else []) ++
  (if bool_decide (files_delete st ≠ []) then
     Print "Orphaned .rpmnew and .rpmsave files:" :: (Print <$> files_delete st)
   else [Print "No orphaned .rpmnew and .rpmsave files found."]).

Definition delete_question : event := Input "Delete these files (Y/n): ".

(** The path [os.walk] starts from for a top directory. *)
Definition walked_top (X : externals) (self : RpmConf) (topdir : string) : string :=
  if root_set self then normpath X (default EmptyString (root self) +:+ topdir)
  else topdir.

(** What the walk keeps true of the paths it lists: none that was
    entered from a parent directory is excluded, and the tops are the
    top directories that are not excluded under their plain name. *)
Definition listed_ok (X : externals) (self : RpmConf) (excludes : list string)
    (l : list (string * ident * bool)) : Prop :=
  ∀ p id top,
    (p, id, top) ∈ l →
    if top : bool
    then ∃ topdir, topdir ∈ topdirs ∧ (topdir ∉ excludes) ∧ p = walked_top X self topdir
    else p ∉ excludes.

(** The computation shows pages of differences and does nothing else:
    it changes no file, emits nothing but pager events, never ends the
    process, and what it returns satisfies [P]. *)
Definition shows_only {A} (P : A → Prop) (m : M A) : Prop :=
  ∀ w, (∃ pages, world_of (m w) = add_out (Pager <$> pages) w)
       ∧ match m w with
         | Ok a _ => P a
         | SysExit _ _ => False
         | Raised _ _ => True
         end.

(** Whenever the computation ends the process, the status is one of
    [codes]. *)
Definition exits_in {A} (codes : list Z) (m : M A) : Prop :=
  ∀ w c w', m w = SysExit c w' → c ∈ codes.

(** The path [f] is an artifact the walk has seen: its extension is
    .rpmnew or .rpmsave and it is a file of a directory the walk has
    listed. *)
Definition artifact_seen (t : tree) (st : scan_state) (f : string) : Prop :=
  (splitext f).2 ∈ [".rpmnew"; ".rpmsave"]
  ∧ ∃ root_ id top name,
      (root_, id, top) ∈ yielded st
      ∧ name ∈ files_of (scandir t id)
      ∧ f = os_path_join root_ name.

(** Both lists of the scan hold artifacts the walk has seen only. *)
Definition records_artifacts (t : tree) (st : scan_state) : Prop :=
  (∀ f, f ∈ files_delete st → artifact_seen t st f)
  ∧ (∀ m, m ∈ files_merge st → artifact_seen t st m.2).

(** ** Sample data *)

Definition sample_externals : externals :=
  mkExternals
    (fun _ _ => NotFound)
    (fun _ _ _ _ _ _ => "@@")
    (fun _ => true)
    (fun _ _ _ => "Binary files differ")
    (fun _ => "Thu Jan  1 00:00:00 1970")
    (fun _ => "/tmp/rpmconf_scratch")
    (fun p => p)
    (fun p => "'" +:+ p +:+ "'")
    (fun p => if bool_decide (p = "/etc/foo.conf") then ["pkgA"] else []).

Definition interactive : RpmConf :=
  mkRpmConf true false false false None false [] None None.

Definition dry_run : RpmConf :=
  mkRpmConf true true false false None false [] None None.

Definition with_policy (policy : string) : RpmConf :=
  mkRpmConf true false false false None false [] None (Some policy).

Definition with_frontend (fe : string) : RpmConf :=
  mkRpmConf true false false false (Some fe) false [] None None.

(** /etc/x.conf holds A, the shipped /etc/x.conf.rpmnew holds B. *)
Definition fs_differ : filesystem :=
  <["/etc/x.conf" := Reg "A" 5]> (<["/etc/x.conf.rpmnew" := Reg "B" 7]>
  (<["/etc/x.conf.rpmsave" := Reg "C" 3]> (<["/dev/null" := Special 0]> ∅))).

(** Both hold A; the artifact is younger. *)
Definition fs_same : filesystem :=
  <["/etc/x.conf" := Reg "A" 5]> (<["/etc/x.conf.rpmnew" := Reg "A" 7]> ∅).

(** The two files differ but have the same size and modification
    time. *)
Definition fs_same_signature : filesystem :=
  <["/etc/x.conf" := Reg "A" 5]> (<["/etc/x.conf.rpmnew" := Reg "B" 5]> ∅).

(** /etc/x.conf is a working link to a file that holds A, as the
    artifact does. *)
Definition fs_link : filesystem :=
  <["/etc/x.conf" := Lnk "/etc/alternatives/x.conf"]>
  (<["/etc/alternatives/x.conf" := Reg "A" 5]>
  (<["/etc/x.conf.rpmnew" := Reg "A" 7]> ∅)).

(** /etc/x.conf is a link to the null device; an update waits. *)
Definition fs_null : filesystem :=
  <["/etc/x.conf" := Lnk "/dev/null"]>
  (<["/dev/null" := Special 0]> (<["/etc/x.conf.rpmnew" := Reg "B" 7]> ∅)).

(** One side missing, one a dangling link, one a working link. *)
Definition fs_sides : filesystem :=
  <["/etc/dangling" := Lnk "/etc/nowhere"]>
  (<["/etc/link" := Lnk "/etc/real"]> (<["/etc/real" := Reg "A" 5]> ∅)).


(** The dotless i, U+0131, in UTF-8. *)
Definition dotless_i_text : string :=
  String (ascii_of_nat 196) (String (ascii_of_nat 177) EmptyString).

Definition world0 (fs : filesystem) : world := mkWorld fs [] None.

(** /etc contains a link to itself and three artifacts. *)
Definition tree_cycle : tree :=
  mkTree (<["/etc" := (1, 1)]> ∅)
    (<[(1, 1) := [("link", SubDir (1, 1)); ("sub", SubDir (1, 2));
                  ("foo.conf.rpmsave", NonDir); ("bar.conf.rpmnew", NonDir)]]>
     (<[(1, 2) := [("back", SubDir (1, 1)); ("baz.conf.rpmorig", NonDir)]]> ∅)).


(** A merge tool that exists and resolves the conflict by removing
    the artifact. *)
Definition merging_externals : externals :=
  mkExternals
    (fun _ fs => Exited 0 (delete "/etc/x.conf.rpmnew" fs))
    (fun _ _ _ _ _ _ => "@@")
    (fun _ => true)
    (fun _ _ _ => "Binary files differ")
    (fun _ => "Thu Jan  1 00:00:00 1970")
    (fun _ => "/tmp/rpmconf_scratch")
    (fun p => p)
    (fun p => "'" +:+ p +:+ "'")
    (fun _ => []).

(** A merge tool that exists, changes no file and ends with the given
    status. *)
Definition idle_externals (rc : Z) : externals :=
  mkExternals
    (fun _ fs => Exited rc fs)
    (fun _ _ _ _ _ _ => "@@")
    (fun _ => true)
    (fun _ _ _ => "Binary files differ")
    (fun _ => "Thu Jan  1 00:00:00 1970")
    (fun _ => "/tmp/rpmconf_scratch")
    (fun p => p)
    (fun p => "'" +:+ p +:+ "'")
    (fun _ => []).

(** sdiff: the scratch file receives the merged text M. *)
Definition sdiff_externals (rc : Z) : externals :=
  mkExternals
    (fun _ fs => Exited rc (<["/tmp/rpmconf_scratch" := Reg "M" 9]> fs))
    (fun _ _ _ _ _ _ => "@@")
    (fun _ => true)
    (fun _ _ _ => "Binary files differ")
    (fun _ => "Thu Jan  1 00:00:00 1970")
    (fun _ => "/tmp/rpmconf_scratch")
    (fun p => p)
    (fun p => "'" +:+ p +:+ "'")
    (fun _ => []).

Definition test_only : RpmConf :=
  mkRpmConf false false false false None true [] None None.

Definition diff_only : RpmConf :=
  mkRpmConf false false false true None false [] None None.

Definition no_clean : RpmConf :=
  mkRpmConf false false false false None false [] None None.

(** The artifact is a link; the installed file is a regular file. *)
Definition fs_link_artifact : filesystem :=
  <["/etc/x.conf" := Reg "A" 5]> (<["/etc/x.conf.rpmnew" := Lnk "/usr/share/x.conf"]> ∅).

(** An update waits: /etc/x.conf holds A, the shipped /etc/x.conf.rpmnew
    holds B, and there is no other artifact. *)
Definition fs_pending_update : filesystem :=
  <["/etc/x.conf" := Reg "A" 5]> (<["/etc/x.conf.rpmnew" := Reg "B" 7]> ∅).

(** A state of the scan with two orphans and nothing to merge. *)
Definition two_orphans : scan_state :=
  mkScan ∅ [] ["/etc/x.conf.rpmnew"; "/etc/x.conf.rpmsave"] [].

(** * Properties *)

#[local] Set Warnings "-clear-no-such-hyp".

(** ** Output bookkeeping *)

Lemma emit_as_add_out (e : event) (w : world) : emit e w = add_out [e] w.
Proof. reflexivity. Qed.

Lemma add_out_add_out (a b : list event) (w : world) :
  add_out b (add_out a w) = add_out (a ++ b) w.
Proof. unfold add_out; simpl. by rewrite <- app_assoc. Qed.

Lemma append_empty_r (s : string) : s +:+ EmptyString = s.
Proof.
  induction s as [|c s IH]; [reflexivity|].
  change (String c (s +:+ EmptyString) = String c s). by rewrite IH.
Qed.

Lemma artifact_is_not_base (k : kind) (base_path : string) :
  artifact_of k base_path ≠ base_path.
Proof.
  unfold artifact_of. intros E.
  rewrite <- (append_empty_r base_path) in E at 2.
  apply (inj (String.append base_path)) in E.
  destruct k; discriminate E.
Qed.

Lemma truthy_empty : truthy EmptyString = false.
Proof. reflexivity. Qed.

(** Tests on string literals are settled by evaluation. *)
Ltac decide_strings :=
  repeat match goal with
    | |- context [str_in ?a ?l] =>
        let b := eval vm_compute in (str_in a l) in change (str_in a l) with b
    end.

(** ** Paths and extensions *)













(** ** The two file operations *)

Lemma _remove_dry (self : RpmConf) (p : string) (w : world) :
  debug self = true → _remove self p w = Ok tt (add_out [Print ("rm " +:+ p)] w).
Proof. intros D. unfold _remove. by rewrite D. Qed.

Lemma _remove_real (self : RpmConf) (p : string) (w : world) :
  debug self = false → is_file (w_fs w) p →
  _remove self p w = Ok tt (set_fs (delete p (w_fs w)) w).
Proof.
  intros D F. unfold _remove, lift_fs, os_unlink. rewrite D.
  unfold is_file in F. destruct (w_fs w !! p) as [[]|]; done.
Qed.

Lemma _overwrite_dry (self : RpmConf) (src dst : string) (w : world) :
  debug self = true →
  _overwrite self src dst w
  = Ok tt (add_out [Print ("cp --no-dereference " +:+ src +:+ " " +:+ dst)] w).
Proof. intros D. unfold _overwrite. by rewrite D. Qed.

(** C10. Dry run: with [debug] set, [_remove] and [_overwrite] leave
    the file system as it is, whatever the paths; each only prints one
    command line ([rm ...], [cp --no-dereference ...]). *)
Theorem dry_run_frame (self : RpmConf) (w : world) :
  debug self = true →
  (∀ conf_file,
     _remove self conf_file w = Ok tt (add_out [Print ("rm " +:+ conf_file)] w)
     ∧ w_fs (world_of (_remove self conf_file w)) = w_fs w)
  ∧ (∀ src dst,
       _overwrite self src dst w
       = Ok tt (add_out [Print ("cp --no-dereference " +:+ src +:+ " " +:+ dst)] w)
       ∧ w_fs (world_of (_overwrite self src dst w)) = w_fs w).
Proof.
  intros D. split.
  - intros p. by rewrite _remove_dry.
  - intros src dst. by rewrite _overwrite_dry.
Qed.

Lemma dry_run_frame_witness :
  debug dry_run = true
  ∧ _remove dry_run "/etc/x.conf.rpmnew" (world0 fs_differ)
    = Ok tt (add_out [Print "rm /etc/x.conf.rpmnew"] (world0 fs_differ))
  ∧ w_fs (world_of (_overwrite dry_run "/etc/x.conf.rpmnew" "/etc/x.conf"
                      (world0 fs_differ)))
    = fs_differ.
Proof.
  split; [reflexivity|]. split.
  - exact (proj1 (proj1 (dry_run_frame dry_run (world0 fs_differ) eq_refl)
                    "/etc/x.conf.rpmnew")).
  - exact (proj2 (proj2 (dry_run_frame dry_run (world0 fs_differ) eq_refl)
                    "/etc/x.conf.rpmnew" "/etc/x.conf")).
Defined.

(** ** The interactive loop *)

Section Interactive.

Context (X : externals) (self : RpmConf).

Lemma iteration_shown (prompt dflt d1 d2 conf other : string) (ev : read_event) (w : world) :
  os_access_F_OK (w_fs w) other = true →
  iteration X self prompt dflt d1 d2 conf other ev w
  = match ev with
    | Line s => after_read X self dflt d1 d2 conf other (upper s)
    | Eof => after_read X self dflt d1 d2 conf other "S"
    | Interrupt => sys_exit 1
    end (add_out (shown self (w_fs w) prompt conf other) w).
Proof.
  intros A. unfold iteration. rewrite A. cbn [negb].
  unfold shown, bind, _ls_conf_file, say, print, read_option, try_except,
    flush_input, bind, tell, raise, ret.
  destruct (os_path_exists (w_fs w) conf) eqn:E; cbn [negb w_fs emit];
    rewrite ?E; cbn [negb]; destruct ev;
    rewrite !emit_as_add_out, !add_out_add_out; reflexivity.
Qed.

(** An answer that is neither D, Z nor M runs through the body without
    any effect. *)
Lemma after_read_plain (dflt d1 d2 conf other opt : string) (w : world) :
  os_access_F_OK (w_fs w) other = true →
  let opt' := if truthy opt then opt else dflt in
  opt' ∉ ["D"; "Z"; "M"] →
  after_read X self dflt d1 d2 conf other opt w = Ok (Chose opt') w.
Proof.
  intros A opt' N. unfold after_read. rewrite A. cbn [negb]. fold opt'.
  unfold bind, ret.
  rewrite !bool_decide_eq_false_2; [done | | |];
    intros ->; apply N; set_solver.
Qed.

Lemma interact_step (prompt dflt d1 d2 conf other : string) (ev : read_event)
    (rest : list read_event) (w : world) :
  os_access_F_OK (w_fs w) other = true →
  let w' := add_out (shown self (w_fs w) prompt conf other) w in
  interact X self prompt dflt d1 d2 conf other (ev :: rest) w
  = match ev with
    | Interrupt => SysExit 1 w'
    | _ =>
        match after_read X self dflt d1 d2 conf other
                (match ev with Line s => upper s | _ => "S" end) w' with
        | Ok Returned w'' => Ok (Returned, rest) w''
        | Ok (Chose opt) w'' =>
            if str_in opt terminal_options then Ok (Chose opt, rest) w''
            else interact X self prompt dflt d1 d2 conf other rest w''
        | SysExit c w'' => SysExit c w''
        | Raised e w'' => Raised e w''
        end
    end.
Proof.
  intros A w'. cbn [interact]. rewrite iteration_shown by done. fold w'.
  destruct ev; reflexivity.
Qed.

(** At the end of the input a pass leaves the loop: the function has
    returned, or [option] is S. *)
Lemma iteration_at_eof (prompt dflt d1 d2 conf other : string) (w : world) :
  ∃ f w', iteration X self prompt dflt d1 d2 conf other Eof w = Ok f w'
          ∧ (f = Returned ∨ f = Chose "S").
Proof.
  destruct (os_access_F_OK (w_fs w) other) eqn:A.
  - rewrite iteration_shown by done.
    rewrite (after_read_plain dflt d1 d2 conf other "S"); [|done|cbn; set_solver].
    eexists _, _. split; [reflexivity|by right].
  - unfold iteration. rewrite A. eexists _, _. split; [reflexivity|by left].
Qed.

End Interactive.

Section Resolution.

Context (X : externals) (self : RpmConf).

Lemma no_policy_maintainer :
  unattended self ∉ (Some <$> ["use_maintainer"; "use_your"; "default"]) →
  bool_decide (unattended self = Some "use_maintainer") = false.
Proof. intros H. apply bool_decide_eq_false_2. intros E. apply H. rewrite E. set_solver. Qed.

Lemma no_policy_your :
  unattended self ∉ (Some <$> ["use_maintainer"; "use_your"; "default"]) →
  bool_decide (unattended self = Some "use_your") = false.
Proof. intros H. apply bool_decide_eq_false_2. intros E. apply H. rewrite E. set_solver. Qed.

Lemma no_policy_your_default :
  unattended self ∉ (Some <$> ["use_maintainer"; "use_your"; "default"]) →
  bool_decide (unattended self ∈ [Some "use_your"; Some "default"]) = false.
Proof. intros H. apply bool_decide_eq_false_2. intros E. apply H. set_solver. Qed.

Lemma no_policy_maintainer_default :
  unattended self ∉ (Some <$> ["use_maintainer"; "use_your"; "default"]) →
  bool_decide (unattended self ∈ [Some "use_maintainer"; Some "default"]) = false.
Proof. intros H. apply bool_decide_eq_false_2. intros E. apply H. set_solver. Qed.

(** Past the opening comparison and the policies, a handler is its
    loop followed by the two tests on [option]. *)
Lemma _handle_rpmnew_prompt (conf other : string) (inp : list read_event) (w : world) :
  reaches_prompt self conf other w →
  _handle_rpmnew X self conf other inp w
  = match interact X self prompt_rpmnew "N" conf other conf other inp w with
    | Ok (Returned, rest) w' => Ok rest w'
    | Ok (Chose opt, rest) w' =>
        ((if str_in opt ["N"; "O"] then _remove self other else ret tt) ;;;
         (if str_in opt ["Y"; "I"] then _overwrite self other conf else ret tt) ;;;
         ret rest) w'
    | SysExit c w' => SysExit c w'
    | Raised e w' => Raised e w'
    end.
Proof.
  intros (P & S & A). unfold _handle_rpmnew, bind at 1. rewrite S.
  rewrite no_policy_maintainer, no_policy_your_default by done.
  unfold bind at 1.
  destruct (interact _ _ _ _ _ _ _ _ _ _) as [[[|opt] rest] w'| |]; reflexivity.
Qed.

Lemma _handle_rpmsave_prompt (conf other : string) (inp : list read_event) (w : world) :
  reaches_prompt self conf other w →
  _handle_rpmsave X self conf other inp w
  = match interact X self prompt_rpmsave "Y" other conf conf other inp w with
    | Ok (Returned, rest) w' => Ok rest w'
    | Ok (Chose opt, rest) w' =>
        ((if str_in opt ["Y"; "I"] then _remove self other else ret tt) ;;;
         (if str_in opt ["N"; "O"] then _overwrite self other conf else ret tt) ;;;
         ret rest) w'
    | SysExit c w' => SysExit c w'
    | Raised e w' => Raised e w'
    end.
Proof.
  intros (P & S & A). unfold _handle_rpmsave, bind at 1. rewrite S.
  rewrite no_policy_maintainer_default, no_policy_your by done.
  unfold bind at 1.
  destruct (interact _ _ _ _ _ _ _ _ _ _) as [[[|opt] rest] w'| |]; reflexivity.
Qed.

(** C8. Failure modes of the read: at the prompt of either handler, an
    end of input (signalled, or the input being exhausted) acts as S:
    the handler returns and no file has changed; an interrupt ends the
    process with exit status 1, no file having changed either. *)
Theorem read_failure_modes (k : kind) (conf other : string)
    (rest : list read_event) (w : world) :
  reaches_prompt self conf other w →
  let w' := add_out (shown self (w_fs w) (prompt_of k) conf other) w in
  resolve X self k conf other (Eof :: rest) w = Ok rest w'
  ∧ resolve X self k conf other [] w = Ok [] w'
  ∧ resolve X self k conf other (Interrupt :: rest) w = SysExit 1 w'
  ∧ w_fs w' = w_fs w.
Proof.
  intros R w'. pose proof R as (P & S & A).
  assert (E : ∀ dflt d1 d2 prompt,
             after_read X self dflt d1 d2 conf other "S"
               (add_out (shown self (w_fs w) prompt conf other) w)
             = Ok (Chose "S") (add_out (shown self (w_fs w) prompt conf other) w)).
  { intros. apply (after_read_plain X self dflt d1 d2 conf other "S"); [done|].
    cbn. set_solver. }
  destruct k; cbn [resolve prompt_of] in *;
    rewrite ?_handle_rpmnew_prompt, ?_handle_rpmsave_prompt by done;
    rewrite !interact_step by done;
    cbn [interact]; rewrite iteration_shown by done; rewrite !E; done.
Qed.

Lemma same_files_add_out (conf other : string) (evs : list event) (b : bool) (w : world) :
  same_files conf other w = Ok b w →
  same_files conf other (add_out evs w) = Ok b (add_out evs w).
Proof.
  unfold same_files. cbn [w_fs add_out].
  destruct (_ && _)%bool; [|by intros [= <-]].
  destruct (filecmp_cmp _ _ _); [done|]. by intros [= <-].
Qed.

Lemma reaches_prompt_add_out (conf other : string) (evs : list event) (w : world) :
  reaches_prompt self conf other w → reaches_prompt self conf other (add_out evs w).
Proof.
  intros (P & S & A). split; [done|]. split; [|done]. by apply same_files_add_out.
Qed.

(** C4. Empty input takes the default of the kind: at the prompt of
    either handler an empty line ends in [_remove] of the artifact and
    nothing else.  Outside dry-run mode the artifact is then gone and
    every other path, the installed file among them, is as before. *)
Theorem default_on_empty_input (k : kind) (base_path : string)
    (rest : list read_event) (w : world) :
  let other := artifact_of k base_path in
  reaches_prompt self base_path other w →
  let w' := add_out (shown self (w_fs w) (prompt_of k) base_path other) w in
  resolve X self k base_path other (Line EmptyString :: rest) w
  = (_remove self other ;;; ret rest) w'
  ∧ (debug self = false → is_file (w_fs w) other →
     resolve X self k base_path other (Line EmptyString :: rest) w
     = Ok rest (set_fs (delete other (w_fs w)) w')
     ∧ delete other (w_fs w) !! other = None
     ∧ delete other (w_fs w) !! base_path = w_fs w !! base_path).
Proof.
  intros other R w'. pose proof R as (P & S & A).
  assert (E : resolve X self k base_path other (Line EmptyString :: rest) w
              = (_remove self other ;;; ret rest) w').
  { destruct k; cbn [resolve prompt_of] in *;
      rewrite ?_handle_rpmnew_prompt, ?_handle_rpmsave_prompt by done;
      rewrite interact_step by done; cbn [upper];
      (rewrite after_read_plain; [|done|cbn; set_solver]);
      rewrite truthy_empty; unfold bind, ret; repeat (progress (decide_strings; cbn iota));
      fold w';
      by destruct (_remove self other w'). }
  split; [exact E|]. intros D F. rewrite E. unfold bind.
  rewrite _remove_real by done.
  split; [done|]. split; [apply lookup_delete_eq|].
  apply lookup_delete_ne, artifact_is_not_base.
Qed.

(** C3, as the code has it.  A line that is none of Y I N O S D Z M
    (in either case) and not empty resolves nothing: no file is touched
    and the handler goes on exactly as if started on the rest of the
    input, having shown its listing and prompt once.  Only the empty
    line stands for the default. *)
Theorem unrecognized_input_asks_again (k : kind) (conf other s : string)
    (rest : list read_event) (w : world) :
  reaches_prompt self conf other w →
  upper s ∉ recognized →
  resolve X self k conf other (Line s :: rest) w
  = resolve X self k conf other rest
      (add_out (shown self (w_fs w) (prompt_of k) conf other) w).
Proof.
  intros R U. pose proof R as (P & S & A).
  pose proof (reaches_prompt_add_out conf other
                (shown self (w_fs w) (prompt_of k) conf other) w R) as R'.
  assert (T : truthy (upper s) = true).
  { unfold truthy. rewrite bool_decide_eq_false_2; [done|].
    intros E. apply U. rewrite E. unfold recognized. set_solver. }
  assert (N : str_in (upper s) terminal_options = false).
  { apply bool_decide_eq_false_2. intros E. apply U.
    unfold terminal_options, recognized in *. set_solver. }
  destruct k; cbn [resolve prompt_of] in *;
    rewrite ?_handle_rpmnew_prompt, ?_handle_rpmsave_prompt by done;
    rewrite interact_step by done;
    (rewrite after_read_plain; [|done|rewrite T; unfold recognized in U; set_solver]);
    rewrite T, N; reflexivity.
Qed.

End Resolution.

Lemma read_failure_modes_witness :
  reaches_prompt interactive "/etc/x.conf" "/etc/x.conf.rpmnew" (world0 fs_differ)
  ∧ resolve sample_externals interactive NEW "/etc/x.conf" "/etc/x.conf.rpmnew"
      [Interrupt] (world0 fs_differ)
    = SysExit 1 (add_out (shown interactive fs_differ prompt_rpmnew
                            "/etc/x.conf" "/etc/x.conf.rpmnew") (world0 fs_differ)).
Proof.
  assert (R : reaches_prompt interactive "/etc/x.conf" "/etc/x.conf.rpmnew"
                (world0 fs_differ)).
  { split; [|split]; [|reflexivity|reflexivity].
    unfold interactive; cbn. set_solver. }
  split; [exact R|].
  exact (proj1 (proj2 (proj2 (read_failure_modes sample_externals interactive NEW
                  "/etc/x.conf" "/etc/x.conf.rpmnew" [] (world0 fs_differ) R)))).
Defined.

Lemma default_on_empty_input_witness :
  reaches_prompt interactive "/etc/x.conf" (artifact_of NEW "/etc/x.conf") (world0 fs_differ)
  ∧ resolve sample_externals interactive NEW "/etc/x.conf" (artifact_of NEW "/etc/x.conf")
      [Line EmptyString] (world0 fs_differ)
    = (_remove interactive (artifact_of NEW "/etc/x.conf") ;;; ret [])
        (add_out (shown interactive fs_differ prompt_rpmnew "/etc/x.conf"
                    (artifact_of NEW "/etc/x.conf")) (world0 fs_differ)).
Proof.
  assert (R : reaches_prompt interactive "/etc/x.conf" (artifact_of NEW "/etc/x.conf")
                (world0 fs_differ)).
  { split; [|split]; [|reflexivity|reflexivity].
    unfold interactive; cbn. set_solver. }
  split; [exact R|].
  exact (proj1 (default_on_empty_input sample_externals interactive NEW
                  "/etc/x.conf" [] (world0 fs_differ) R)).
Defined.

Lemma unrecognized_input_asks_again_witness :
  reaches_prompt interactive "/etc/x.conf" "/etc/x.conf.rpmsave" (world0 fs_differ)
  ∧ (upper "maybe" ∉ recognized)
  ∧ resolve sample_externals interactive BACKUP "/etc/x.conf" "/etc/x.conf.rpmsave"
      [Line "maybe"; Line "n"] (world0 fs_differ)
    = resolve sample_externals interactive BACKUP "/etc/x.conf" "/etc/x.conf.rpmsave"
        [Line "n"]
        (add_out (shown interactive fs_differ prompt_rpmsave
                    "/etc/x.conf" "/etc/x.conf.rpmsave") (world0 fs_differ)).
Proof.
  assert (R : reaches_prompt interactive "/etc/x.conf" "/etc/x.conf.rpmsave"
                (world0 fs_differ)).
  { split; [|split]; [|reflexivity|reflexivity].
    unfold interactive; cbn. set_solver. }
  assert (U : upper "maybe" ∉ recognized).
  { apply (bool_decide_unpack (upper "maybe" ∉ recognized)). vm_compute. exact I. }
  split; [exact R|]. split; [exact U|].
  exact (unrecognized_input_asks_again sample_externals interactive BACKUP
           "/etc/x.conf" "/etc/x.conf.rpmsave" "maybe" [Line "n"] (world0 fs_differ) R U).
Defined.

(** C3, as stated, fails.  The files differ, the user types x and the
    input ends: the artifact is still there and the question has been
    put twice, whereas the default (the empty line) removes the
    artifact after one question. *)
Lemma unrecognized_input_is_not_the_default :
  resolve sample_externals interactive NEW "/etc/x.conf" "/etc/x.conf.rpmnew"
    [Line "x"] (world0 fs_differ)
  = Ok [] (add_out (shown interactive fs_differ prompt_rpmnew
                      "/etc/x.conf" "/etc/x.conf.rpmnew" ++
                    shown interactive fs_differ prompt_rpmnew
                      "/etc/x.conf" "/etc/x.conf.rpmnew") (world0 fs_differ))
  ∧ resolve sample_externals interactive NEW "/etc/x.conf" "/etc/x.conf.rpmnew"
      [Line EmptyString] (world0 fs_differ)
    = Ok [] (set_fs (delete "/etc/x.conf.rpmnew" fs_differ)
               (add_out (shown interactive fs_differ prompt_rpmnew
                           "/etc/x.conf" "/etc/x.conf.rpmnew") (world0 fs_differ)))
  ∧ fs_differ !! "/etc/x.conf.rpmnew" = Some (Reg "B" 7)
  ∧ delete "/etc/x.conf.rpmnew" fs_differ !! "/etc/x.conf.rpmnew" = None.
Proof. repeat split; vm_compute; reflexivity. Qed.

(** An answer outside ASCII that [str.upper] takes to an answer: the
    dotless i is I, and installs the shipped file. *)
Example dotless_i_is_an_answer :
  upper dotless_i_text = "I"
  ∧ resolve sample_externals interactive NEW "/etc/x.conf" "/etc/x.conf.rpmnew"
      [Line dotless_i_text] (world0 fs_differ)
    = resolve sample_externals interactive NEW "/etc/x.conf" "/etc/x.conf.rpmnew"
        [Line "I"] (world0 fs_differ).
Proof. split; vm_compute; reflexivity. Qed.

(** ** The opening comparison and the policies *)

Section Unattended.

Context (X : externals) (self : RpmConf).








End Unattended.



(** ** The opening comparison and links *)

(** What [is_broken_symlink] computes: whether the path is a link that
    leads somewhere. *)
Lemma is_broken_symlink_spec (fs : filesystem) (file : string) :
  is_broken_symlink fs file
  = match side_of fs file with
    | ValidLink _ _ => true
    | _ => false
    end.
Proof.
  unfold is_broken_symlink, os_path_islink, os_path_exists, os_stat, side_of.
  destruct (fs !! file) as [[]|] eqn:E; try reflexivity.
  cbn [andb]. by destruct (follow MAXSYMLINKS fs file) as [[]|].
Qed.

(** When neither side is a link and both are regular files with the
    same content, the handlers remove the artifact and do nothing
    else, whatever the kind and the policy. *)
Lemma same_regular_files (X : externals) (self : RpmConf) (k : kind)
    (conf other content : string) (m1 m2 : Z) (inp : list read_event) (w : world) :
  w_fs w !! conf = Some (Reg content m1) →
  w_fs w !! other = Some (Reg content m2) →
  resolve X self k conf other inp w = (_remove self other ;;; ret inp) w.
Proof.
  intros C O.
  assert (S : same_files conf other w = Ok true w).
  { unfold same_files, is_broken_symlink, os_path_islink, os_path_exists,
      filecmp_cmp, os_stat. cbn [MAXSYMLINKS follow]. rewrite C, O. cbn.
    repeat case_bool_decide; done. }
  destruct k; cbn [resolve]; unfold _handle_rpmnew, _handle_rpmsave, bind at 1;
    rewrite S; reflexivity.
Qed.

(** C1 fails on a working link.  /etc/x.conf is a link to a file that
    holds A, /etc/x.conf.rpmnew holds A: neither side is a broken link,
    both exist, the contents are equal.  [is_broken_symlink] answers
    true for the working link, the comparison is skipped, and the
    handler puts its question; at the end of the input the artifact is
    still there.  With a regular file in place of the link the
    artifact is removed and nothing is asked. *)
Theorem working_link_is_taken_for_broken :
  side_of fs_link "/etc/x.conf" = ValidLink "/etc/alternatives/x.conf" 5
  ∧ os_stat fs_link "/etc/x.conf" = Some ("/etc/alternatives/x.conf", Reg "A" 5)
  ∧ os_stat fs_link "/etc/x.conf.rpmnew" = Some ("/etc/x.conf.rpmnew", Reg "A" 7)
  ∧ is_broken_symlink fs_link "/etc/x.conf" = true
  ∧ same_files "/etc/x.conf" "/etc/x.conf.rpmnew" (world0 fs_link)
    = Ok false (world0 fs_link)
  ∧ resolve sample_externals interactive NEW "/etc/x.conf" "/etc/x.conf.rpmnew" []
      (world0 fs_link)
    = Ok [] (add_out (shown interactive fs_link prompt_rpmnew
                        "/etc/x.conf" "/etc/x.conf.rpmnew") (world0 fs_link))
  ∧ resolve sample_externals interactive NEW "/etc/x.conf" "/etc/x.conf.rpmnew" []
      (world0 fs_same)
    = Ok [] (world0 (delete "/etc/x.conf.rpmnew" fs_same)).
Proof. repeat split; vm_compute; reflexivity. Qed.

(** [filecmp.cmp] is called with its default [shallow=True]: two
    regular files of the same size and modification time pass for
    equal without their contents being read, and the artifact is
    removed. *)
Example equal_signatures_pass_for_equal_files :
  same_files "/etc/x.conf" "/etc/x.conf.rpmnew" (world0 fs_same_signature)
  = Ok true (world0 fs_same_signature)
  ∧ resolve sample_externals interactive NEW "/etc/x.conf" "/etc/x.conf.rpmnew" []
      (world0 fs_same_signature)
    = Ok [] (world0 (delete "/etc/x.conf.rpmnew" fs_same_signature))
  ∧ delete "/etc/x.conf.rpmnew" fs_same_signature !! "/etc/x.conf" = Some (Reg "A" 5).
Proof. repeat split; vm_compute; reflexivity. Qed.

(** The two scenarios of the specification: the installed file holds
    A, the shipped one B; the answer Y installs B, the empty answer
    keeps A; either way the artifact is gone. *)
Example scenario_answer_Y :
  ∃ w', _handle_rpmnew sample_externals interactive "/etc/x.conf" "/etc/x.conf.rpmnew"
          [Line "Y"] (world0 fs_differ) = Ok [] w'
        ∧ w_fs w' !! "/etc/x.conf" = Some (Reg "B" 7)
        ∧ w_fs w' !! "/etc/x.conf.rpmnew" = None.
Proof. eexists. split; [vm_compute; reflexivity|]. split; reflexivity. Qed.

Example scenario_answer_empty :
  ∃ w', _handle_rpmnew sample_externals interactive "/etc/x.conf" "/etc/x.conf.rpmnew"
          [Line EmptyString] (world0 fs_differ) = Ok [] w'
        ∧ w_fs w' !! "/etc/x.conf" = Some (Reg "A" 5)
        ∧ w_fs w' !! "/etc/x.conf.rpmnew" = None.
Proof. eexists. split; [vm_compute; reflexivity|]. split; reflexivity. Qed.

(** ** The diff *)

Lemma follow_not_a_link (fs : filesystem) (file : string) (n : node) (fuel : nat) :
  fs !! file = Some n → (∀ t, n ≠ Lnk t) → follow fuel fs file = Some (file, n).
Proof.
  intros E N. destruct fuel; cbn [follow]; rewrite E; destruct n; try done;
    by specialize (N target).
Qed.




(** The three cases on sample files. *)
Example diff_sides_sample :
  diff_side sample_externals fs_sides "/etc/absent"
  = (missing_file_template "/etc/absent", "/dev/null", EmptyString)
  ∧ diff_side sample_externals fs_sides "/etc/dangling"
    = (link_note "/etc/dangling" "/etc/nowhere" +:+ err_msg_template "/etc/dangling",
       "/dev/null", EmptyString)
  ∧ diff_side sample_externals fs_sides "/etc/link"
    = (link_note "/etc/link" "/etc/real", "/etc/link", ctime sample_externals 5).
Proof. repeat split; vm_compute; reflexivity. Qed.

(** ** Merging *)

Lemma check_call_not_found (X : externals) (argv : list string) (w : world) :
  subprocess X argv (w_fs w) = NotFound →
  check_call X argv w = Raised FileNotFoundError (emit (CheckCall argv) w).
Proof. intros N. unfold check_call. by rewrite N. Qed.

(** C9. Fatal errors of the merge: without a frontend and without
    MERGE in the environment, [_merge_conf_files] logs what to do and
    exits with status 2; when the program of the configured frontend
    does not exist, it exits with status 4. *)
Theorem merge_fatal_errors (X : externals) (self : RpmConf)
    (conf other : string) (w : world) :
  (frontend self = None → w_MERGE w = None →
   _merge_conf_files X self conf other w
   = SysExit 2 (add_out [LoggerError no_frontend_message] w))
  ∧ (∀ argv,
       merge_argv X self w conf other = Some argv →
       (∀ fs, subprocess X argv fs = NotFound) →
       ∃ w', _merge_conf_files X self conf other w = SysExit 4 w'
             ∧ last (w_out w') = Some (StderrWrite (strerror_ENOENT +:+ nl))).
Proof.
  split.
  - intros F E. unfold _merge_conf_files, try_except, merge_branches.
    rewrite F, E. reflexivity.
  - intros argv Hargv N. revert Hargv.
    unfold merge_argv, _merge_conf_files, try_except, merge_branches. cbn beta.
    repeat (match goal with
            | |- context [bool_decide ?P] => destruct (bool_decide P) eqn:?
            end; cbn [andb orb]);
      intros Hargv; simplify_eq;
      unfold try_except, bind, lift_fs;
      rewrite ?check_call_not_found by apply N;
      cbn -[last];
      rewrite ?check_call_not_found by apply N;
      cbn -[last];
      (eexists; split; [reflexivity|]);
      cbn [w_out emit set_fs]; rewrite ?last_snoc; reflexivity.
Qed.

Lemma merge_fatal_errors_witness :
  frontend interactive = None
  ∧ w_MERGE (world0 fs_differ) = None
  ∧ _merge_conf_files sample_externals interactive "/etc/x.conf" "/etc/x.conf.rpmnew"
      (world0 fs_differ)
    = SysExit 2 (add_out [LoggerError no_frontend_message] (world0 fs_differ))
  ∧ merge_argv sample_externals (with_frontend "meld") (world0 fs_differ)
      "/etc/x.conf" "/etc/x.conf.rpmnew"
    = Some ["/usr/bin/meld"; "/etc/x.conf"; "/etc/x.conf.rpmnew"]
  ∧ (∀ fs, subprocess sample_externals
             ["/usr/bin/meld"; "/etc/x.conf"; "/etc/x.conf.rpmnew"] fs = NotFound)
  ∧ ∃ w', _merge_conf_files sample_externals (with_frontend "meld")
            "/etc/x.conf" "/etc/x.conf.rpmnew" (world0 fs_differ) = SysExit 4 w'
          ∧ last (w_out w') = Some (StderrWrite (strerror_ENOENT +:+ nl)).
Proof.
  split; [reflexivity|]. split; [reflexivity|].
  split.
  { exact (proj1 (merge_fatal_errors sample_externals interactive
                    "/etc/x.conf" "/etc/x.conf.rpmnew" (world0 fs_differ))
             eq_refl eq_refl). }
  split; [reflexivity|]. split; [intros fs; reflexivity|].
  exact (proj2 (merge_fatal_errors sample_externals (with_frontend "meld")
                  "/etc/x.conf" "/etc/x.conf.rpmnew" (world0 fs_differ))
           ["/usr/bin/meld"; "/etc/x.conf"; "/etc/x.conf.rpmnew"]
           eq_refl (fun fs => eq_refl)).
Defined.

(** ** The orphan scan *)

Section Walk.

Context (X : externals) (t : tree) (excludes : list string).

Lemma entered_app (a b : list (string * ident * bool)) :
  entered (a ++ b) = entered a ++ entered b.
Proof. unfold entered. apply omap_app. Qed.

Lemma entered_children (root_ : string) (scandirs : list (string * ident)) :
  entered (map (fun d => (os_path_join root_ d.1, d.2, false)) scandirs) = scandirs.*2.
Proof.
  induction scandirs as [|[n i] l IH]; [done|]. cbn. f_equal. exact IH.
Qed.

(** The inode loop keeps the directories whose identity is new, each
    identity once, and records exactly those. *)
Lemma inode_loop_spec (root_ : string) (dirs : list (string * ident)) (seen : gset ident) :
  (inode_loop root_ dirs seen).2 = list_to_set (inode_loop root_ dirs seen).1.*2 ∪ seen
  ∧ NoDup (inode_loop root_ dirs seen).1.*2
  ∧ (∀ i, i ∈ (inode_loop root_ dirs seen).1.*2 → i ∉ seen)
  ∧ (∀ d, d ∈ (inode_loop root_ dirs seen).1 → d ∈ dirs).
Proof.
  revert seen. induction dirs as [|[dirname dirkey] more IH]; intros seen.
  - cbn. repeat split; [set_solver|constructor|set_solver|set_solver].
  - cbn [inode_loop]. case_bool_decide as Hin.
    + destruct (IH seen) as (E & N & F & S). repeat split; try done.
      intros d Hd. right. by apply S.
    + destruct (IH ({[dirkey]} ∪ seen)) as (E & N & F & S).
      destruct (inode_loop root_ more ({[dirkey]} ∪ seen)) as [scandirs seen'].
      cbn in *. repeat split.
      * rewrite E. set_solver.
      * constructor; [|done]. intros Hk. apply F in Hk. set_solver.
      * intros i Hi. apply elem_of_cons in Hi as [->|Hi]; [done|].
        apply F in Hi. set_solver.
      * intros d Hd. apply elem_of_cons in Hd as [->|Hd]; [left|right; by apply S].
Qed.

Lemma elem_of_candidates (id : ident) (d : string * ident) :
  d ∈ dirs_of (scandir t id) → d.2 ∈ candidates t.
Proof.
  unfold scandir, candidates. intros Hd.
  destruct (t_ls t !! id) as [es|] eqn:E; [|by apply elem_of_nil in Hd].
  cbn in Hd. apply elem_of_list_to_set, list_elem_of_In, in_concat.
  exists (dirs_of es).*2. split.
  - apply in_map_iff. exists (id, es). split; [done|].
    apply list_elem_of_In, elem_of_map_to_list, E.
  - apply list_elem_of_In, list_elem_of_fmap. by exists d.
Qed.

(** One pass of the walk keeps [walk_inv] and uses up one unit of the
    measure: the pending directories plus the identities not yet
    recorded. *)
Lemma walk_body_inv (root_ : string) (id : ident) (top : bool)
    (pending : list (string * ident * bool)) (st : scan_state) :
  walk_inv t ((root_, id, top) :: pending) st →
  let r := walk_body X t excludes root_ id top st in
  let stack' := (map (fun d => (os_path_join root_ d.1, d.2, false)) r.1 ++ pending)%list in
  walk_inv t stack' r.2
  ∧ (length stack' + size (candidates t ∖ dirs_inodes r.2)
     = length pending + size (candidates t ∖ dirs_inodes st))%nat.
Proof.
  intros (Hnd & R & Hc). unfold walk_body.
  pose proof (inode_loop_spec root_
                (filter (fun d => os_path_join root_ d.1 ∉ excludes) (dirs_of (scandir t id)))
                (dirs_inodes st)) as (E & Nd & F & Hfil).
  destruct (inode_loop _ _ _) as [scandirs seen].
  destruct (files_loop _ _ _ _ _) as [fm fd].
  cbn [fst snd] in *. cbn zeta.
  assert (Sub : ∀ i, i ∈ scandirs.*2 → i ∈ candidates t).
  { intros i Hi. apply list_elem_of_fmap in Hi as (d & -> & Hd).
    apply Hfil, list_elem_of_filter in Hd as [_ Hd]. by apply (elem_of_candidates id). }
  set (st' := mkScan seen fm fd (yielded st ++ [(root_, id, top)])).
  set (stack' := map (fun d => (os_path_join root_ d.1, d.2, false)) scandirs ++ pending).
  assert (P : entered stack' ++ descended st'
              ≡ₚ scandirs.*2 ++ (entered ((root_, id, top) :: pending) ++ descended st)).
  { unfold descended, stack', st'. cbn [yielded].
    change ((root_, id, top) :: pending) with ([(root_, id, top)] ++ pending).
    rewrite !entered_app, entered_children. solve_Permutation. }
  split; [split; [|split]|].
  - rewrite P. apply NoDup_app. split; [done|]. split; [|done].
    intros i Hi Ho. exact (F i Hi (R i Ho)).
  - intros i Hi. rewrite P in Hi. cbn [dirs_inodes st']. rewrite E.
    apply elem_of_app in Hi as [Hi|Hi].
    + apply elem_of_union_l, elem_of_list_to_set, Hi.
    + apply elem_of_union_r, R, Hi.
  - cbn [dirs_inodes st']. rewrite E. intros i [Hi|Hi]%elem_of_union.
    + apply Sub. by apply elem_of_list_to_set in Hi.
    + by apply Hc.
  - cbn [dirs_inodes st']. unfold stack'. rewrite length_app, length_map.
    assert (D : candidates t ∖ dirs_inodes st
                = list_to_set scandirs.*2 ∪ (candidates t ∖ seen)).
    { apply set_eq. intros i. rewrite E.
      rewrite elem_of_union, !elem_of_difference, elem_of_union, elem_of_list_to_set.
      split.
      - intros [Hc' Hn]. destruct (decide (i ∈ scandirs.*2)); [by left|right].
        split; [done|]. by intros [|].
      - intros [Hi|[Hc' Hn]]; [split; [by apply Sub|by apply F]|].
        split; [done|]. intros Hs. apply Hn. by right. }
    rewrite D, (size_union (list_to_set scandirs.*2 : gset ident)).
    + rewrite size_list_to_set by done. rewrite length_fmap. lia.
    + intros i Hi [_ Hn]%elem_of_difference. apply Hn. rewrite E.
      by apply elem_of_union_l.
Qed.

(** The walk ends: with fuel for the pending directories and the
    identities not yet recorded, it returns, and keeps [walk_inv]. *)
Lemma walk_returns (fuel : nat) :
  ∀ (stack : list (string * ident * bool)) (st : scan_state),
    walk_inv t stack st →
    (length stack + size (candidates t ∖ dirs_inodes st) ≤ fuel)%nat →
    ∃ st', walk X fuel t excludes stack st = Some st' ∧ walk_inv t [] st'.
Proof.
  induction fuel as [|fuel IH]; intros stack st I B.
  - destruct stack; [|cbn in B; lia]. by exists st.
  - destruct stack as [|[[root_ id] top] pending]; [by exists st|].
    cbn [walk].
    pose proof (walk_body_inv root_ id top pending st I) as [I' M].
    destruct (walk_body X t excludes root_ id top st) as [scandirs st'].
    cbn [fst snd] in *. apply IH; [done|]. cbn [length] in B. lia.
Qed.

(** More fuel does not change what the walk returns. *)
Lemma walk_more_fuel (fuel : nat) :
  ∀ (stack : list (string * ident * bool)) (st st' : scan_state) (more : nat),
    walk X fuel t excludes stack st = Some st' →
    walk X (fuel + more) t excludes stack st = Some st'.
Proof.
  induction fuel as [|fuel IH]; intros stack st st' more W.
  - destruct stack as [|[[? ?] ?] ?]; [|done]. destruct more; exact W.
  - destruct stack as [|[[root_ id] top] pending]; [done|].
    cbn [walk Nat.add] in *.
    destruct (walk_body X t excludes root_ id top st) as [scandirs st1].
    by apply IH.
Qed.

(** Every property one pass keeps holds when the walk returns. *)
Lemma walk_keeps (P : scan_state → Prop) :
  (∀ root_ id top st, P st → P (walk_body X t excludes root_ id top st).2) →
  ∀ fuel stack st st',
    P st → walk X fuel t excludes stack st = Some st' → P st'.
Proof.
  intros Step. induction fuel as [|fuel IH]; intros stack st st' H W.
  - destruct stack as [|[[? ?] ?] ?]; [|done]. by injection W as <-.
  - destruct stack as [|[[root_ id] top] pending]; [by injection W as <-|].
    cbn [walk] in W. specialize (Step root_ id top st H).
    destruct (walk_body X t excludes root_ id top st) as [scandirs st1].
    by apply (IH _ _ _ Step W).
Qed.

End Walk.

Section Classification.

Context (X : externals) (t : tree) (excludes : list string).

Lemma splitext_ext_nonempty (l : string) : (splitext l).2 ≠ EmptyString → l ≠ EmptyString.
Proof. intros H ->. by apply H. Qed.

Lemma recognized_ext_nonempty (l : string) :
  (splitext l).2 ∈ [".rpmnew"; ".rpmsave"] → truthy l = true.
Proof.
  intros H. unfold truthy. rewrite bool_decide_eq_false_2; [done|].
  apply splitext_ext_nonempty. intros E. rewrite E in H. set_solver.
Qed.

(** The loop over the files of a directory only appends; what it
    appends to the files to delete has no declaring package; and every
    artifact of the directory ends up in one of the two lists. *)
Lemma files_loop_spec (root_ : string) (files : list string) :
  ∀ (fm : list (string * string * string)) (fd : list string),
    let r := files_loop X root_ files fm fd in
    (∃ fm1, r.1 = fm ++ fm1)
    ∧ (∃ fd1, r.2 = fd ++ fd1
              ∧ ∀ f, f ∈ fd1 → dbMatch_basenames X (splitext f).1 = [])
    ∧ (∀ name, name ∈ files →
         (splitext (os_path_join root_ name)).2 ∈ [".rpmnew"; ".rpmsave"] →
         match dbMatch_basenames X (splitext (os_path_join root_ name)).1 with
         | [] => os_path_join root_ name ∈ r.2
         | pkg :: _ =>
             truthy pkg = true →
             (pkg, (splitext (os_path_join root_ name)).1, os_path_join root_ name) ∈ r.1
         end).
Proof.
  induction files as [|name more IH]; intros fm fd r.
  - subst r. cbn. split; [exists []; by rewrite app_nil_r|].
    split; [exists []; split; [by rewrite app_nil_r|set_solver]|].
    intros name Hn. by apply elem_of_nil in Hn.
  - subst r. cbn [files_loop]. unfold str_in, _clean_orphan_file.
    set (l_name := os_path_join root_ name).
    case_bool_decide as Hext.
    + destruct (dbMatch_basenames X (splitext l_name).1) as [|pkg others] eqn:Db.
      * rewrite (recognized_ext_nonempty l_name Hext).
        destruct (IH fm (fd ++ [l_name])) as ((fm1 & E1) & (fd1 & E2 & Hs) & Hc).
        split; [by exists fm1|]. split.
        { exists (l_name :: fd1). split.
          - rewrite E2. by rewrite <- app_assoc.
          - intros f [->|Hf]%elem_of_cons; [exact Db|by apply Hs]. }
        intros n [->|Hn]%elem_of_cons Hx; [|by apply Hc].
        fold l_name. rewrite Db, E2. apply elem_of_app. left.
        apply elem_of_app. right. by left.
      * destruct (truthy pkg) eqn:Tp.
        { destruct (IH (fm ++ [(pkg, (splitext l_name).1, l_name)]) fd)
            as ((fm1 & E1) & (fd1 & E2 & Hs) & Hc).
          split; [exists ((pkg, (splitext l_name).1, l_name) :: fm1);
                  rewrite E1; by rewrite <- app_assoc|].
          split; [by exists fd1|].
          intros n [->|Hn]%elem_of_cons Hx; [|by apply Hc].
          fold l_name. rewrite Db, E1. intros _. apply elem_of_app. left.
          apply elem_of_app. right. by left. }
        { destruct (IH fm fd) as ((fm1 & E1) & (fd1 & E2 & Hs) & Hc).
          split; [by exists fm1|]. split; [by exists fd1|].
          intros n [->|Hn]%elem_of_cons Hx; [|by apply Hc].
          fold l_name. rewrite Db, Tp. done. }
    + destruct (IH fm fd) as ((fm1 & E1) & (fd1 & E2 & Hs) & Hc).
      split; [by exists fm1|]. split; [by exists fd1|].
      intros n [->|Hn]%elem_of_cons Hx; [done|by apply Hc].
Qed.

(** One pass of the walk keeps [lists_inv]. *)
Lemma walk_body_lists (root_ : string) (id : ident) (top : bool) (st : scan_state) :
  lists_inv X t st → lists_inv X t (walk_body X t excludes root_ id top st).2.
Proof.
  intros (Hs & Hc). unfold walk_body.
  destruct (inode_loop _ _ _) as [scandirs seen].
  pose proof (files_loop_spec root_ (files_of (scandir t id))
                (files_merge st) (files_delete st))
    as ((fm1 & E1) & (fd1 & E2 & Hs1) & Hc1).
  destruct (files_loop _ _ _ _ _) as [fm fd]. cbn [fst snd] in *. subst fm fd.
  assert (Sound : ∀ f, f ∈ files_delete st ++ fd1
                       → dbMatch_basenames X (splitext f).1 = []).
  { intros f [Hf|Hf]%elem_of_app; [by apply Hs|by apply Hs1]. }
  split; [exact Sound|].
  intros r i b name Hy Hn Hx. unfold classified. cbn [files_merge files_delete yielded] in *.
  apply elem_of_app in Hy as [Hy|Hy].
  - specialize (Hc r i b name Hy Hn Hx). unfold classified in Hc.
    destruct (dbMatch_basenames X (splitext (os_path_join r name)).1) as [|pkg others] eqn:Db.
    + apply elem_of_app. by left.
    + intros Tp. split; [apply elem_of_app; left; by apply Hc|].
      intros Hd. apply Sound in Hd. congruence.
  - apply list_elem_of_singleton in Hy. injection Hy as -> -> ->.
    specialize (Hc1 name Hn Hx).
    destruct (dbMatch_basenames X (splitext (os_path_join root_ name)).1)
      as [|pkg others] eqn:Db; [done|].
    intros Tp. split; [by apply Hc1|].
    intros Hd. apply Sound in Hd. congruence.
Qed.

End Classification.

Section Scan.

Context (X : externals) (self : RpmConf) (t : tree).

Lemma scan_topdir_ok (fuel : nat) (excludes : list string) (topdir : string)
    (st : scan_state) :
  (size (candidates t) < fuel)%nat →
  walk_inv t [] st → lists_inv X t st →
  ∃ st', scan_topdir X self fuel t excludes topdir st = Some st'
         ∧ walk_inv t [] st' ∧ lists_inv X t st'.
Proof.
  intros B I L. unfold scan_topdir.
  case_bool_decide; [by exists st|].
  destruct (t_top t !! _) as [id|]; [|by exists st].
  match goal with |- context [walk X fuel t excludes [(?p, id, true)] st] =>
    set (top := p) end.
  destruct (walk_returns X t excludes fuel [(top, id, true)] st) as (st' & W & I').
  - exact I.
  - cbn [length].
    pose proof (subseteq_size (candidates t ∖ dirs_inodes st) (candidates t)) as Hsz.
    assert (candidates t ∖ dirs_inodes st ⊆ candidates t) as Hsub by set_solver.
    specialize (Hsz Hsub). lia.
  - exists st'. split; [done|]. split; [done|].
    apply (walk_keeps X t excludes (lists_inv X t)
             (fun r i b s => walk_body_lists X t excludes r i b s)
             fuel [(top, id, true)] st st' L W).
Qed.

Lemma scan_topdirs_ok (fuel : nat) (excludes tops : list string) :
  (size (candidates t) < fuel)%nat →
  ∀ st, walk_inv t [] st → lists_inv X t st →
        ∃ st', scan_topdirs X self fuel t excludes tops st = Some st'
               ∧ walk_inv t [] st' ∧ lists_inv X t st'.
Proof.
  intros B. induction tops as [|topdir more IH]; intros st I L; [by exists st|].
  cbn [scan_topdirs].
  destruct (scan_topdir_ok fuel excludes topdir st B I L) as (st1 & -> & I1 & L1).
  by apply IH.
Qed.

Lemma scan_topdirs_more_fuel (fuel more : nat) (excludes tops : list string) :
  ∀ st st', scan_topdirs X self fuel t excludes tops st = Some st' →
            scan_topdirs X self (fuel + more) t excludes tops st = Some st'.
Proof.
  induction tops as [|topdir rest IH]; intros st st' H; [done|].
  cbn [scan_topdirs] in *.
  destruct (scan_topdir X self fuel t excludes topdir st) as [st1|] eqn:E; [|done].
  assert (E' : scan_topdir X self (fuel + more) t excludes topdir st = Some st1).
  { revert E. unfold scan_topdir. case_bool_decide; [done|].
    destruct (t_top t !! _); [|done]. apply walk_more_fuel. }
  rewrite E'. by apply IH.
Qed.

Lemma scan_ok :
  ∃ st, scan X self (enough_fuel t) t = Some st
        ∧ walk_inv t [] st ∧ lists_inv X t st.
Proof.
  unfold scan. apply scan_topdirs_ok.
  - unfold enough_fuel. lia.
  - split; [constructor|]. split; [intros i Hi; by apply elem_of_nil in Hi|].
    cbn. set_solver.
  - split; [intros f Hf; by apply elem_of_nil in Hf|].
    intros r i b name Hy. by apply elem_of_nil in Hy.
Qed.

Lemma entered_lookup (l : list (string * ident * bool)) :
  NoDup (entered l) →
  ∀ j1 j2 y1 y2,
    j1 ≠ j2 → l !! j1 = Some y1 → l !! j2 = Some y2 → y1.1.2 = y2.1.2 →
    y1.2 = true ∨ y2.2 = true.
Proof.
  assert (In : ∀ (l : list (string * ident * bool)) j y,
            l !! j = Some y → y.2 = false → y.1.2 ∈ entered l).
  { intros l0 j y Hj Hy. unfold entered. apply list_elem_of_omap.
    exists y. split; [by eapply list_elem_of_lookup_2|]. by rewrite Hy. }
  induction l as [|[[p i] b] l IH]; intros N j1 j2 y1 y2 Ne H1 H2 E; [done|].
  assert (Nl : NoDup (entered l)).
  { unfold entered in *. cbn [omap list_omap] in N. cbn in N.
    destruct b; [done|]. by apply NoDup_cons in N as [_ N]. }
  assert (Hd : ∀ j y, b = false → l !! j = Some y → y.1.2 = i → y.2 = true).
  { intros j y -> Hj <-. destruct (y.2) eqn:Hy; [done|]. exfalso.
    unfold entered in N. cbn in N. apply NoDup_cons in N as [N _].
    apply N. by apply (In l j y). }
  destruct j1 as [|j1], j2 as [|j2]; [done| | |].
  - cbn in H1, H2. injection H1 as <-. cbn in *.
    destruct b; [by left|]. right. by apply (Hd j2 y2).
  - cbn in H1, H2. injection H2 as <-. cbn in *.
    destruct b; [by right|]. left. by apply (Hd j1 y1).
  - cbn in H1, H2. apply (IH Nl j1 j2 y1 y2); [congruence|done..].
Qed.

Lemma top_listings_app (l1 l2 : list (string * ident * bool)) :
  top_listings (l1 ++ l2) = (top_listings l1 + top_listings l2)%nat.
Proof. unfold top_listings. by rewrite filter_app, length_app. Qed.

Lemma walk_top_listings (excludes : list string) (fuel : nat) :
  ∀ stack st st',
    walk X fuel t excludes stack st = Some st' →
    top_listings (yielded st') = (top_listings (yielded st) + top_listings stack)%nat.
Proof.
  induction fuel as [|fuel IH]; intros stack st st' W.
  - destruct stack as [|[[? ?] ?] ?]; [|done]. injection W as <-. cbn. lia.
  - destruct stack as [|[[root_ id] top] pending]; [injection W as <-; cbn; lia|].
    cbn [walk] in W. unfold walk_body in W.
    destruct (inode_loop _ _ _) as [scandirs seen].
    destruct (files_loop _ _ _ _ _) as [fm fd].
    apply IH in W. rewrite W. cbn [yielded].
    rewrite !top_listings_app.
    assert (Z : top_listings
                  (map (fun d => (os_path_join root_ d.1, d.2, false)) scandirs) = 0%nat).
    { clear. induction scandirs as [|d l IHl]; [done|].
      unfold top_listings in *. cbn [map]. rewrite filter_cons_False by done. exact IHl. }
    rewrite Z.
    change ((root_, id, top) :: pending) with ([(root_, id, top)] ++ pending).
    rewrite top_listings_app. lia.
Qed.

Lemma scan_topdirs_top_listings (fuel : nat) (excludes tops : list string) :
  ∀ st st', scan_topdirs X self fuel t excludes tops st = Some st' →
            (top_listings (yielded st') <= top_listings (yielded st) + length tops)%nat.
Proof.
  induction tops as [|topdir more IH]; intros st st'; cbn [scan_topdirs].
  - intros [= <-]. lia.
  - destruct (scan_topdir X self fuel t excludes topdir st) as [st1|] eqn:E; [|done].
    intros W. apply IH in W. cbn [length].
    assert (top_listings (yielded st1) <= top_listings (yielded st) + 1)%nat; [|lia].
    revert E. unfold scan_topdir.
    case_bool_decide; [intros [= <-]; lia|].
    destruct (t_top t !! _) as [id|]; [|intros [= <-]; lia].
    intros W1. apply walk_top_listings in W1. rewrite W1.
    assert (top_listings [(walked_top X self topdir, id, true)] = 1%nat) as One.
    { unfold top_listings. by rewrite filter_cons_True. }
    unfold walked_top in One. rewrite One. lia.
Qed.

(** C7. Cycle safety: on every tree of directories, cycles through
    links included, the scan returns (with [enough_fuel] passes of the
    walk loop, and any larger number changes nothing).  No identity is
    entered from a parent directory twice, and every identity so
    entered has been recorded; one pass records each directory it
    leaves to the walk, and leaves none that was recorded before.  The
    top of a walk is listed without being recorded: of two listings of
    one identity one is the top of a walk, and there are at most three
    such listings, one for each of /etc, /var and /usr. *)
Theorem walk_is_cycle_safe :
  ∃ st, scan X self (enough_fuel t) t = Some st
        ∧ (∀ more, scan X self (enough_fuel t + more) t = Some st)
        ∧ NoDup (descended st)
        ∧ (∀ i, i ∈ descended st → i ∈ dirs_inodes st)
        ∧ (∀ excludes root_ id top st0 d,
             d ∈ (walk_body X t excludes root_ id top st0).1 →
             d.2 ∈ dirs_inodes (walk_body X t excludes root_ id top st0).2
             ∧ d.2 ∉ dirs_inodes st0)
        ∧ (∀ j1 j2 y1 y2,
             j1 ≠ j2 →
             yielded st !! j1 = Some y1 → yielded st !! j2 = Some y2 →
             y1.1.2 = y2.1.2 →
             y1.2 = true ∨ y2.2 = true)
        ∧ (top_listings (yielded st) <= 3)%nat.
Proof.
  destruct scan_ok as (st & E & (Hnd & R & C) & L).
  exists st. split; [exact E|].
  split; [|split; [exact Hnd|split; [exact R|split; [|split]]]].
  - intros more. unfold scan in *. by apply scan_topdirs_more_fuel.
  - intros excludes root_ id top st0 d. unfold walk_body.
    pose proof (inode_loop_spec root_
                  (filter (fun d => os_path_join root_ d.1 ∉ excludes)
                     (dirs_of (scandir t id)))
                  (dirs_inodes st0)) as (Es & Nd & F & Hfil).
    destruct (inode_loop _ _ _) as [scandirs seen].
    destruct (files_loop _ _ _ _ _) as [fm fd]. cbn [fst snd dirs_inodes] in *.
    intros Hd. assert (d.2 ∈ scandirs.*2) as Hi by (apply list_elem_of_fmap; by exists d).
    split; [|by apply F]. rewrite Es. by apply elem_of_union_l, elem_of_list_to_set.
  - apply entered_lookup. rewrite app_nil_l in Hnd. exact Hnd.
  - unfold scan in E. apply scan_topdirs_top_listings in E. cbn in E. exact E.
Qed.

End Scan.

(** C7, as stated, fails on the top of a walk.  /etc contains a link
    to itself: /etc is listed as the top of the walk and once more
    through the link, since the identity of a top is not recorded, and
    its files are examined under both paths. *)
Lemma top_directory_is_listed_twice :
  ∃ st, scan sample_externals interactive (enough_fuel tree_cycle) tree_cycle = Some st
        ∧ yielded st = [("/etc", (1, 1), true); ("/etc/link", (1, 1), false);
                        ("/etc/sub", (1, 2), false)]
        ∧ listed_identities st = [(1, 1); (1, 1); (1, 2)]
        ∧ descended st = [(1, 1); (1, 2)]
        ∧ "/etc/bar.conf.rpmnew" ∈ files_delete st
        ∧ "/etc/link/bar.conf.rpmnew" ∈ files_delete st.
Proof.
  eexists. split; [vm_compute; reflexivity|].
  repeat split; try reflexivity; cbn; set_solver.
Qed.

(** ** What the clean-up may remove *)

Section Frame.

Context (self : RpmConf) (p : string).

Lemma leaves_ret {A} (a : A) : leaves p (ret a).
Proof. by intros w. Qed.

Lemma leaves_say (s : string) : leaves p (say s).
Proof. by intros w. Qed.

Lemma leaves_tell (e : event) : leaves p (tell e).
Proof. by intros w. Qed.

Lemma leaves_raise {A} (e : exn) : leaves p (raise e : M A).
Proof. by intros w. Qed.

Lemma leaves_bind {A B} (m : M A) (k : A → M B) :
  leaves p m → (∀ a, leaves p (k a)) → leaves p (bind m k).
Proof.
  intros Hm Hk w. unfold bind. specialize (Hm w).
  destruct (m w) as [a w'| |]; cbn in *; [|done|done].
  by rewrite Hk.
Qed.

Lemma leaves_remove (q : string) : p ≠ q → leaves p (_remove self q).
Proof.
  intros Hne w. unfold _remove, lift_fs, os_unlink, say.
  destruct (debug self); [done|].
  destruct (w_fs w !! q) as [[]|]; cbn; try done; by apply lookup_delete_ne.
Qed.

Lemma leaves_for_each {A} (f : A → M unit) (l : list A) :
  (∀ a, a ∈ l → leaves p (f a)) → leaves p (for_each f l).
Proof.
  induction l as [|a l IH]; intros H; [apply leaves_ret|].
  cbn [for_each]. apply leaves_bind; [apply H; by left|].
  intros _. apply IH. intros b Hb. apply H. by right.
Qed.

Lemma leaves_flush_input (question : string) (ev : read_event) :
  leaves p (flush_input question ev).
Proof.
  unfold flush_input. apply leaves_bind; [apply leaves_tell|]. intros _.
  destruct ev; [apply leaves_ret|apply leaves_raise|apply leaves_raise].
Qed.

Lemma leaves_ask_delete (inp : list read_event) : leaves p (ask_delete inp).
Proof.
  induction inp as [|ev rest IH]; cbn [ask_delete];
    (apply leaves_bind; [apply leaves_flush_input|]); intros s.
  - apply leaves_ret.
  - destruct (str_in _ _); [apply leaves_ret|exact IH].
Qed.

Lemma leaves_report_and_delete (st : scan_state) (inp : list read_event) :
  p ∉ files_delete st → leaves p (report_and_delete self st inp).
Proof.
  intros Hp. unfold report_and_delete.
  apply leaves_bind.
  { case_bool_decide; [|apply leaves_ret].
    apply leaves_bind; [apply leaves_say|]. intros _.
    apply leaves_bind; [|intros _; apply leaves_say].
    apply leaves_for_each. intros m _. apply leaves_say. }
  intros _. case_bool_decide.
  - apply leaves_bind; [apply leaves_say|]. intros _.
    apply leaves_bind; [apply leaves_for_each; intros; apply leaves_say|]. intros _.
    apply leaves_bind; [apply leaves_ask_delete|]. intros a.
    apply leaves_bind; [|intros _; apply leaves_ret].
    destruct (str_in _ _); [|apply leaves_ret].
    apply leaves_for_each. intros q Hq. apply leaves_remove. by intros ->.
  - apply leaves_bind; [apply leaves_say|]. intros _. apply leaves_ret.
Qed.

End Frame.




(** The classification on the sample tree, where the package database
    knows /etc/foo.conf only under that path: the owned artifact is to
    be merged, the other one is an orphan, and both are orphans under
    the second path that leads to /etc. *)
Example scan_of_tree_cycle :
  ∃ st, scan sample_externals interactive (enough_fuel tree_cycle) tree_cycle = Some st
        ∧ files_merge st = [("pkgA", "/etc/foo.conf", "/etc/foo.conf.rpmsave")]
        ∧ files_delete st
          = ["/etc/bar.conf.rpmnew"; "/etc/link/foo.conf.rpmsave";
             "/etc/link/bar.conf.rpmnew"].
Proof. eexists. split; [vm_compute; reflexivity|]. split; reflexivity. Qed.

(** * Further properties of the engine *)

(** ** Answers at the prompt *)

Lemma upper_ascii_idempotent (c : ascii) : upper_ascii (upper_ascii c) = upper_ascii c.
Proof. destruct c as [[] [] [] [] [] [] [] []]; reflexivity. Qed.

(** A byte outside ASCII comes out of [upper_ascii] only when it was
    put in. *)
Lemma upper_ascii_high (c : ascii) :
  (123 <= nat_of_ascii (upper_ascii c))%nat → upper_ascii c = c.
Proof.
  destruct c as [[] [] [] [] [] [] [] []]; vm_compute; intros H;
    try reflexivity; exfalso; repeat (apply le_S_n in H); inversion H.
Qed.

Lemma upper_two (c d : ascii) (r : string) :
  upper (String c (String d r))
  = if dotless_i c d then String "I"%char (upper r)
    else if long_s c d then String "S"%char (upper r)
    else String (upper_ascii c) (upper (String d r)).
Proof. reflexivity. Qed.

Lemma upper_plain (c : ascii) (t : string) :
  (∀ d r, t = String d r → dotless_i c d = false ∧ long_s c d = false) →
  upper (String c t) = String (upper_ascii c) (upper t).
Proof.
  intros H. destruct t as [|d r]; [reflexivity|].
  destruct (H d r eq_refl) as [H1 H2]. cbn [upper]. by rewrite H1, H2.
Qed.

(** The second byte of one of the two letters is at the head of the
    upper-case form only when it is at the head of the text. *)
Lemma upper_head (s t : string) (h : ascii) :
  upper s = String h t →
  h = ascii_of_nat 177 ∨ h = ascii_of_nat 191 →
  ∃ r, s = String h r.
Proof.
  destruct s as [|c [|d r']]; [done| |].
  - cbn [upper]. intros [= <- _] H. exists EmptyString. f_equal. symmetry.
    apply upper_ascii_high. destruct H as [-> | ->]; vm_compute; lia.
  - rewrite upper_two.
    destruct (dotless_i c d); [intros [= <- _] [H|H]; discriminate H|].
    destruct (long_s c d); [intros [= <- _] [H|H]; discriminate H|].
    intros [= <- _] H. exists (String d r'). f_equal. symmetry.
    apply upper_ascii_high. destruct H as [-> | ->]; vm_compute; lia.
Qed.

Lemma upper_idempotent (s : string) : upper (upper s) = upper s.
Proof.
  assert (G : ∀ n u, (String.length u <= n)%nat → upper (upper u) = upper u).
  { induction n as [|n IH]; intros u L.
    - destruct u; [reflexivity|cbn in L; lia].
    - destruct u as [|c [|d r']]; [reflexivity| |].
      + cbn [upper]. by rewrite upper_ascii_idempotent.
      + cbn [String.length] in L. rewrite (upper_two c d r').
        destruct (dotless_i c d) eqn:Di.
        { rewrite upper_plain by (intros ? ? _; by vm_compute).
          rewrite IH by lia. reflexivity. }
        destruct (long_s c d) eqn:Ls.
        { rewrite upper_plain by (intros ? ? _; by vm_compute).
          rewrite IH by lia. reflexivity. }
        rewrite upper_plain.
        * rewrite upper_ascii_idempotent, IH by (cbn [String.length]; lia).
          reflexivity.
        * intros h t E.
          assert (Hc : ∀ x, upper_ascii c = ascii_of_nat x → (123 <= x < 256)%nat →
                            c = ascii_of_nat x).
          { intros x Ex Hx. rewrite <- Ex. symmetry. apply upper_ascii_high.
            rewrite Ex, nat_ascii_embedding by lia. lia. }
          unfold dotless_i, long_s in *. split; apply andb_false_iff.
          -- destruct (decide (upper_ascii c = ascii_of_nat 196)) as [E1|];
               [|left; by apply bool_decide_eq_false_2].
             destruct (decide (h = ascii_of_nat 177)) as [E2|];
               [|right; by apply bool_decide_eq_false_2].
             exfalso. destruct (upper_head _ _ _ E (or_introl E2)) as [r [= -> _]].
             apply Hc in E1; [|lia]. subst c h.
             by vm_compute in Di.
          -- destruct (decide (upper_ascii c = ascii_of_nat 197)) as [E1|];
               [|left; by apply bool_decide_eq_false_2].
             destruct (decide (h = ascii_of_nat 191)) as [E2|];
               [|right; by apply bool_decide_eq_false_2].
             exfalso. destruct (upper_head _ _ _ E (or_intror E2)) as [r [= -> _]].
             apply Hc in E1; [|lia]. subst c h.
             by vm_compute in Ls. }
  by apply (G (String.length s)).
Qed.

Lemma show_diff_out (X : externals) (file1 file2 : string) (w w' : world) :
  show_diff X file1 file2 w = Ok tt w' → ∃ evs, w' = add_out evs w.
Proof.
  unfold show_diff.
  destruct (diff_side X (w_fs w) file1) as [[msg1 f1] fromdate].
  destruct (diff_side X (w_fs w) file2) as [[msg2 f2] todate].
  destruct (readlines X (w_fs w) f1) as [[]|fromlines]; try done;
    try (intros [= <-]; by eexists).
  destruct (readlines X (w_fs w) f2) as [[]|tolines]; try done;
    intros [= <-]; by eexists.
Qed.

Section Answers.

Context (X : externals) (self : RpmConf).

(** A handler at its prompt, for either kind. *)
Lemma resolve_prompt (k : kind) (conf other : string) (inp : list read_event) (w : world) :
  reaches_prompt self conf other w →
  resolve X self k conf other inp w
  = match interact X self (prompt_of k) (match k with NEW => "N" | _ => "Y" end)
            (diff_order k conf other).1 (diff_order k conf other).2 conf other inp w with
    | Ok (Returned, rest) w' => Ok rest w'
    | Ok (Chose opt, rest) w' =>
        ((match answer_action k opt with
          | Some a => perform self a conf other
          | None => ret tt
          end) ;;; ret rest) w'
    | SysExit c w' => SysExit c w'
    | Raised e w' => Raised e w'
    end.
Proof.
  intros R. destruct k; cbn [resolve prompt_of diff_order fst snd];
    rewrite ?_handle_rpmnew_prompt, ?_handle_rpmsave_prompt by done;
    destruct (interact _ _ _ _ _ _ _ _ _ _) as [[[|opt] rest] w'| |]; try reflexivity;
    unfold answer_action, bind, ret, perform;
    destruct (str_in opt ["Y"; "I"]) eqn:YI, (str_in opt ["N"; "O"]) eqn:NO;
    try reflexivity.
  all: exfalso; apply bool_decide_eq_true in YI, NO; set_solver.
Qed.

(** X3. The answer is read without regard to case: at the prompt, a line
    and its upper-case form have the same effect. *)
Theorem answers_are_case_insensitive (k : kind) (conf other s : string)
    (rest : list read_event) (w : world) :
  reaches_prompt self conf other w →
  resolve X self k conf other (Line s :: rest) w
  = resolve X self k conf other (Line (upper s) :: rest) w.
Proof.
  intros R. pose proof R as (_ & _ & A).
  rewrite !resolve_prompt by done. rewrite !interact_step by done.
  by rewrite upper_idempotent.
Qed.

(** X4. The terminal answers: Y and I are one answer, N and O another; for
    NEW the first installs the shipped file over the installed one and
    the second removes the shipped file, for BACKUP and ORIG the first
    removes the backup and the second puts it back; S does neither.
    One question is asked and the handler returns. *)
Theorem terminal_answers (k : kind) (conf other s : string)
    (rest : list read_event) (w : world) :
  reaches_prompt self conf other w →
  upper s ∈ terminal_options →
  resolve X self k conf other (Line s :: rest) w
  = ((match answer_action k (upper s) with
      | Some a => perform self a conf other
      | None => ret tt
      end) ;;; ret rest)
      (add_out (shown self (w_fs w) (prompt_of k) conf other) w).
Proof.
  intros R T. pose proof R as (_ & _ & A).
  assert (Tr : truthy (upper s) = true).
  { unfold truthy. rewrite bool_decide_eq_false_2; [done|].
    intros E. rewrite E in T. unfold terminal_options in T. set_solver. }
  rewrite resolve_prompt by done. rewrite interact_step by done.
  rewrite after_read_plain; [|done|].
  - rewrite Tr. unfold str_in. rewrite (bool_decide_eq_true_2 _ T). reflexivity.
  - rewrite Tr. unfold terminal_options in T.
    repeat (apply elem_of_cons in T as [T|T]); [..|by apply elem_of_nil in T];
      rewrite T; intros M; apply (bool_decide_pack _) in M; by vm_compute in M.
Qed.

(** X5. The answer D shows the differences and asks again: from the
    installed file to the shipped one for NEW, from the backup to the
    installed file for BACKUP and ORIG.  No file is touched. *)
Theorem diff_answer_asks_again (k : kind) (conf other s : string)
    (rest : list read_event) (w w'' : world) :
  reaches_prompt self conf other w →
  upper s = "D" →
  show_diff X (diff_order k conf other).1 (diff_order k conf other).2
    (add_out (shown self (w_fs w) (prompt_of k) conf other) w) = Ok tt w'' →
  resolve X self k conf other (Line s :: rest) w
  = resolve X self k conf other rest w''
  ∧ w_fs w'' = w_fs w.
Proof.
  intros R U Sd. pose proof R as (_ & _ & A).
  destruct (show_diff_out _ _ _ _ _ Sd) as [evs ->].
  rewrite add_out_add_out in *.
  pose proof (reaches_prompt_add_out self conf other
                (shown self (w_fs w) (prompt_of k) conf other ++ evs) w R) as R'.
  split; [|reflexivity].
  rewrite !resolve_prompt by done. rewrite interact_step by done. rewrite U.
  unfold after_read at 1. cbn [w_fs add_out]. rewrite A. cbn [negb].
  unfold bind at 1 2 3.
  rewrite (bool_decide_eq_true_2 ("D" = "D")) by done.
  rewrite <- add_out_add_out in Sd |- *. rewrite Sd.
  rewrite !(bool_decide_eq_false_2 ("D" = _)) by done.
  reflexivity.
Qed.

(** X6. The answer Z prints how to come back, stops the process, and asks
    again once it runs on.  No file is touched. *)
Theorem background_answer_asks_again (k : kind) (conf other s : string)
    (rest : list read_event) (w : world) :
  reaches_prompt self conf other w →
  upper s = "Z" →
  resolve X self k conf other (Line s :: rest) w
  = resolve X self k conf other rest
      (add_out (shown self (w_fs w) (prompt_of k) conf other ++
                [Print "Run command 'fg' to continue"; Sigstop]) w).
Proof.
  intros R U. pose proof R as (_ & _ & A).
  pose proof (reaches_prompt_add_out self conf other
                (shown self (w_fs w) (prompt_of k) conf other ++
                 [Print "Run command 'fg' to continue"; Sigstop]) w R) as R'.
  rewrite !resolve_prompt by done. rewrite interact_step by done. rewrite U.
  unfold after_read at 1. cbn [w_fs add_out]. rewrite A. cbn [negb].
  unfold bind at 1 2 3.
  rewrite (bool_decide_eq_true_2 ("Z" = "Z")) by done.
  rewrite !(bool_decide_eq_false_2 ("Z" = _)) by done.
  unfold bind, say, tell, ret, print.
  rewrite !emit_as_add_out, !add_out_add_out.
  change (truthy "Z") with true. cbn iota. decide_strings. reflexivity.
Qed.

(** X7. The answer M starts the merge.  When the artifact is gone
    afterwards the handler reports the merge and returns without any
    operation of its own; when the merge ends the process, so does the
    handler. *)
Theorem merge_answer (k : kind) (conf other s : string)
    (rest : list read_event) (w : world) :
  reaches_prompt self conf other w →
  upper s = "M" →
  let w' := add_out (shown self (w_fs w) (prompt_of k) conf other) w in
  (∀ w'', _merge_conf_files X self conf other w' = Ok tt w'' →
          os_access_F_OK (w_fs w'') other = false →
          resolve X self k conf other (Line s :: rest) w
          = Ok rest (add_out [Print (merged_msg other)] w''))
  ∧ (∀ c w'', _merge_conf_files X self conf other w' = SysExit c w'' →
              resolve X self k conf other (Line s :: rest) w = SysExit c w'').
Proof.
  intros R U w'. pose proof R as (_ & _ & A).
  assert (E : resolve X self k conf other (Line s :: rest) w
              = match
                  match _merge_conf_files X self conf other w' with
                  | Ok _ w'' =>
                      if negb (os_access_F_OK (w_fs w'') other)
                      then Ok Returned (print (merged_msg other) w'')
                      else Ok (Chose "M") w''
                  | SysExit c w'' => SysExit c w''
                  | Raised e w'' => Raised e w''
                  end
                with
                | Ok Returned w'' => Ok rest w''
                | Ok (Chose opt) w'' =>
                    match
                      (if str_in opt terminal_options then Ok (Chose opt, rest) w''
                       else interact X self (prompt_of k)
                              (match k with NEW => "N" | _ => "Y" end)
                              (diff_order k conf other).1 (diff_order k conf other).2
                              conf other rest w'')
                    with
                    | Ok (Returned, rest') w3 => Ok rest' w3
                    | Ok (Chose opt', rest') w3 =>
                        ((match answer_action k opt' with
                          | Some a => perform self a conf other
                          | None => ret tt
                          end) ;;; ret rest') w3
                    | SysExit c w3 => SysExit c w3
                    | Raised e w3 => Raised e w3
                    end
                | SysExit c w'' => SysExit c w''
                | Raised e w'' => Raised e w''
                end).
  { rewrite resolve_prompt by done. rewrite interact_step by done. rewrite U.
    fold w'. unfold after_read at 1.
    replace (os_access_F_OK (w_fs w') other) with true by (symmetry; exact A).
    cbn [negb]. unfold bind at 1 2 3.
    rewrite !(bool_decide_eq_false_2 ("M" = _)) by done.
    rewrite (bool_decide_eq_true_2 ("M" = "M")) by done.
    unfold ret at 1 2. unfold bind at 1.
    destruct (_merge_conf_files X self conf other w') as [[] w''|c w''|e w''];
      try reflexivity.
    destruct (negb (os_access_F_OK (w_fs w'') other)); reflexivity. }
  split.
  - intros w'' M G. rewrite E, M, G. reflexivity.
  - intros c w'' M. rewrite E, M. reflexivity.
Qed.

End Answers.

Lemma answers_are_case_insensitive_witness :
  reaches_prompt interactive "/etc/x.conf" "/etc/x.conf.rpmnew" (world0 fs_differ)
  ∧ resolve sample_externals interactive NEW "/etc/x.conf" "/etc/x.conf.rpmnew"
      [Line "y"] (world0 fs_differ)
    = resolve sample_externals interactive NEW "/etc/x.conf" "/etc/x.conf.rpmnew"
        [Line (upper "y")] (world0 fs_differ).
Proof.
  assert (R : reaches_prompt interactive "/etc/x.conf" "/etc/x.conf.rpmnew"
                (world0 fs_differ)).
  { split; [|split]; [|reflexivity|reflexivity].
    unfold interactive; cbn. set_solver. }
  split; [exact R|].
  exact (answers_are_case_insensitive sample_externals interactive NEW
           "/etc/x.conf" "/etc/x.conf.rpmnew" "y" [] (world0 fs_differ) R).
Defined.

Lemma terminal_answers_witness :
  reaches_prompt interactive "/etc/x.conf" "/etc/x.conf.rpmsave" (world0 fs_differ)
  ∧ upper "o" ∈ terminal_options
  ∧ resolve sample_externals interactive BACKUP "/etc/x.conf" "/etc/x.conf.rpmsave"
      [Line "o"] (world0 fs_differ)
    = ((match answer_action BACKUP (upper "o") with
        | Some a => perform interactive a "/etc/x.conf" "/etc/x.conf.rpmsave"
        | None => ret tt
        end) ;;; ret [])
        (add_out (shown interactive fs_differ prompt_rpmsave
                    "/etc/x.conf" "/etc/x.conf.rpmsave") (world0 fs_differ)).
Proof.
  assert (R : reaches_prompt interactive "/etc/x.conf" "/etc/x.conf.rpmsave"
                (world0 fs_differ)).
  { split; [|split]; [|reflexivity|reflexivity].
    unfold interactive; cbn. set_solver. }
  assert (T : upper "o" ∈ terminal_options).
  { apply (bool_decide_unpack (upper "o" ∈ terminal_options)). vm_compute. exact I. }
  split; [exact R|]. split; [exact T|].
  exact (terminal_answers sample_externals interactive BACKUP
           "/etc/x.conf" "/etc/x.conf.rpmsave" "o" [] (world0 fs_differ) R T).
Defined.

Lemma diff_answer_asks_again_witness :
  reaches_prompt interactive "/etc/x.conf" "/etc/x.conf.rpmsave" (world0 fs_differ)
  ∧ upper "d" = "D"
  ∧ show_diff sample_externals "/etc/x.conf.rpmsave" "/etc/x.conf"
      (add_out (shown interactive fs_differ prompt_rpmsave
                  "/etc/x.conf" "/etc/x.conf.rpmsave") (world0 fs_differ))
    = Ok tt (add_out (shown interactive fs_differ prompt_rpmsave
                        "/etc/x.conf" "/etc/x.conf.rpmsave" ++ [Pager "@@"])
               (world0 fs_differ))
  ∧ resolve sample_externals interactive BACKUP "/etc/x.conf" "/etc/x.conf.rpmsave"
      [Line "d"; Line "s"] (world0 fs_differ)
    = resolve sample_externals interactive BACKUP "/etc/x.conf" "/etc/x.conf.rpmsave"
        [Line "s"]
        (add_out (shown interactive fs_differ prompt_rpmsave
                    "/etc/x.conf" "/etc/x.conf.rpmsave" ++ [Pager "@@"])
           (world0 fs_differ)).
Proof.
  assert (R : reaches_prompt interactive "/etc/x.conf" "/etc/x.conf.rpmsave"
                (world0 fs_differ)).
  { split; [|split]; [|reflexivity|reflexivity].
    unfold interactive; cbn. set_solver. }
  assert (Sd : show_diff sample_externals
                 (diff_order BACKUP "/etc/x.conf" "/etc/x.conf.rpmsave").1
                 (diff_order BACKUP "/etc/x.conf" "/etc/x.conf.rpmsave").2
                 (add_out (shown interactive (w_fs (world0 fs_differ))
                             (prompt_of BACKUP) "/etc/x.conf" "/etc/x.conf.rpmsave")
                    (world0 fs_differ))
               = Ok tt (add_out (shown interactive fs_differ prompt_rpmsave
                                   "/etc/x.conf" "/etc/x.conf.rpmsave" ++ [Pager "@@"])
                          (world0 fs_differ))).
  { vm_compute. reflexivity. }
  split; [exact R|]. split; [reflexivity|]. split; [exact Sd|].
  exact (proj1 (diff_answer_asks_again sample_externals interactive BACKUP
                  "/etc/x.conf" "/etc/x.conf.rpmsave" "d" [Line "s"]
                  (world0 fs_differ) _ R eq_refl Sd)).
Defined.

Lemma background_answer_asks_again_witness :
  reaches_prompt interactive "/etc/x.conf" "/etc/x.conf.rpmnew" (world0 fs_differ)
  ∧ upper "z" = "Z"
  ∧ resolve sample_externals interactive NEW "/etc/x.conf" "/etc/x.conf.rpmnew"
      [Line "z"] (world0 fs_differ)
    = resolve sample_externals interactive NEW "/etc/x.conf" "/etc/x.conf.rpmnew"
        []
        (add_out (shown interactive fs_differ prompt_rpmnew
                    "/etc/x.conf" "/etc/x.conf.rpmnew" ++
                  [Print "Run command 'fg' to continue"; Sigstop])
           (world0 fs_differ)).
Proof.
  assert (R : reaches_prompt interactive "/etc/x.conf" "/etc/x.conf.rpmnew"
                (world0 fs_differ)).
  { split; [|split]; [|reflexivity|reflexivity].
    unfold interactive; cbn. set_solver. }
  split; [exact R|]. split; [reflexivity|].
  exact (background_answer_asks_again sample_externals interactive NEW
           "/etc/x.conf" "/etc/x.conf.rpmnew" "z" [] (world0 fs_differ) R eq_refl).
Defined.

Lemma merge_answer_witness :
  reaches_prompt (with_frontend "meld") "/etc/x.conf" "/etc/x.conf.rpmnew"
    (world0 fs_differ)
  ∧ upper "m" = "M"
  ∧ os_access_F_OK (delete "/etc/x.conf.rpmnew" fs_differ) "/etc/x.conf.rpmnew" = false
  ∧ resolve merging_externals (with_frontend "meld") NEW
      "/etc/x.conf" "/etc/x.conf.rpmnew" [Line "m"] (world0 fs_differ)
    = Ok [] (add_out [Print (merged_msg "/etc/x.conf.rpmnew")]
               (set_fs (delete "/etc/x.conf.rpmnew" fs_differ)
                  (add_out (shown (with_frontend "meld") fs_differ prompt_rpmnew
                              "/etc/x.conf" "/etc/x.conf.rpmnew" ++
                            [CheckCall ["/usr/bin/meld"; "/etc/x.conf";
                                        "/etc/x.conf.rpmnew"]])
                     (world0 fs_differ)))).
Proof.
  assert (R : reaches_prompt (with_frontend "meld") "/etc/x.conf" "/etc/x.conf.rpmnew"
                (world0 fs_differ)).
  { split; [|split]; [|reflexivity|reflexivity].
    unfold with_frontend; cbn. set_solver. }
  split; [exact R|]. split; [reflexivity|]. split; [reflexivity|].
  refine (proj1 (merge_answer merging_externals (with_frontend "meld") NEW
                   "/etc/x.conf" "/etc/x.conf.rpmnew" "m" [] (world0 fs_differ)
                   R eq_refl) _ _ _).
  - vm_compute. reflexivity.
  - reflexivity.
Defined.

(** ** Copying and overwriting *)

Lemma follow_write_target (fs : filesystem) (fuel : nat) :
  ∀ p q n, follow fuel fs p = Some (q, n) →
           write_target fuel fs p = Some q ∧ fs !! q = Some n.
Proof.
  induction fuel as [|fuel IH]; intros p q n; cbn [follow write_target];
    destruct (fs !! p) as [[c m|t|m|m]|] eqn:E; try done;
    try (intros [= <- <-]; by split).
  apply IH.
Qed.

(** Copying a regular file: its content and modification time arrive
    where a write through the destination lands. *)
Lemma _copy_fs_written (fs : filesystem) (src dst pd c : string) (m : Z) :
  fs !! src = Some (Reg c m) →
  write_target MAXSYMLINKS fs dst = Some pd →
  pd ≠ src →
  (∀ m', fs !! pd ≠ Some (Dir m')) →
  _copy_fs src dst fs = inr (<[pd := written fs pd c m]> fs).
Proof.
  intros Hs Hw Hne Hd. unfold _copy_fs, os_path_islink. rewrite Hs.
  assert (C : copyfile src dst fs = inr (<[pd := written fs pd c m]> fs)).
  { unfold copyfile, os_stat. rewrite (follow_not_a_link fs src (Reg c m)) by done.
    rewrite Hw. rewrite bool_decide_eq_false_2 by done. cbn [content_of node_mtime].
    destruct (fs !! pd) as [[]|] eqn:E; try reflexivity. by destruct (Hd mtime). }
  unfold shutil_copy2, os_stat.
  destruct (follow MAXSYMLINKS fs dst) as [[q n]|] eqn:F; [|exact C].
  destruct (follow_write_target fs MAXSYMLINKS dst q n F) as [W L].
  rewrite Hw in W. injection W as <-.
  destruct n; try exact C. by destruct (Hd mtime).
Qed.

Lemma _copy_fs_regular (fs : filesystem) (src dst pd c : string) (m : Z) :
  fs !! src = Some (Reg c m) →
  write_target MAXSYMLINKS fs dst = Some pd →
  pd ≠ src →
  (∀ m', fs !! pd ≠ Some (Dir m')) →
  (∀ m', fs !! pd ≠ Some (Special m')) →
  _copy_fs src dst fs = inr (<[pd := Reg c m]> fs).
Proof.
  intros Hs Hw Hne Hd Hsp. rewrite (_copy_fs_written fs src dst pd c m) by done.
  unfold written. destruct (fs !! pd) as [[]|]; try reflexivity. by destruct (Hsp mtime).
Qed.

(** X8. A link is copied as a link: the destination becomes a link with
    the same target, whatever file or link was there before, and no
    other path changes. *)
Theorem _copy_recreates_link (fs : filesystem) (src dst target : string) :
  fs !! src = Some (Lnk target) →
  (∀ m, fs !! dst ≠ Some (Dir m)) →
  _copy_fs src dst fs = inr (<[dst := Lnk target]> fs).
Proof.
  intros Hs Hd. unfold _copy_fs, os_path_islink, os_readlink, os_symlink. rewrite Hs.
  destruct (fs !! dst) as [n|] eqn:E; [|reflexivity].
  unfold os_unlink. rewrite E.
  destruct n; try (by destruct (Hd mtime));
    rewrite lookup_delete_eq; by rewrite insert_delete_eq.
Qed.

Lemma _copy_recreates_link_witness :
  fs_link_artifact !! "/etc/x.conf.rpmnew" = Some (Lnk "/usr/share/x.conf")
  ∧ (∀ m, fs_link_artifact !! "/etc/x.conf" ≠ Some (Dir m))
  ∧ _copy_fs "/etc/x.conf.rpmnew" "/etc/x.conf" fs_link_artifact
    = inr (<["/etc/x.conf" := Lnk "/usr/share/x.conf"]> fs_link_artifact).
Proof.
  split; [reflexivity|]. split; [intros m; discriminate|].
  exact (_copy_recreates_link fs_link_artifact "/etc/x.conf.rpmnew" "/etc/x.conf"
           "/usr/share/x.conf" eq_refl (fun m => ltac:(discriminate))).
Defined.

(** X9. Outside dry-run mode, overwriting with a regular file: the
    write goes where a write through the destination lands (the
    destination itself, or the end of its chain of links, which stays
    a link).  What is there afterwards is a regular file with the
    content and the modification time of the source, unless it was a
    device: a device swallows the content and stays a device, with the
    modification time of the source.  The source is removed, and
    nothing else changes or is printed. *)
Theorem _overwrite_installs_and_removes (self : RpmConf) (src dst pd c : string)
    (m : Z) (w : world) :
  debug self = false →
  w_fs w !! src = Some (Reg c m) →
  write_target MAXSYMLINKS (w_fs w) dst = Some pd →
  pd ≠ src →
  (∀ m', w_fs w !! pd ≠ Some (Dir m')) →
  _overwrite self src dst w
  = Ok tt (set_fs (delete src
                     (<[pd := match w_fs w !! pd with
                              | Some (Special _) => Special m
                              | _ => Reg c m
                              end]> (w_fs w))) w).
Proof.
  intros D Hs Hw Hne Hd. unfold _overwrite, _copy, bind, lift_fs. rewrite D.
  rewrite (_copy_fs_written (w_fs w) src dst pd c m) by done.
  rewrite _remove_real; [reflexivity|done|].
  unfold is_file. cbn [w_fs set_fs]. rewrite lookup_insert_ne by done. by rewrite Hs.
Qed.

Lemma _overwrite_installs_and_removes_witness :
  debug interactive = false
  ∧ fs_link !! "/etc/x.conf.rpmnew" = Some (Reg "A" 7)
  ∧ write_target MAXSYMLINKS fs_link "/etc/x.conf" = Some "/etc/alternatives/x.conf"
  ∧ _overwrite interactive "/etc/x.conf.rpmnew" "/etc/x.conf" (world0 fs_link)
    = Ok tt (world0 (delete "/etc/x.conf.rpmnew"
                       (<["/etc/alternatives/x.conf" := Reg "A" 7]> fs_link))).
Proof.
  split; [reflexivity|]. split; [reflexivity|]. split; [reflexivity|].
  exact (_overwrite_installs_and_removes interactive "/etc/x.conf.rpmnew" "/etc/x.conf"
           "/etc/alternatives/x.conf" "A" 7 (world0 fs_link)
           eq_refl eq_refl eq_refl ltac:(discriminate) (fun m => ltac:(discriminate))).
Defined.

(** Through a link to the null device the content is lost: the device
    stays, with the modification time of the source, and the source is
    removed. *)
Example overwrite_through_a_link_to_the_null_device :
  write_target MAXSYMLINKS fs_null "/etc/x.conf" = Some "/dev/null"
  ∧ _overwrite interactive "/etc/x.conf.rpmnew" "/etc/x.conf" (world0 fs_null)
    = Ok tt (world0 (delete "/etc/x.conf.rpmnew"
                       (<["/dev/null" := Special 7]> fs_null))).
Proof. split; vm_compute; reflexivity. Qed.

(** ** The opening comparison *)

(** X1. Two regular files with the same content, neither a link: every
    handler, under every policy, removes the artifact and returns; it
    prints nothing, reads nothing and leaves every other path as it
    was. *)
Theorem identical_regular_files_are_settled (X : externals) (self : RpmConf) (k : kind)
    (conf other content : string) (m1 m2 : Z) (inp : list read_event) (w : world) :
  debug self = false →
  w_fs w !! conf = Some (Reg content m1) →
  w_fs w !! other = Some (Reg content m2) →
  resolve X self k conf other inp w = Ok inp (set_fs (delete other (w_fs w)) w).
Proof.
  intros D C O. rewrite (same_regular_files X self k conf other content m1 m2) by done.
  unfold bind. rewrite _remove_real; [reflexivity|done|].
  unfold is_file. by rewrite O.
Qed.

Lemma identical_regular_files_are_settled_witness :
  debug (with_policy "use_maintainer") = false
  ∧ fs_same !! "/etc/x.conf" = Some (Reg "A" 5)
  ∧ fs_same !! "/etc/x.conf.rpmnew" = Some (Reg "A" 7)
  ∧ resolve sample_externals (with_policy "use_maintainer") NEW
      "/etc/x.conf" "/etc/x.conf.rpmnew" [Line "y"] (world0 fs_same)
    = Ok [Line "y"] (world0 (delete "/etc/x.conf.rpmnew" fs_same)).
Proof.
  split; [reflexivity|]. split; [reflexivity|]. split; [reflexivity|].
  exact (identical_regular_files_are_settled sample_externals
           (with_policy "use_maintainer") NEW "/etc/x.conf" "/etc/x.conf.rpmnew"
           "A" 5 7 [Line "y"] (world0 fs_same) eq_refl eq_refl eq_refl).
Defined.

(** X2. The comparison is [filecmp.cmp] with its default arguments: two
    regular files of the same size and the same modification time are
    taken for equal whatever they contain, and the artifact is
    removed as for equal files. *)
Theorem equal_size_and_time_pass_for_equal (X : externals) (self : RpmConf) (k : kind)
    (conf other c1 c2 : string) (m : Z) (inp : list read_event) (w : world) :
  w_fs w !! conf = Some (Reg c1 m) →
  w_fs w !! other = Some (Reg c2 m) →
  String.length c1 = String.length c2 →
  same_files conf other w = Ok true w
  ∧ resolve X self k conf other inp w = (_remove self other ;;; ret inp) w.
Proof.
  intros C O L.
  assert (S : same_files conf other w = Ok true w).
  { unfold same_files, is_broken_symlink, os_path_islink, os_path_exists,
      filecmp_cmp, os_stat. cbn [MAXSYMLINKS follow]. rewrite C, O. cbn.
    rewrite !bool_decide_eq_true_2 by done. reflexivity. }
  split; [exact S|].
  destruct k; cbn [resolve]; unfold _handle_rpmnew, _handle_rpmsave, bind at 1;
    rewrite S; reflexivity.
Qed.

Lemma equal_size_and_time_pass_for_equal_witness :
  fs_same_signature !! "/etc/x.conf" = Some (Reg "A" 5)
  ∧ fs_same_signature !! "/etc/x.conf.rpmnew" = Some (Reg "B" 5)
  ∧ String.length "A" = String.length "B"
  ∧ same_files "/etc/x.conf" "/etc/x.conf.rpmnew" (world0 fs_same_signature)
    = Ok true (world0 fs_same_signature).
Proof.
  split; [reflexivity|]. split; [reflexivity|]. split; [reflexivity|].
  exact (proj1 (equal_size_and_time_pass_for_equal sample_externals interactive NEW
                  "/etc/x.conf" "/etc/x.conf.rpmnew" "A" "B" 5 []
                  (world0 fs_same_signature) eq_refl eq_refl eq_refl)).
Defined.

(** ** The merge frontends *)

(** X10. Without a command line to start, the merge ends the process with
    status 2: the frontend is none of the six known names (a misspelt
    name included, MERGE set or not), or it is env or unset and MERGE
    is not in the environment. *)
Theorem merge_without_frontend (X : externals) (self : RpmConf)
    (conf other : string) (w : world) :
  merge_argv X self w conf other = None →
  _merge_conf_files X self conf other w
  = SysExit 2 (add_out [LoggerError no_frontend_message] w).
Proof.
  revert w. intros w.
  unfold merge_argv, _merge_conf_files, try_except, merge_branches. cbn beta.
  repeat (match goal with
          | |- context [bool_decide ?P] => destruct (bool_decide P) eqn:?
          end; cbn [andb orb]);
    intros Hargv; simplify_eq; reflexivity.
Qed.

Lemma merge_without_frontend_witness :
  merge_argv sample_externals (with_frontend "emacs")
    (mkWorld fs_differ [] (Some "/usr/bin/vimdiff")) "/etc/x.conf" "/etc/x.conf.rpmnew"
  = None
  ∧ _merge_conf_files sample_externals (with_frontend "emacs")
      "/etc/x.conf" "/etc/x.conf.rpmnew" (mkWorld fs_differ [] (Some "/usr/bin/vimdiff"))
    = SysExit 2 (add_out [LoggerError no_frontend_message]
                   (mkWorld fs_differ [] (Some "/usr/bin/vimdiff"))).
Proof.
  split; [reflexivity|].
  exact (merge_without_frontend sample_externals (with_frontend "emacs")
           "/etc/x.conf" "/etc/x.conf.rpmnew"
           (mkWorld fs_differ [] (Some "/usr/bin/vimdiff")) eq_refl).
Defined.

Lemma check_call_exited (X : externals) (argv : list string) (rc : Z)
    (fs' : filesystem) (w : world) :
  subprocess X argv (w_fs w) = Exited rc fs' →
  check_call X argv w
  = if bool_decide (rc = 0) then Ok tt (set_fs fs' (emit (CheckCall argv) w))
    else Raised (CalledProcessError rc) (set_fs fs' (emit (CheckCall argv) w)).
Proof. intros E. unfold check_call. by rewrite E. Qed.

(** X11. What a failing tool leads to depends on the frontend: the exit
    status of vimdiff, gvimdiff and meld is not examined, so a status
    other than 0 leaves [_merge_conf_files] as CalledProcessError;
    diffuse's is caught and reported as a merge that did not happen.
    Either way the files are as the tool left them. *)
Theorem failing_merge_tool (X : externals) (self : RpmConf)
    (conf other fe : string) (rc : Z) (fs' : filesystem) (w : world) :
  frontend self = Some fe →
  rc ≠ 0 →
  subprocess X ["/usr/bin/" +:+ fe; conf; other] (w_fs w) = Exited rc fs' →
  let w' := set_fs fs' (add_out [CheckCall ["/usr/bin/" +:+ fe; conf; other]] w) in
  (fe ∈ ["vimdiff"; "gvimdiff"; "meld"] →
   _merge_conf_files X self conf other w = Raised (CalledProcessError rc) w')
  ∧ (fe = "diffuse" →
     _merge_conf_files X self conf other w
     = Ok tt (add_out [Print "Files not merged."] w')).
Proof.
  intros F Hrc Sp w'.
  assert (E : check_call X ["/usr/bin/" +:+ fe; conf; other] w
              = Raised (CalledProcessError rc) w').
  { rewrite (check_call_exited X _ rc fs') by done.
    by rewrite bool_decide_eq_false_2. }
  split.
  - intros Hfe.
    assert (T : bool_decide (Some fe ∈ [Some "vimdiff"; Some "gvimdiff"; Some "meld"])
                = true).
    { apply bool_decide_eq_true_2.
      repeat (apply elem_of_cons in Hfe as [->|Hfe]); [..|by apply elem_of_nil in Hfe];
        set_solver. }
    unfold _merge_conf_files, try_except, merge_branches. cbn beta zeta.
    rewrite F, T. cbn [default from_option]. unfold id. by rewrite E.
  - intros ->.
    unfold _merge_conf_files, try_except, merge_branches. cbn beta zeta.
    rewrite F.
    change (bool_decide (Some "diffuse" ∈ [Some "vimdiff"; Some "gvimdiff"; Some "meld"]))
      with false.
    change (bool_decide (Some "diffuse" = Some "diffuse")) with true.
    cbv iota.
    change ("/usr/bin/diffuse") with ("/usr/bin/" +:+ "diffuse").
    unfold try_except. rewrite E. reflexivity.
Qed.

Lemma failing_merge_tool_witness :
  frontend (with_frontend "vimdiff") = Some "vimdiff"
  ∧ 1 ≠ 0
  ∧ "vimdiff" ∈ ["vimdiff"; "gvimdiff"; "meld"]
  ∧ _merge_conf_files (idle_externals 1) (with_frontend "vimdiff")
      "/etc/x.conf" "/etc/x.conf.rpmnew" (world0 fs_differ)
    = Raised (CalledProcessError 1)
        (set_fs fs_differ
           (add_out [CheckCall ["/usr/bin/" +:+ "vimdiff"; "/etc/x.conf";
                                "/etc/x.conf.rpmnew"]] (world0 fs_differ))).
Proof.
  assert (M : "vimdiff" ∈ ["vimdiff"; "gvimdiff"; "meld"]) by (by left).
  split; [reflexivity|]. split; [discriminate|]. split; [exact M|].
  exact (proj1 (failing_merge_tool (idle_externals 1) (with_frontend "vimdiff")
                  "/etc/x.conf" "/etc/x.conf.rpmnew" "vimdiff" 1 fs_differ
                  (world0 fs_differ) eq_refl ltac:(discriminate) eq_refl) M).
Defined.

(** X12. kdiff3 that ends with status 0: the artifact is removed, then the
    backup [conf.orig] kdiff3 leaves beside its output.  When there is
    no such backup, the run ends with status 4, after the artifact has
    been removed. *)
Theorem kdiff3_merge (X : externals) (self : RpmConf)
    (conf other : string) (fs' : filesystem) (w : world) :
  frontend self = Some "kdiff3" →
  debug self = false →
  subprocess X ["/usr/bin/kdiff3"; conf; other; "-o"; conf] (w_fs w) = Exited 0 fs' →
  is_file fs' other →
  let started := CheckCall ["/usr/bin/kdiff3"; conf; other; "-o"; conf] in
  (is_file fs' (conf +:+ ".orig") → other ≠ conf +:+ ".orig" →
   _merge_conf_files X self conf other w
   = Ok tt (set_fs (delete (conf +:+ ".orig") (delete other fs')) (add_out [started] w)))
  ∧ (fs' !! (conf +:+ ".orig") = None →
     _merge_conf_files X self conf other w
     = SysExit 4 (set_fs (delete other fs')
                    (add_out [started; StderrWrite (strerror_ENOENT +:+ nl)] w))).
Proof.
  intros F D Sp O started.
  assert (E : (check_call X ["/usr/bin/kdiff3"; conf; other; "-o"; conf] ;;;
               _remove self other) w
              = Ok tt (set_fs (delete other fs') (add_out [started] w))).
  { unfold bind. rewrite (check_call_exited X _ 0 fs') by done.
    rewrite bool_decide_eq_true_2 by done.
    rewrite _remove_real by done. reflexivity. }
  assert (B : _merge_conf_files X self conf other w
              = match (_remove self (conf +:+ ".orig"))
                        (set_fs (delete other fs') (add_out [started] w)) with
                | Raised FileNotFoundError w' =>
                    SysExit 4 (emit (StderrWrite (strerror_ENOENT +:+ nl)) w')
                | Raised (CalledProcessError _) w' => Ok tt (print "Files not merged." w')
                | r => r
                end).
  { unfold _merge_conf_files, try_except, merge_branches. cbn beta zeta. rewrite F.
    change (bool_decide (Some "kdiff3" ∈ [Some "vimdiff"; Some "gvimdiff"; Some "meld"]))
      with false.
    change (bool_decide (Some "kdiff3" = Some "diffuse")) with false.
    change (bool_decide (Some "kdiff3" = Some "kdiff3")) with true.
    cbv iota. unfold try_except.
    unfold bind in E. unfold bind at 1.
    destruct (check_call X _ w) as [[] w1|c w1|e w1]; [|done..].
    unfold bind at 1. rewrite E.
    destruct (_remove self (conf +:+ ".orig") _) as [[] w2|c w2|[] w2]; reflexivity. }
  split.
  - intros Orig Ne. rewrite B, _remove_real; [reflexivity|done|].
    unfold is_file in *. cbn [w_fs set_fs]. by rewrite lookup_delete_ne.
  - intros Orig. rewrite B. unfold _remove, lift_fs, os_unlink. rewrite D.
    cbn [w_fs set_fs add_out].
    assert (L : delete other fs' !! (conf +:+ ".orig") = None).
    { destruct (decide (other = conf +:+ ".orig")) as [->|Ne].
      - apply lookup_delete_eq.
      - by rewrite lookup_delete_ne. }
    rewrite L. unfold emit, set_fs, add_out. cbn. by rewrite <- app_assoc.
Qed.

Lemma kdiff3_merge_witness :
  frontend (with_frontend "kdiff3") = Some "kdiff3"
  ∧ debug (with_frontend "kdiff3") = false
  ∧ is_file fs_differ "/etc/x.conf.rpmnew"
  ∧ fs_differ !! ("/etc/x.conf" +:+ ".orig") = None
  ∧ _merge_conf_files (idle_externals 0) (with_frontend "kdiff3")
      "/etc/x.conf" "/etc/x.conf.rpmnew" (world0 fs_differ)
    = SysExit 4
        (set_fs (delete "/etc/x.conf.rpmnew" fs_differ)
           (add_out [CheckCall ["/usr/bin/kdiff3"; "/etc/x.conf"; "/etc/x.conf.rpmnew";
                                "-o"; "/etc/x.conf"];
                     StderrWrite (strerror_ENOENT +:+ nl)] (world0 fs_differ))).
Proof.
  assert (O : is_file fs_differ "/etc/x.conf.rpmnew") by exact I.
  split; [reflexivity|]. split; [reflexivity|]. split; [exact O|]. split; [reflexivity|].
  exact (proj2 (kdiff3_merge (idle_externals 0) (with_frontend "kdiff3")
                  "/etc/x.conf" "/etc/x.conf.rpmnew" fs_differ (world0 fs_differ)
                  eq_refl eq_refl eq_refl O) eq_refl).
Defined.

Lemma write_target_not_a_link (fs : filesystem) (p : string) :
  (∀ t, fs !! p ≠ Some (Lnk t)) → write_target MAXSYMLINKS fs p = Some p.
Proof.
  intros N. unfold MAXSYMLINKS. cbn [write_target].
  destruct (fs !! p) as [[]|] eqn:E; try reflexivity. by destruct (N target).
Qed.

(** What [_merge_conf_files] comes to with sdiff once the program has
    ended: status 0 and status 1 lead to the same three steps. *)
Lemma sdiff_dispatch (X : externals) (self : RpmConf)
    (conf other : string) (rc : Z) (fs' : filesystem) (w w2 : world) :
  frontend self = Some "sdiff" →
  let tmp := mkstemp X (w_fs w) in
  let argv := ["/usr/bin/sdiff"; "-o"; tmp; conf; other] in
  subprocess X argv (<[tmp := Reg EmptyString 0]> (w_fs w)) = Exited rc fs' →
  (_remove self other ;;; _copy tmp conf ;;; _remove self tmp)
    (set_fs fs' (add_out [CheckCall argv] w)) = Ok tt w2 →
  _merge_conf_files X self conf other w
  = if bool_decide (rc ∈ [0; 1]) then Ok tt w2
    else Ok tt (set_fs fs' (add_out [CheckCall argv; Print "Files not merged."] w)).
Proof.
  intros F tmp argv Sp Tail.
  unfold _merge_conf_files, merge_branches. unfold try_except at 1. cbn beta zeta.
  rewrite F.
  change (bool_decide (Some "sdiff" ∈ [Some "vimdiff"; Some "gvimdiff"; Some "meld"]))
    with false.
  change (bool_decide (Some "sdiff" = Some "diffuse")) with false.
  change (bool_decide (Some "sdiff" = Some "kdiff3")) with false.
  change (bool_decide (Some "sdiff" = Some "sdiff")) with true.
  cbv iota. fold tmp. fold argv.
  unfold try_except at 1. unfold bind at 1. unfold lift_fs at 1.
  unfold bind at 1. unfold check_call at 1. cbn [w_fs set_fs]. rewrite Sp.
  change (set_fs fs' (emit (CheckCall argv) (set_fs _ w)))
    with (set_fs fs' (add_out [CheckCall argv] w)).
  destruct (decide (rc = 0)) as [->|N0].
  - change (bool_decide (0 = 0)) with true. change (bool_decide (0 ∈ [0; 1])) with true.
    cbv iota. by rewrite Tail.
  - rewrite (bool_decide_eq_false_2 (rc = 0)) by done. cbn [on_CalledProcessError].
    destruct (decide (rc = 1)) as [->|N1].
    + change (bool_decide (1 = 1)) with true. change (bool_decide (1 ∈ [0; 1])) with true.
      cbv iota. by rewrite Tail.
    + rewrite (bool_decide_eq_false_2 (rc = 1)) by done.
      rewrite (bool_decide_eq_false_2 (rc ∈ [0; 1])) by set_solver.
      unfold say, print, emit, set_fs, add_out. cbn. by rewrite <- app_assoc.
Qed.

(** X13. sdiff: status 1 is taken like status 0.  In both cases the
    artifact is removed, the text sdiff wrote to its scratch file
    replaces the configuration file, and the scratch file is removed.
    After any other status nothing is installed and the scratch file
    stays where it is. *)
Theorem sdiff_merge (X : externals) (self : RpmConf)
    (conf other c c0 : string) (m m0 rc : Z) (fs' : filesystem) (w : world) :
  frontend self = Some "sdiff" →
  debug self = false →
  let tmp := mkstemp X (w_fs w) in
  let started := CheckCall ["/usr/bin/sdiff"; "-o"; tmp; conf; other] in
  subprocess X ["/usr/bin/sdiff"; "-o"; tmp; conf; other]
    (<[tmp := Reg EmptyString 0]> (w_fs w)) = Exited rc fs' →
  fs' !! tmp = Some (Reg c m) →
  fs' !! conf = Some (Reg c0 m0) →
  is_file fs' other →
  tmp ≠ other → tmp ≠ conf → other ≠ conf →
  _merge_conf_files X self conf other w
  = if bool_decide (rc ∈ [0; 1])
    then Ok tt (set_fs (delete tmp (<[conf := Reg c m]> (delete other fs')))
                  (add_out [started] w))
    else Ok tt (set_fs fs' (add_out [started; Print "Files not merged."] w)).
Proof.
  intros F D tmp started Sp T C O N1 N2 N3.
  apply (sdiff_dispatch X self conf other rc fs' w _ F Sp). fold tmp.
  unfold bind.
  rewrite _remove_real by done. cbn [w_fs set_fs].
  unfold _copy, lift_fs. cbn [w_fs set_fs].
  rewrite (_copy_fs_regular _ tmp conf conf c m).
  - rewrite _remove_real; [reflexivity|done|].
    unfold is_file. cbn [w_fs set_fs].
    rewrite lookup_insert_ne by done. rewrite lookup_delete_ne by done. by rewrite T.
  - rewrite lookup_delete_ne by done. exact T.
  - apply write_target_not_a_link. intros t. rewrite lookup_delete_ne by done.
    by rewrite C.
  - done.
  - intros m'. rewrite lookup_delete_ne by done. by rewrite C.
  - intros m'. rewrite lookup_delete_ne by done. by rewrite C.
Qed.

Lemma sdiff_merge_witness :
  frontend (with_frontend "sdiff") = Some "sdiff"
  ∧ debug (with_frontend "sdiff") = false
  ∧ _merge_conf_files (sdiff_externals 1) (with_frontend "sdiff")
      "/etc/x.conf" "/etc/x.conf.rpmnew" (world0 fs_differ)
    = Ok tt (world_of (Ok tt
        (set_fs (delete "/tmp/rpmconf_scratch"
                   (<["/etc/x.conf" := Reg "M" 9]>
                      (delete "/etc/x.conf.rpmnew"
                         (<["/tmp/rpmconf_scratch" := Reg "M" 9]>
                            (<["/tmp/rpmconf_scratch" := Reg EmptyString 0]> fs_differ)))))
           (add_out [CheckCall ["/usr/bin/sdiff"; "-o"; "/tmp/rpmconf_scratch";
                                "/etc/x.conf"; "/etc/x.conf.rpmnew"]]
              (world0 fs_differ))))).
Proof.
  split; [reflexivity|]. split; [reflexivity|].
  exact (sdiff_merge (sdiff_externals 1) (with_frontend "sdiff")
           "/etc/x.conf" "/etc/x.conf.rpmnew" "M" "A" 9 5 1
           (<["/tmp/rpmconf_scratch" := Reg "M" 9]>
              (<["/tmp/rpmconf_scratch" := Reg EmptyString 0]> fs_differ))
           (world0 fs_differ) eq_refl eq_refl eq_refl eq_refl eq_refl I
           ltac:(discriminate) ltac:(discriminate) ltac:(discriminate)).
Defined.

(** X14. A dry run does not hold sdiff back: [_copy] is not guarded by
    [debug], so after status 0 or 1 the configuration file receives
    the merged text although the two removals are only printed. *)
Theorem dry_run_sdiff_still_writes (X : externals) (self : RpmConf)
    (conf other c c0 : string) (m m0 rc : Z) (fs' : filesystem) (w : world) :
  frontend self = Some "sdiff" →
  debug self = true →
  let tmp := mkstemp X (w_fs w) in
  let started := CheckCall ["/usr/bin/sdiff"; "-o"; tmp; conf; other] in
  subprocess X ["/usr/bin/sdiff"; "-o"; tmp; conf; other]
    (<[tmp := Reg EmptyString 0]> (w_fs w)) = Exited rc fs' →
  rc ∈ [0; 1] →
  fs' !! tmp = Some (Reg c m) →
  fs' !! conf = Some (Reg c0 m0) →
  tmp ≠ conf →
  _merge_conf_files X self conf other w
  = Ok tt (set_fs (<[conf := Reg c m]> fs')
             (add_out [started; Print ("rm " +:+ other); Print ("rm " +:+ tmp)] w)).
Proof.
  intros F D tmp started Sp R T C N.
  rewrite (sdiff_dispatch X self conf other rc fs' w
             (set_fs (<[conf := Reg c m]> fs')
                (add_out [started; Print ("rm " +:+ other); Print ("rm " +:+ tmp)] w))
             F Sp).
  - by rewrite bool_decide_eq_true_2.
  - fold tmp. unfold bind, _remove. rewrite D.
    unfold say, print, emit, _copy, lift_fs. cbn [w_fs w_out w_MERGE set_fs add_out].
    rewrite (_copy_fs_regular _ tmp conf conf c m); try done.
    + unfold set_fs, add_out. cbn. by rewrite <- !app_assoc.
    + apply write_target_not_a_link. intros t. by rewrite C.
    + intros m'. by rewrite C.
    + intros m'. by rewrite C.
Qed.

Lemma dry_run_sdiff_still_writes_witness :
  frontend (mkRpmConf false true false false (Some "sdiff") false [] None None)
  = Some "sdiff"
  ∧ 1 ∈ [0; 1]
  ∧ fs_differ !! "/etc/x.conf" = Some (Reg "A" 5)
  ∧ w_fs (world_of
      (_merge_conf_files (sdiff_externals 1)
         (mkRpmConf false true false false (Some "sdiff") false [] None None)
         "/etc/x.conf" "/etc/x.conf.rpmnew" (world0 fs_differ)))
    !! "/etc/x.conf" = Some (Reg "M" 9).
Proof.
  assert (R : 1 ∈ [0; 1]) by (right; left).
  split; [reflexivity|]. split; [exact R|]. split; [reflexivity|].
  rewrite (dry_run_sdiff_still_writes (sdiff_externals 1)
             (mkRpmConf false true false false (Some "sdiff") false [] None None)
             "/etc/x.conf" "/etc/x.conf.rpmnew" "M" "A" 9 5 1
             (<["/tmp/rpmconf_scratch" := Reg "M" 9]>
                (<["/tmp/rpmconf_scratch" := Reg EmptyString 0]> fs_differ))
             (world0 fs_differ) eq_refl eq_refl eq_refl R eq_refl eq_refl
             ltac:(discriminate)).
  reflexivity.
Defined.

(** ** Packages and the run *)

Lemma add_out_nil (w : world) : add_out [] w = w.
Proof. destruct w. unfold add_out. cbn. by rewrite app_nil_r. Qed.

Section Packages.

Variable X : externals.
Variable self : RpmConf.

Lemma handle_suffix_test (k : kind) (handler : string → string → list read_event
                                               → M (list read_event))
    (conf : string) (r : Z) (inp : list read_event) (w : world) :
  test self = true →
  handle_suffix self (suffix k) handler conf (r, inp) w
  = if os_access_F_OK (w_fs w) (artifact_of k conf)
    then Ok (r + 1, inp) (add_out [Print (artifact_of k conf)] w)
    else Ok (r, inp) w.
Proof.
  intros T. unfold handle_suffix, artifact_of. rewrite T.
  by destruct (os_access_F_OK _ _).
Qed.

Lemma handle_conf_file_test (conf : string) (r : Z) (inp : list read_event) (w : world) :
  test self = true → diff self = false →
  handle_conf_file X self conf (r, inp) w
  = Ok (r + Z.of_nat (length (present_artifacts (w_fs w) conf)), inp)
      (add_out (Print <$> present_artifacts (w_fs w) conf) w).
Proof.
  intros T D. unfold handle_conf_file. rewrite D. unfold bind.
  rewrite (handle_suffix_test NEW) by done.
  unfold present_artifacts. rewrite !filter_cons, filter_nil.
  destruct (os_access_F_OK (w_fs w) (artifact_of NEW conf)) eqn:E1;
    rewrite (handle_suffix_test BACKUP) by done; cbn [w_fs add_out];
    destruct (os_access_F_OK (w_fs w) (artifact_of BACKUP conf)) eqn:E2;
    rewrite (handle_suffix_test ORIG) by done; cbn [w_fs add_out];
    destruct (os_access_F_OK (w_fs w) (artifact_of ORIG conf)) eqn:E3;
    cbn [decide_rel decide]; rewrite ?add_out_add_out, ?add_out_nil;
    repeat case_decide; try done; cbn; f_equal; f_equal; lia.
Qed.

Lemma handle_conf_files_test (conf_files : list string) :
  test self = true → diff self = false →
  ∀ (r : Z) (inp : list read_event) (w : world),
    handle_conf_files X self conf_files (r, inp) w
    = Ok (r + Z.of_nat (length (pending_artifacts (w_fs w) conf_files)), inp)
        (add_out (Print <$> pending_artifacts (w_fs w) conf_files) w).
Proof.
  intros T D. induction conf_files as [|conf more IH]; intros r inp w.
  - cbn. rewrite add_out_nil. unfold ret. f_equal. f_equal. lia.
  - cbn [handle_conf_files]. unfold bind. rewrite handle_conf_file_test by done.
    rewrite IH. cbn [w_fs add_out]. unfold pending_artifacts. cbn [fmap list_fmap concat].
    rewrite fmap_app, length_app, add_out_add_out. f_equal. f_equal. lia.
Qed.

Lemma handle_packages_test (packages : list (list string)) :
  test self = true → diff self = false →
  ∀ (r : Z) (inp : list read_event) (w : world),
    handle_packages X self packages (r, inp) w
    = Ok (r + Z.of_nat (length (pending_artifacts (w_fs w) (concat packages))), inp)
        (add_out (Print <$> pending_artifacts (w_fs w) (concat packages)) w).
Proof.
  intros T D. induction packages as [|pkg more IH]; intros r inp w.
  - cbn. rewrite add_out_nil. unfold ret. f_equal. f_equal. lia.
  - cbn [handle_packages]. unfold bind, _handle_package.
    rewrite handle_conf_files_test by done. cbn [fst snd].
    rewrite IH. cbn [w_fs add_out concat]. unfold pending_artifacts.
    rewrite fmap_app, concat_app, fmap_app, length_app, add_out_add_out.
    f_equal. f_equal. lia.
Qed.

End Packages.

(** X15. In test mode (and not in diff mode) [_handle_package] prints the
    artifacts that are there, in the order of the configuration files
    and, for each, .rpmnew, .rpmsave, .rpmorig; it returns their number,
    changes no file and reads no answer. *)
Theorem test_mode_lists_artifacts (X : externals) (self : RpmConf)
    (conf_files : list string) (inp : list read_event) (w : world) :
  test self = true → diff self = false →
  _handle_package X self conf_files inp w
  = Ok (Z.of_nat (length (pending_artifacts (w_fs w) conf_files)), inp)
      (add_out (Print <$> pending_artifacts (w_fs w) conf_files) w).
Proof.
  intros T D. unfold _handle_package. by rewrite handle_conf_files_test.
Qed.

Lemma test_mode_lists_artifacts_witness :
  test test_only = true ∧ diff test_only = false
  ∧ _handle_package sample_externals test_only ["/etc/x.conf"] [Line "y"] (world0 fs_differ)
    = Ok (2, [Line "y"])
        (add_out [Print "/etc/x.conf.rpmnew"; Print "/etc/x.conf.rpmsave"]
           (world0 fs_differ)).
Proof.
  split; [reflexivity|]. split; [reflexivity|].
  exact (test_mode_lists_artifacts sample_externals test_only ["/etc/x.conf"]
           [Line "y"] (world0 fs_differ) eq_refl eq_refl).
Defined.

(** X16. [run] in test mode, diff mode being off: the artifacts of all
    packages are printed, the orphan scan follows when [clean] is set,
    and unless that scan is left by an exception the process ends with
    status 5 exactly when some artifact was printed.  (With diff mode
    on, test mode has no effect: see X18.) *)
Theorem test_mode_exit_status (X : externals) (self : RpmConf)
    (packages : list (list string)) (t : tree) (inp : list read_event) (w : world) :
  test self = true → diff self = false →
  let found := pending_artifacts (w_fs w) (concat packages) in
  run X self packages t inp w
  = (inp' <~ (if clean self then _clean_orphan X self t inp else ret inp) ;;
     if bool_decide (found = []) then ret inp' else sys_exit 5)
      (add_out (Print <$> found) w).
Proof.
  intros T D found. unfold run. unfold bind at 1.
  rewrite handle_packages_test by done. fold found. cbn [fst snd].
  unfold bind. destruct (clean self).
  - destruct (_clean_orphan _ _ _ _ _) as [inp' w'| |]; try reflexivity.
    destruct found; reflexivity.
  - unfold ret. destruct found; reflexivity.
Qed.

Lemma test_mode_exit_status_witness :
  test test_only = true ∧ diff test_only = false
  ∧ run sample_externals test_only [["/etc/x.conf"]] tree_cycle [] (world0 fs_differ)
    = SysExit 5 (add_out [Print "/etc/x.conf.rpmnew"; Print "/etc/x.conf.rpmsave"]
                   (world0 fs_differ)).
Proof.
  split; [reflexivity|]. split; [reflexivity|].
  exact (test_mode_exit_status sample_externals test_only [["/etc/x.conf"]]
           tree_cycle [] (world0 fs_differ) eq_refl eq_refl).
Defined.

(** X17. Nothing pending, nothing done: outside diff mode, when no
    configuration file of the packages has an artifact and [clean] is
    off, [run] returns without printing, reading or changing
    anything. *)
Theorem nothing_pending_nothing_done (X : externals) (self : RpmConf)
    (packages : list (list string)) (t : tree) (inp : list read_event) (w : world) :
  diff self = false → clean self = false →
  pending_artifacts (w_fs w) (concat packages) = [] →
  run X self packages t inp w = Ok inp w.
Proof.
  intros D C P.
  assert (S : ∀ k handler conf acc w0,
            os_access_F_OK (w_fs w0) (artifact_of k conf) = false →
            handle_suffix self (suffix k) handler conf acc w0 = Ok acc w0).
  { intros k handler conf [r i] w0 A. unfold handle_suffix.
    change (conf +:+ "." +:+ suffix k) with (artifact_of k conf). by rewrite A. }
  assert (F : ∀ conf acc, present_artifacts (w_fs w) conf = [] →
                          handle_conf_file X self conf acc w = Ok acc w).
  { intros conf acc E. unfold handle_conf_file. rewrite D. unfold bind.
    unfold present_artifacts in E. rewrite !filter_cons, filter_nil in E.
    repeat case_decide; try done.
    rewrite (S NEW), (S BACKUP), (S ORIG); try reflexivity;
      by apply not_true_is_false. }
  assert (Fs : ∀ conf_files acc, pending_artifacts (w_fs w) conf_files = [] →
                                 handle_conf_files X self conf_files acc w = Ok acc w).
  { induction conf_files as [|conf more IH]; intros acc E; [reflexivity|].
    unfold pending_artifacts in E. cbn [fmap list_fmap concat] in E.
    apply app_eq_nil in E as [E1 E2].
    cbn [handle_conf_files]. unfold bind. rewrite F by done. by apply IH. }
  assert (Ps : ∀ pkgs acc, pending_artifacts (w_fs w) (concat pkgs) = [] →
                           handle_packages X self pkgs acc w = Ok (acc.1, acc.2) w).
  { induction pkgs as [|pkg more IH]; intros [r i] E; [reflexivity|].
    unfold pending_artifacts in E. cbn [concat] in E.
    rewrite fmap_app, concat_app in E. apply app_eq_nil in E as [E1 E2].
    cbn [handle_packages]. unfold bind, _handle_package. rewrite Fs by done.
    cbn [fst snd]. rewrite IH by done. cbn [fst snd]. f_equal. f_equal. lia. }
  unfold run, bind. rewrite Ps by done. cbn [fst snd]. by rewrite C.
Qed.

Lemma nothing_pending_nothing_done_witness :
  diff no_clean = false ∧ clean no_clean = false
  ∧ pending_artifacts fs_differ (concat [["/etc/y.conf"]; []]) = []
  ∧ run sample_externals no_clean [["/etc/y.conf"]; []] tree_cycle [Line "y"]
      (world0 fs_differ)
    = Ok [Line "y"] (world0 fs_differ).
Proof.
  split; [reflexivity|]. split; [reflexivity|]. split; [reflexivity|].
  exact (nothing_pending_nothing_done sample_externals no_clean [["/etc/y.conf"]; []]
           tree_cycle [Line "y"] (world0 fs_differ) eq_refl eq_refl eq_refl).
Defined.

Section DiffMode.

Variable X : externals.
Variable self : RpmConf.

Lemma shows_only_ret {A} (P : A → Prop) (a : A) : P a → shows_only P (ret a).
Proof. intros H w. split; [exists []; by rewrite add_out_nil|exact H]. Qed.

Lemma shows_only_bind {A B} (P : A → Prop) (Q : B → Prop) (m : M A) (k : A → M B) :
  shows_only P m → (∀ a, P a → shows_only Q (k a)) → shows_only Q (bind m k).
Proof.
  intros Hm Hk w. unfold bind. destruct (Hm w) as [[pages E] R].
  destruct (m w) as [a w1|c w1|e w1]; cbn in E; subst; [|done|by split; [exists pages|]].
  destruct (Hk a R (add_out (Pager <$> pages) w)) as [[pages' E'] R'].
  split; [|exact R']. exists (pages ++ pages'). rewrite E'.
  by rewrite add_out_add_out, fmap_app.
Qed.

Lemma shows_only_show_diff (file1 file2 : string) :
  shows_only (fun _ => True) (show_diff X file1 file2).
Proof.
  intros w. unfold show_diff.
  destruct (diff_side X (w_fs w) file1) as [[msg1 f1] fromdate].
  destruct (diff_side X (w_fs w) file2) as [[msg2 f2] todate].
  destruct (readlines X (w_fs w) f1) as [[]|fromlines];
    try (split; [exists []; by rewrite add_out_nil|done]);
    try (split; [by eexists [_]|done]).
  destruct (readlines X (w_fs w) f2) as [[]|tolines];
    try (split; [exists []; by rewrite add_out_nil|done]);
    try (split; [by eexists [_]|done]).
Qed.

Lemma shows_only_show_cond_diff (file_ex file1 file2 : string) :
  shows_only (fun _ => True) (_show_cond_diff X file_ex file1 file2).
Proof.
  intros w. unfold _show_cond_diff. destruct (os_path_lexists _ _).
  - apply shows_only_show_diff.
  - split; [exists []; by rewrite add_out_nil|done].
Qed.

Lemma shows_only_handle_conf_file (conf : string) (acc : Z * list read_event) :
  diff self = true → shows_only (fun r => r = acc) (handle_conf_file X self conf acc).
Proof.
  intros D w. unfold handle_conf_file. rewrite D. cbv zeta.
  generalize (if negb (os_path_exists (w_fs w) conf) then dev_null else conf).
  intros c.
  exact (shows_only_bind (fun _ => True) (fun r => r = acc) _ _
           (shows_only_show_cond_diff _ _ _)
           (fun _ _ => shows_only_bind (fun _ => True) (fun r => r = acc) _ _
              (shows_only_show_cond_diff _ _ _)
              (fun _ _ => shows_only_bind (fun _ => True) (fun r => r = acc) _ _
                 (shows_only_show_cond_diff _ _ _)
                 (fun _ _ => shows_only_ret (fun r => r = acc) acc eq_refl))) w).
Qed.

Lemma shows_only_handle_conf_files (conf_files : list string) :
  diff self = true →
  ∀ acc, shows_only (fun r => r = acc) (handle_conf_files X self conf_files acc).
Proof.
  intros D. induction conf_files as [|conf more IH]; intros acc.
  - by apply shows_only_ret.
  - cbn [handle_conf_files].
    apply (shows_only_bind (fun r => r = acc)); [by apply shows_only_handle_conf_file|].
    intros a ->. apply IH.
Qed.

End DiffMode.

(** X18. Diff mode only shows: [_handle_package] changes no file, emits
    nothing but pages of differences, asks nothing and consumes no
    answer, reports no artifact to the count of [run], and never ends
    the process, whether or not test mode is set as well. *)
Theorem diff_mode_only_shows (X : externals) (self : RpmConf)
    (conf_files : list string) (inp : list read_event) :
  diff self = true →
  shows_only (fun r => r = (0, inp)) (_handle_package X self conf_files inp).
Proof. intros D. unfold _handle_package. by apply shows_only_handle_conf_files. Qed.

Lemma diff_mode_only_shows_witness :
  diff diff_only = true
  ∧ _handle_package sample_externals diff_only ["/etc/x.conf"] [Line "y"] (world0 fs_differ)
    = Ok (0, [Line "y"])
        (add_out (Pager <$> ["@@"; "@@"]) (world0 fs_differ))
  ∧ shows_only (fun r => r = (0, [Line "y"]))
      (_handle_package sample_externals diff_only ["/etc/x.conf"] [Line "y"]).
Proof.
  split; [reflexivity|]. split; [reflexivity|].
  exact (diff_mode_only_shows sample_externals diff_only ["/etc/x.conf"] [Line "y"]
           eq_refl).
Defined.

(** X19. Diff mode looks for the artifacts of /dev/null when the
    configuration file itself is missing: unless /dev/null.rpmnew,
    /dev/null.rpmsave or /dev/null.rpmorig is there, nothing is shown,
    whatever artifacts of the missing file are there. *)
Theorem diff_mode_missing_base (X : externals) (self : RpmConf)
    (conf : string) (inp : list read_event) (w : world) :
  diff self = true →
  os_path_exists (w_fs w) conf = false →
  (∀ k, os_path_lexists (w_fs w) (artifact_of k dev_null) = false) →
  _handle_package X self [conf] inp w = Ok (0, inp) w.
Proof.
  intros D E N. unfold _handle_package. cbn [handle_conf_files].
  unfold bind, handle_conf_file. rewrite D, E. cbn [negb]. unfold bind, _show_cond_diff.
  pose proof (N NEW) as N1. pose proof (N BACKUP) as N2. pose proof (N ORIG) as N3.
  change (artifact_of NEW dev_null) with (dev_null +:+ ".rpmnew") in N1.
  change (artifact_of BACKUP dev_null) with (dev_null +:+ ".rpmsave") in N2.
  change (artifact_of ORIG dev_null) with (dev_null +:+ ".rpmorig") in N3.
  by rewrite N1, N2, N3.
Qed.

Lemma diff_mode_missing_base_witness :
  diff diff_only = true
  ∧ os_path_exists fs_link_artifact "/etc/y.conf" = false
  ∧ os_path_lexists (<["/etc/y.conf.rpmnew" := Reg "B" 7]> fs_link_artifact)
      "/etc/y.conf.rpmnew" = true
  ∧ _handle_package sample_externals diff_only ["/etc/y.conf"] []
      (world0 (<["/etc/y.conf.rpmnew" := Reg "B" 7]> fs_link_artifact))
    = Ok (0, []) (world0 (<["/etc/y.conf.rpmnew" := Reg "B" 7]> fs_link_artifact)).
Proof.
  split; [reflexivity|]. split; [reflexivity|]. split; [reflexivity|].
  refine (diff_mode_missing_base sample_externals diff_only "/etc/y.conf" []
            (world0 (<["/etc/y.conf.rpmnew" := Reg "B" 7]> fs_link_artifact))
            eq_refl eq_refl _).
  intros []; reflexivity.
Defined.

(** ** Exit statuses *)

Section ExitStatus.

Variable X : externals.
Variable self : RpmConf.
Variable codes : list Z.

Lemma exits_in_ret {A} (a : A) : exits_in codes (ret a).
Proof. by intros w c w'. Qed.

Lemma exits_in_say (s : string) : exits_in codes (say s).
Proof. by intros w c w'. Qed.

Lemma exits_in_tell (e : event) : exits_in codes (tell e).
Proof. by intros w c w'. Qed.

Lemma exits_in_raise {A} (e : exn) : exits_in codes (raise e : M A).
Proof. by intros w c w'. Qed.

Lemma exits_in_sys_exit {A} (c : Z) : c ∈ codes → exits_in codes (sys_exit c : M A).
Proof. intros H w c' w' [= <- _]. exact H. Qed.

Lemma exits_in_lift_fs (op : filesystem → exn + filesystem) : exits_in codes (lift_fs op).
Proof. intros w c w'. unfold lift_fs. by destruct (op _). Qed.

Lemma exits_in_bind {A B} (m : M A) (k : A → M B) :
  exits_in codes m → (∀ a, exits_in codes (k a)) → exits_in codes (bind m k).
Proof.
  intros Hm Hk w c w'. unfold bind. specialize (Hm w).
  destruct (m w) as [a w1|c1 w1|e w1]; [apply Hk| |done].
  intros [= <- _]. by eapply Hm.
Qed.

Lemma exits_in_try_except {A} (m : M A) (h : exn → option (M A)) :
  exits_in codes m → (∀ e handler, h e = Some handler → exits_in codes handler) →
  exits_in codes (try_except m h).
Proof.
  intros Hm Hh w c w'. unfold try_except. specialize (Hm w).
  destruct (m w) as [a w1|c1 w1|e w1]; [done| |].
  - intros [= <- _]. by eapply Hm.
  - destruct (h e) as [handler|] eqn:E; [by apply (Hh e handler E)|done].
Qed.

Lemma exits_in_for_each {A} (f : A → M unit) (l : list A) :
  (∀ a, exits_in codes (f a)) → exits_in codes (for_each f l).
Proof.
  intros H. induction l as [|a l IH]; [apply exits_in_ret|].
  cbn [for_each]. apply exits_in_bind; [apply H|]. intros _. exact IH.
Qed.

Lemma exits_in_remove (p : string) : exits_in codes (_remove self p).
Proof. unfold _remove. destruct (debug self); [apply exits_in_say|apply exits_in_lift_fs]. Qed.

Lemma exits_in_copy (src dst : string) : exits_in codes (_copy src dst).
Proof. apply exits_in_lift_fs. Qed.

Lemma exits_in_overwrite (src dst : string) : exits_in codes (_overwrite self src dst).
Proof.
  unfold _overwrite. destruct (debug self); [apply exits_in_say|].
  apply exits_in_bind; [apply exits_in_lift_fs|]. intros _. apply exits_in_remove.
Qed.

Lemma exits_in_show_diff (file1 file2 : string) : exits_in codes (show_diff X file1 file2).
Proof.
  intros w c w' E. pose proof (shows_only_show_diff X file1 file2 w) as [_ H].
  by rewrite E in H.
Qed.

Lemma exits_in_check_call (argv : list string) : exits_in codes (check_call X argv).
Proof.
  intros w c w'. unfold check_call. destruct (subprocess X argv _); [done|].
  by case_bool_decide.
Qed.

Lemma exits_in_flush_input (question : string) (ev : read_event) :
  exits_in codes (flush_input question ev).
Proof.
  unfold flush_input. apply exits_in_bind; [apply exits_in_tell|]. intros _.
  destruct ev; [apply exits_in_ret|apply exits_in_raise|apply exits_in_raise].
Qed.

Lemma exits_in_ask_delete (inp : list read_event) : exits_in codes (ask_delete inp).
Proof.
  induction inp as [|ev rest IH]; cbn [ask_delete];
    (apply exits_in_bind; [apply exits_in_flush_input|]); intros s.
  - apply exits_in_ret.
  - destruct (str_in _ _); [apply exits_in_ret|exact IH].
Qed.

Lemma exits_in_report_and_delete (st : scan_state) (inp : list read_event) :
  exits_in codes (report_and_delete self st inp).
Proof.
  unfold report_and_delete. apply exits_in_bind.
  { case_bool_decide; [|apply exits_in_ret].
    apply exits_in_bind; [apply exits_in_say|]. intros _.
    apply exits_in_bind; [|intros _; apply exits_in_say].
    apply exits_in_for_each. intros m. apply exits_in_say. }
  intros _. case_bool_decide.
  - apply exits_in_bind; [apply exits_in_say|]. intros _.
    apply exits_in_bind; [apply exits_in_for_each; intros f; apply exits_in_say|].
    intros _. apply exits_in_bind; [apply exits_in_ask_delete|]. intros a.
    apply exits_in_bind; [|intros _; apply exits_in_ret].
    destruct (str_in _ _); [|apply exits_in_ret].
    apply exits_in_for_each. intros f. apply exits_in_remove.
  - apply exits_in_bind; [apply exits_in_say|]. intros _. apply exits_in_ret.
Qed.

Lemma exits_in_clean_orphan (t : tree) (inp : list read_event) :
  exits_in codes (_clean_orphan X self t inp).
Proof.
  unfold _clean_orphan. apply exits_in_bind.
  - apply exits_in_for_each. intros topdir. apply exits_in_tell.
  - intros _. destruct (scan _ _ _ _);
      [apply exits_in_report_and_delete|apply exits_in_raise].
Qed.

Hypothesis interrupted : 1 ∈ codes.
Hypothesis no_frontend : 2 ∈ codes.
Hypothesis no_program : 4 ∈ codes.

Lemma exits_in_merge_conf_files (conf other : string) :
  exits_in codes (_merge_conf_files X self conf other).
Proof.
  unfold _merge_conf_files. apply exits_in_try_except.
  - intros w. unfold merge_branches.
    repeat (match goal with
            | |- context [bool_decide ?P] => destruct (bool_decide P)
            end; cbn [andb orb]).
    all: try apply exits_in_check_call.
    all: try (apply exits_in_try_except;
              [|intros [] handler; cbn; intros [= <-]; try case_bool_decide;
                repeat (apply exits_in_bind; [|intros _]);
                auto using exits_in_say, exits_in_remove, exits_in_lift_fs,
                  exits_in_copy]).
    all: repeat (apply exits_in_bind; [|intros _]);
      auto using exits_in_say, exits_in_tell, exits_in_remove, exits_in_lift_fs,
        exits_in_check_call, exits_in_sys_exit, exits_in_copy.
  - intros [] handler; cbn; intros [= <-].
    apply exits_in_bind; [apply exits_in_tell|]. intros _. by apply exits_in_sys_exit.
Qed.

Lemma exits_in_read_option (ev : read_event) : exits_in codes (read_option ev).
Proof.
  unfold read_option. apply exits_in_try_except.
  - apply exits_in_bind; [apply exits_in_flush_input|]. intros s. apply exits_in_ret.
  - intros [] handler; intros [= <-]; [apply exits_in_ret|by apply exits_in_sys_exit].
Qed.

Lemma exits_in_after_read (dflt diff1 diff2 conf other opt : string) :
  exits_in codes (after_read X self dflt diff1 diff2 conf other opt).
Proof.
  intros w. unfold after_read. destruct (negb _); [done|]. cbv zeta.
  apply exits_in_bind.
  { case_bool_decide; [apply exits_in_show_diff|apply exits_in_ret]. }
  intros _. apply exits_in_bind.
  { case_bool_decide; [|apply exits_in_ret].
    apply exits_in_bind; [apply exits_in_say|]. intros _. apply exits_in_tell. }
  intros _. case_bool_decide; [|apply exits_in_ret].
  apply exits_in_bind; [apply exits_in_merge_conf_files|]. intros _.
  intros w1 c w1'. by destruct (negb _).
Qed.

Lemma exits_in_iteration (prompt dflt diff1 diff2 conf other : string) (ev : read_event) :
  exits_in codes (iteration X self prompt dflt diff1 diff2 conf other ev).
Proof.
  intros w. unfold iteration. destruct (negb _); [done|].
  apply exits_in_bind.
  { intros w1 c w1'. unfold _ls_conf_file. by destruct (negb _). }
  intros _. apply exits_in_bind; [apply exits_in_say|]. intros _.
  apply exits_in_bind; [apply exits_in_read_option|]. intros opt.
  apply exits_in_after_read.
Qed.

Lemma exits_in_interact (prompt dflt diff1 diff2 conf other : string)
    (inp : list read_event) :
  exits_in codes (interact X self prompt dflt diff1 diff2 conf other inp).
Proof.
  induction inp as [|ev rest IH]; intros w c w'; cbn [interact].
  - pose proof (exits_in_iteration prompt dflt diff1 diff2 conf other Eof w) as H.
    destruct (iteration _ _ _ _ _ _ _ _ _ w) as [f w1|c1 w1|e w1]; [done| |done].
    intros [= <- _]. by eapply H.
  - pose proof (exits_in_iteration prompt dflt diff1 diff2 conf other ev w) as H.
    destruct (iteration _ _ _ _ _ _ _ _ _ w) as [[|opt] w1|c1 w1|e w1]; [done| | |done].
    + destruct (str_in _ _); [done|apply IH].
    + intros [= <- _]. by eapply H.
Qed.

Lemma exits_in_same_files (conf other : string) : exits_in codes (same_files conf other).
Proof.
  intros w c w'. unfold same_files. destruct (_ && _)%bool; [|done].
  by destruct (filecmp_cmp _ _ _).
Qed.

Lemma exits_in_resolve (k : kind) (conf other : string) (inp : list read_event) :
  exits_in codes (resolve X self k conf other inp).
Proof.
  destruct k; cbn [resolve]; unfold _handle_rpmnew, _handle_rpmsave;
    (apply exits_in_bind; [apply exits_in_same_files|]); intros [];
    repeat case_bool_decide;
    repeat (apply exits_in_bind; [|intros ?]);
    auto using exits_in_ret, exits_in_remove, exits_in_overwrite, exits_in_interact;
    destruct_all (flow * list read_event)%type;
    match goal with
    | |- exits_in _ (match ?f with _ => _ end) => destruct f
    end;
    repeat (apply exits_in_bind; [|intros ?]);
    try destruct (str_in _ _);
    auto using exits_in_ret, exits_in_remove, exits_in_overwrite.
Qed.

Lemma exits_in_handle_suffix (k : kind) (conf : string) (acc : Z * list read_event) :
  exits_in codes (handle_suffix self (suffix k) (resolve X self k) conf acc).
Proof.
  intros w. unfold handle_suffix. destruct acc as [r inp].
  destruct (os_access_F_OK _ _); [|done]. destruct (test self); [done|].
  apply exits_in_bind; [apply exits_in_resolve|]. intros inp'. apply exits_in_ret.
Qed.

Lemma exits_in_handle_conf_file (conf : string) (acc : Z * list read_event) :
  exits_in codes (handle_conf_file X self conf acc).
Proof.
  intros w c w' E. destruct (diff self) eqn:D.
  - pose proof (shows_only_handle_conf_file X self conf acc D w) as [_ H].
    by rewrite E in H.
  - revert E. unfold handle_conf_file. rewrite D.
    apply (exits_in_bind _ _ (exits_in_handle_suffix NEW conf acc)).
    intros acc1. apply (exits_in_bind _ _ (exits_in_handle_suffix BACKUP conf acc1)).
    intros acc2. apply (exits_in_handle_suffix ORIG conf acc2).
Qed.

Lemma exits_in_handle_conf_files (conf_files : list string) :
  ∀ acc, exits_in codes (handle_conf_files X self conf_files acc).
Proof.
  induction conf_files as [|conf more IH]; intros acc; [apply exits_in_ret|].
  cbn [handle_conf_files]. apply exits_in_bind; [apply exits_in_handle_conf_file|].
  exact IH.
Qed.

Lemma exits_in_handle_packages (packages : list (list string)) :
  ∀ acc, exits_in codes (handle_packages X self packages acc).
Proof.
  induction packages as [|pkg more IH]; intros acc; [apply exits_in_ret|].
  cbn [handle_packages]. apply exits_in_bind; [apply exits_in_handle_conf_files|].
  intros r. apply IH.
Qed.

End ExitStatus.

Section Count.

Variable X : externals.
Variable self : RpmConf.
Hypothesis not_counting : test self = false ∨ diff self = true.

Lemma handle_suffix_count (suffix : string)
    (handler : string → string → list read_event → M (list read_event))
    (conf : string) (acc r : Z * list read_event) (w w' : world) :
  diff self = false →
  handle_suffix self suffix handler conf acc w = Ok r w' → r.1 = acc.1.
Proof.
  intros D. destruct not_counting as [T|D']; [|congruence].
  unfold handle_suffix. destruct acc as [n inp].
  destruct (os_access_F_OK _ _); [|by intros [= <- _]].
  rewrite T. unfold bind, ret.
  destruct (handler _ _ _ _) as [inp' w1| |]; [|done..]. by intros [= <- _].
Qed.

Lemma handle_conf_file_count (conf : string) (acc r : Z * list read_event) (w w' : world) :
  handle_conf_file X self conf acc w = Ok r w' → r.1 = acc.1.
Proof.
  intros E. destruct (decide (diff self = true)) as [D|D%not_true_is_false].
  - pose proof (shows_only_handle_conf_file X self conf acc D w) as [_ H].
    rewrite E in H. by subst.
  - revert E. unfold handle_conf_file. rewrite D. unfold bind.
    destruct (handle_suffix _ "rpmnew" _ _ _ _) as [a1 w1| |] eqn:E1; [|done..].
    destruct (handle_suffix _ "rpmsave" _ _ _ _) as [a2 w2| |] eqn:E2; [|done..].
    intros E3.
    apply handle_suffix_count in E1, E2, E3; try done. congruence.
Qed.

Lemma handle_conf_files_count (conf_files : list string) :
  ∀ (acc r : Z * list read_event) (w w' : world),
    handle_conf_files X self conf_files acc w = Ok r w' → r.1 = acc.1.
Proof.
  induction conf_files as [|conf more IH]; intros acc r w w'; cbn [handle_conf_files].
  - by intros [= <- _].
  - unfold bind.
    destruct (handle_conf_file _ _ _ _ _) as [a1 w1| |] eqn:E1; [|done..].
    intros E2. apply IH in E2. apply handle_conf_file_count in E1. congruence.
Qed.

Lemma handle_packages_count (packages : list (list string)) :
  ∀ (acc r : Z * list read_event) (w w' : world),
    handle_packages X self packages acc w = Ok r w' → r.1 = acc.1.
Proof.
  induction packages as [|pkg more IH]; intros acc r w w'; cbn [handle_packages].
  - by intros [= <- _].
  - unfold bind, _handle_package.
    destruct (handle_conf_files _ _ _ _ _) as [a1 w1| |] eqn:E1; [|done..].
    intros E2. apply IH in E2. apply handle_conf_files_count in E1.
    cbn [fst snd] in *. lia.
Qed.

End Count.

(** X20. The statuses [run] ends the process with are 1, 2, 4 and 5, and 5
    is the status of test mode only: it needs test mode without diff
    mode and an artifact of some configuration file of the packages. *)
Theorem run_exit_statuses (X : externals) (self : RpmConf)
    (packages : list (list string)) (t : tree) (inp : list read_event)
    (w w' : world) (c : Z) :
  run X self packages t inp w = SysExit c w' →
  c ∈ [1; 2; 4; 5]
  ∧ (c = 5 →
     test self = true ∧ diff self = false
     ∧ pending_artifacts (w_fs w) (concat packages) ≠ []).
Proof.
  unfold run. unfold bind at 1.
  destruct (handle_packages X self packages (0, inp) w) as [r w1|c1 w1|e w1] eqn:E;
    [| |done].
  - unfold bind.
    assert (Cl : ∀ m : M (list read_event), exits_in [] m →
              match m w1 with
              | Ok a w'0 => (if 0 <? r.1 then sys_exit 5 else ret a) w'0
              | SysExit c0 w'0 => SysExit c0 w'0
              | Raised e w'0 => Raised e w'0
              end = SysExit c w' → c = 5 ∧ 0 < r.1).
    { intros m Hm. specialize (Hm w1).
      destruct (m w1) as [a w2|c2 w2|e2 w2]; [| |done].
      - destruct (0 <? r.1) eqn:Z; [|done]. intros [= <- _]. split; [done|].
        by apply Z.ltb_lt.
      - intros [= <- _]. specialize (Hm c2 w2 eq_refl). by apply elem_of_nil in Hm. }
    intros R.
    assert (C5 : c = 5 ∧ 0 < r.1).
    { destruct (clean self); [apply (Cl (_clean_orphan X self t r.2))
                             |apply (Cl (ret r.2))];
        auto using exits_in_clean_orphan, exits_in_ret. }
    destruct C5 as [-> Pos]. split; [set_solver|]. intros _.
    destruct (test self) eqn:T.
    + destruct (diff self) eqn:D.
      * apply (handle_packages_count X self (or_intror D)) in E. cbn in E. lia.
      * split; [done|]. split; [done|]. intros P.
        rewrite (handle_packages_test X self packages T D) in E. rewrite P in E.
        injection E as <- _. cbn in Pos. lia.
    + apply (handle_packages_count X self (or_introl T)) in E. cbn in E. lia.
  - intros [= <- _].
    assert (H : c1 ∈ [1; 2; 4]).
    { apply (exits_in_handle_packages X self [1; 2; 4]) in E; [done|set_solver..]. }
    split; [set_solver|]. intros ->.
    repeat (apply elem_of_cons in H as [H|H]; [done|]). by apply elem_of_nil in H.
Qed.

Lemma run_exit_statuses_witness :
  run sample_externals interactive [["/etc/x.conf"]] tree_cycle [Interrupt]
    (world0 fs_differ)
  = SysExit 1 (world_of (run sample_externals interactive [["/etc/x.conf"]] tree_cycle
                           [Interrupt] (world0 fs_differ)))
  ∧ 1 ∈ [1; 2; 4; 5].
Proof.
  assert (E : run sample_externals interactive [["/etc/x.conf"]] tree_cycle [Interrupt]
                (world0 fs_differ)
              = SysExit 1 (world_of (run sample_externals interactive [["/etc/x.conf"]]
                                       tree_cycle [Interrupt] (world0 fs_differ))))
    by (vm_compute; reflexivity).
  split; [exact E|].
  exact (proj1 (run_exit_statuses sample_externals interactive [["/etc/x.conf"]]
                  tree_cycle [Interrupt] (world0 fs_differ) _ 1 E)).
Defined.

(** ** The orphans *)

Lemma for_each_say {A} (f : A → string) (l : list A) (w : world) :
  for_each (fun a => say (f a)) l w = Ok tt (add_out ((fun a => Print (f a)) <$> l) w).
Proof.
  revert w. induction l as [|a l IH]; intros w; cbn [for_each].
  - cbn. by rewrite add_out_nil.
  - unfold bind, say at 1. rewrite IH. unfold print. rewrite emit_as_add_out.
    by rewrite add_out_add_out.
Qed.

Section Orphans.

Variable self : RpmConf.
Variable st : scan_state.

(** What is printed before the question, or instead of it. *)
Lemma report_and_delete_report (inp : list read_event) (w : world) :
  report_and_delete self st inp w
  = if bool_decide (files_delete st ≠ []) then
      (a <~ ask_delete inp ;;
       (if str_in a.1 ["Y"; EmptyString]
        then for_each (_remove self) (files_delete st) else ret tt) ;;;
       ret a.2) (add_out (report st) w)
    else Ok inp (add_out (report st) w).
Proof.
  unfold report_and_delete, report. unfold bind at 1.
  assert (M : (if bool_decide (files_merge st ≠ []) then
                 say "These files need merging - you may want to run 'rpmconf -a':" ;;;
                 for_each (fun m => say (ljust 20 m.1.1 +:+ ": " +:+ m.2)) (files_merge st) ;;;
                 say ("Skipping files above." +:+ nl)
               else ret tt) w
              = Ok tt (add_out
                  (if bool_decide (files_merge st ≠ []) then
                     Print "These files need merging - you may want to run 'rpmconf -a':" ::
                     ((fun m => Print (ljust 20 m.1.1 +:+ ": " +:+ m.2)) <$> files_merge st) ++
                     [Print ("Skipping files above." +:+ nl)]
                   else []) w)).
  { case_bool_decide; [|by rewrite add_out_nil].
    unfold bind, say at 1. rewrite for_each_say. unfold say, print.
    rewrite !emit_as_add_out, !add_out_add_out. reflexivity. }
  rewrite M.
  generalize (if bool_decide (files_merge st ≠ []) then
                Print "These files need merging - you may want to run 'rpmconf -a':" ::
                ((fun m => Print (ljust 20 m.1.1 +:+ ": " +:+ m.2)) <$> files_merge st) ++
                [Print ("Skipping files above." +:+ nl)]
              else []).
  intros pre. destruct (bool_decide (files_delete st ≠ [])).
  - unfold bind at 1. unfold say at 1. unfold bind at 1.
    rewrite (for_each_say (fun a : string => a) (files_delete st)).
    unfold print. rewrite emit_as_add_out, !add_out_add_out. reflexivity.
  - unfold bind, say, ret, print. rewrite emit_as_add_out, add_out_add_out. reflexivity.
Qed.

End Orphans.

(** X21. Without an orphan there is no question: the report is printed,
    nothing is read and no file changes. *)
Theorem no_orphans_no_question (self : RpmConf) (st : scan_state)
    (inp : list read_event) (w : world) :
  files_delete st = [] →
  report_and_delete self st inp w = Ok inp (add_out (report st) w)
  ∧ Input "Delete these files (Y/n): " ∉ report st.
Proof.
  intros E. split.
  - rewrite report_and_delete_report. rewrite bool_decide_eq_false_2; [done|].
    intros H. by apply H.
  - unfold report. rewrite E. intros H.
    apply elem_of_app in H as [H|H].
    + case_bool_decide; [|by apply elem_of_nil in H].
      apply elem_of_cons in H as [H|H]; [done|].
      apply elem_of_app in H as [H|H].
      * apply list_elem_of_fmap in H as (m & H & _). done.
      * apply list_elem_of_singleton in H. done.
    + rewrite bool_decide_eq_false_2 in H by (intros H'; by apply H').
      apply list_elem_of_singleton in H. done.
Qed.

Lemma no_orphans_no_question_witness :
  files_delete (mkScan ∅ [("pkgA", "/etc/foo.conf", "/etc/foo.conf.rpmnew")] [] []) = []
  ∧ report_and_delete interactive
      (mkScan ∅ [("pkgA", "/etc/foo.conf", "/etc/foo.conf.rpmnew")] [] [])
      [Line "y"] (world0 fs_differ)
    = Ok [Line "y"]
        (add_out (report (mkScan ∅ [("pkgA", "/etc/foo.conf", "/etc/foo.conf.rpmnew")] [] []))
           (world0 fs_differ)).
Proof.
  split; [reflexivity|].
  exact (proj1 (no_orphans_no_question interactive
                  (mkScan ∅ [("pkgA", "/etc/foo.conf", "/etc/foo.conf.rpmnew")] [] [])
                  [Line "y"] (world0 fs_differ) eq_refl)).
Defined.

(** X22. Y, y or an empty line hands every path recorded as an orphan
    to [_remove], in the order of the record, and nothing else; the
    pending answers after it are left.  In dry-run mode this prints
    one rm line for each path and changes no file; outside it, a single
    orphan is unlinked and nothing else changes. *)
Theorem orphans_removed_on_yes (self : RpmConf) (st : scan_state)
    (s : string) (rest : list read_event) (w : world) :
  files_delete st ≠ [] →
  upper s ∈ ["Y"; EmptyString] →
  let asked := add_out (report st ++ [delete_question]) w in
  report_and_delete self st (Line s :: rest) w
  = (for_each (_remove self) (files_delete st) ;;; ret rest) asked
  ∧ (debug self = true →
     report_and_delete self st (Line s :: rest) w
     = Ok rest (add_out ((fun f => Print ("rm " +:+ f)) <$> files_delete st) asked))
  ∧ (∀ f, debug self = false → files_delete st = [f] → is_file (w_fs w) f →
          report_and_delete self st (Line s :: rest) w
          = Ok rest (set_fs (delete f (w_fs w)) asked)).
Proof.
  intros Ne Y asked.
  assert (E : report_and_delete self st (Line s :: rest) w
              = (for_each (_remove self) (files_delete st) ;;; ret rest) asked).
  { rewrite report_and_delete_report.
    rewrite bool_decide_eq_true_2 by done.
    assert (A : str_in (upper s) ["Y"; "N"; EmptyString] = true
                ∧ str_in (upper s) ["Y"; EmptyString] = true).
    { apply elem_of_cons in Y as [->|Y]; [by vm_compute|].
      apply list_elem_of_singleton in Y as ->. by vm_compute. }
    destruct A as [A1 A2].
    cbn [ask_delete]. unfold bind, flush_input, bind, tell, ret.
    rewrite A1. cbn [fst snd]. rewrite A2.
    by rewrite emit_as_add_out, add_out_add_out. }
  split; [exact E|]. split.
  - intros D. rewrite E. unfold bind, _remove. rewrite D.
    by rewrite (for_each_say (fun f => "rm " +:+ f)).
  - intros f D L F. rewrite E, L. cbn [for_each]. unfold bind.
    rewrite _remove_real; [reflexivity|done|exact F].
Qed.

Lemma orphans_removed_on_yes_witness :
  files_delete two_orphans ≠ []
  ∧ upper "y" ∈ ["Y"; EmptyString]
  ∧ debug dry_run = true
  ∧ report_and_delete dry_run two_orphans [Line "y"; Line "n"] (world0 fs_differ)
    = Ok [Line "n"]
        (add_out (report two_orphans ++ [delete_question] ++
                  [Print "rm /etc/x.conf.rpmnew"; Print "rm /etc/x.conf.rpmsave"])
           (world0 fs_differ)).
Proof.
  assert (Ne : files_delete two_orphans ≠ []) by discriminate.
  assert (Y : upper "y" ∈ ["Y"; EmptyString]) by (by left).
  split; [exact Ne|]. split; [exact Y|]. split; [reflexivity|].
  exact (proj1 (proj2 (orphans_removed_on_yes dry_run two_orphans "y" [Line "n"]
                         (world0 fs_differ) Ne Y)) eq_refl).
Defined.

(** X23. The orphans stay unless the answer says otherwise.  N or n keeps
    them.  At end of input and on an interrupt the read of the question
    raises, and nothing catches it here: [_clean_orphan] is left with
    EOFError or KeyboardInterrupt, unlike the per-file prompt. *)
Theorem orphans_kept_unless_confirmed (self : RpmConf) (st : scan_state)
    (rest : list read_event) (w : world) :
  files_delete st ≠ [] →
  let asked := add_out (report st ++ [delete_question]) w in
  (∀ s, upper s = "N" → report_and_delete self st (Line s :: rest) w = Ok rest asked)
  ∧ report_and_delete self st (Eof :: rest) w = Raised EOFError asked
  ∧ report_and_delete self st [] w = Raised EOFError asked
  ∧ report_and_delete self st (Interrupt :: rest) w = Raised KeyboardInterrupt asked.
Proof.
  intros Ne asked. rewrite !report_and_delete_report.
  rewrite !bool_decide_eq_true_2 by done.
  repeat split.
  - intros s U. rewrite report_and_delete_report.
    rewrite bool_decide_eq_true_2 by done.
    cbn [ask_delete]. unfold bind, flush_input, bind, tell, ret.
    rewrite U.
    change (str_in "N" ["Y"; "N"; EmptyString]) with true. cbn [fst snd].
    change (str_in "N" ["Y"; EmptyString]) with false. cbv iota.
    by rewrite emit_as_add_out, add_out_add_out.
  - cbn [ask_delete]. unfold bind, flush_input, bind, tell, raise.
    by rewrite emit_as_add_out, add_out_add_out.
  - cbn [ask_delete]. unfold bind, flush_input, bind, tell, raise.
    by rewrite emit_as_add_out, add_out_add_out.
  - cbn [ask_delete]. unfold bind, flush_input, bind, tell, raise.
    by rewrite emit_as_add_out, add_out_add_out.
Qed.

Lemma orphans_kept_unless_confirmed_witness :
  files_delete two_orphans ≠ []
  ∧ report_and_delete interactive two_orphans [Interrupt] (world0 fs_differ)
    = Raised KeyboardInterrupt
        (add_out (report two_orphans ++ [delete_question]) (world0 fs_differ)).
Proof.
  assert (Ne : files_delete two_orphans ≠ []) by discriminate.
  split; [exact Ne|].
  exact (proj2 (proj2 (proj2 (orphans_kept_unless_confirmed interactive two_orphans []
                                (world0 fs_differ) Ne)))).
Defined.

(** ** What the scan records *)

Section Recorded.

Variable X : externals.
Variable self : RpmConf.
Variable t : tree.

Lemma files_loop_sound (root_ : string) (files : list string) :
  ∀ (fm : list (string * string * string)) (fd : list string),
    let r := files_loop X root_ files fm fd in
    (∀ f, f ∈ r.2 →
          f ∈ fd ∨ ((splitext f).2 ∈ [".rpmnew"; ".rpmsave"]
                    ∧ ∃ name, name ∈ files ∧ f = os_path_join root_ name))
    ∧ (∀ m, m ∈ r.1 →
            m ∈ fm ∨ ((splitext m.2).2 ∈ [".rpmnew"; ".rpmsave"]
                      ∧ ∃ name, name ∈ files ∧ m.2 = os_path_join root_ name)).
Proof.
  induction files as [|name more IH]; intros fm fd r.
  - subst r. cbn. split; intros ? ?; by left.
  - assert (Later : ∀ (P : string → Prop) f,
              ((splitext f).2 ∈ [".rpmnew"; ".rpmsave"] ∧ ∃ n, n ∈ more ∧ P n) →
              (splitext f).2 ∈ [".rpmnew"; ".rpmsave"] ∧ ∃ n, n ∈ name :: more ∧ P n).
    { intros P f (Hx & n & Hn & Hp). split; [done|]. exists n. split; [by right|done]. }
    subst r. cbn [files_loop]. unfold str_in, _clean_orphan_file.
    set (l_name := os_path_join root_ name).
    case_bool_decide as Hext.
    + assert (Here : (splitext l_name).2 ∈ [".rpmnew"; ".rpmsave"]
                     ∧ ∃ n, n ∈ name :: more ∧ l_name = os_path_join root_ n).
      { split; [done|]. exists name. split; [by left|done]. }
      destruct (dbMatch_basenames X (splitext l_name).1) as [|pkg others] eqn:Db.
      * rewrite (recognized_ext_nonempty l_name Hext).
        destruct (IH fm (fd ++ [l_name])) as (Hd & Hm). split.
        { intros f Hf. destruct (Hd f Hf) as [Hin|Hl]; [|right; by apply (Later _ f)].
          apply elem_of_app in Hin as [Hin|Hin]; [by left|].
          apply list_elem_of_singleton in Hin as ->. by right. }
        { intros m Hin. destruct (Hm m Hin) as [?|Hl]; [by left|right].
          by apply (Later (fun n => m.2 = os_path_join root_ n) m.2). }
      * destruct (truthy pkg) eqn:Tp.
        { destruct (IH (fm ++ [(pkg, (splitext l_name).1, l_name)]) fd) as (Hd & Hm).
          split.
          - intros f Hf. destruct (Hd f Hf) as [?|Hl]; [by left|right; by apply (Later _ f)].
          - intros m Hin. destruct (Hm m Hin) as [Hin'|Hl].
            + apply elem_of_app in Hin' as [?|Hin']; [by left|].
              apply list_elem_of_singleton in Hin' as ->. by right.
            + right. by apply (Later (fun n => m.2 = os_path_join root_ n) m.2). }
        { destruct (IH fm fd) as (Hd & Hm). split.
          - intros f Hf. destruct (Hd f Hf) as [?|Hl]; [by left|right; by apply (Later _ f)].
          - intros m Hin. destruct (Hm m Hin) as [?|Hl]; [by left|right].
            by apply (Later (fun n => m.2 = os_path_join root_ n) m.2). }
    + destruct (IH fm fd) as (Hd & Hm). split.
      * intros f Hf. destruct (Hd f Hf) as [?|Hl]; [by left|right; by apply (Later _ f)].
      * intros m Hin. destruct (Hm m Hin) as [?|Hl]; [by left|right].
        by apply (Later (fun n => m.2 = os_path_join root_ n) m.2).
Qed.

Lemma walk_body_records (excludes : list string) (root_ : string) (id : ident)
    (top : bool) (st : scan_state) :
  records_artifacts t st →
  records_artifacts t (walk_body X t excludes root_ id top st).2.
Proof.
  intros (Hd & Hm). unfold walk_body.
  destruct (inode_loop _ _ _) as [scandirs seen].
  pose proof (files_loop_sound root_ (files_of (scandir t id))
                (files_merge st) (files_delete st)) as (Sd & Sm).
  destruct (files_loop _ _ _ _ _) as [fm fd]. cbn [fst snd] in *.
  assert (Old : ∀ f, artifact_seen t st f →
                     artifact_seen t (mkScan seen fm fd (yielded st ++ [(root_, id, top)])) f).
  { intros f (Hx & r & i & b & n & Hy & Hn & E). split; [done|].
    exists r, i, b, n. split; [|done]. cbn. apply elem_of_app. by left. }
  assert (New : ∀ f, ((splitext f).2 ∈ [".rpmnew"; ".rpmsave"]
                      ∧ ∃ name, name ∈ files_of (scandir t id)
                                ∧ f = os_path_join root_ name) →
                     artifact_seen t (mkScan seen fm fd (yielded st ++ [(root_, id, top)])) f).
  { intros f (Hx & n & Hn & E). split; [done|].
    exists root_, id, top, n. split; [|done]. cbn. apply elem_of_app. right. by left. }
  split.
  - intros f Hf. cbn in Hf. destruct (Sd f Hf) as [?|?]; [apply Old; by apply Hd|by apply New].
  - intros m Hin. cbn in Hin.
    destruct (Sm m Hin) as [?|?]; [apply Old; by apply Hm|by apply New].
Qed.

Lemma scan_topdirs_records (fuel : nat) (excludes tops : list string) :
  ∀ st st', records_artifacts t st →
            scan_topdirs X self fuel t excludes tops st = Some st' →
            records_artifacts t st'.
Proof.
  induction tops as [|topdir more IH]; intros st st' R; cbn [scan_topdirs].
  - by intros [= <-].
  - destruct (scan_topdir X self fuel t excludes topdir st) as [st1|] eqn:E; [|done].
    apply IH. revert E. unfold scan_topdir.
    case_bool_decide; [by intros [= <-]|].
    destruct (t_top t !! _) as [id|]; [|by intros [= <-]].
    apply (walk_keeps X t excludes (records_artifacts t)); [|done].
    intros. by apply walk_body_records.
Qed.

End Recorded.

(** X24. The scan records nothing but artifacts it has seen: every file to
    delete and every file to merge has the extension .rpmnew or
    .rpmsave and was listed in a directory of the walk.  So
    [_clean_orphan] changes nothing at a path with another extension,
    whatever the answer to its question. *)
Theorem scan_records_only_artifacts (X : externals) (self : RpmConf) (t : tree) :
  ∃ st, scan X self (enough_fuel t) t = Some st
        ∧ (∀ f, f ∈ files_delete st → artifact_seen t st f)
        ∧ (∀ pkg orig f, (pkg, orig, f) ∈ files_merge st → artifact_seen t st f)
        ∧ (∀ inp p, (splitext p).2 ∉ [".rpmnew"; ".rpmsave"] →
                    leaves p (_clean_orphan X self t inp)).
Proof.
  destruct (scan_ok X self t) as (st & E & _ & _).
  exists st. split; [exact E|].
  assert (R : records_artifacts t st).
  { unfold scan in E. apply (scan_topdirs_records X self t _ _ _ _ _) in E; [done|].
    split; intros ? H; by apply elem_of_nil in H. }
  destruct R as (Hd & Hm). split; [exact Hd|]. split.
  - intros pkg orig f Hin. exact (Hm _ Hin).
  - intros inp p Hp. unfold _clean_orphan. rewrite E.
    apply leaves_bind.
    + apply leaves_for_each. intros topdir _. apply leaves_tell.
    + intros _. apply leaves_report_and_delete. intros Hin.
      apply Hp. by destruct (Hd p Hin).
Qed.

(** ** Exclusions *)

Section Excluded.

Variable X : externals.
Variable self : RpmConf.
Variable t : tree.
Variable excludes : list string.

Lemma listed_ok_app (l1 l2 : list (string * ident * bool)) :
  listed_ok X self excludes l1 → listed_ok X self excludes l2 →
  listed_ok X self excludes (l1 ++ l2).
Proof.
  intros H1 H2 p id top [H|H]%elem_of_app; [exact (H1 p id top H)|exact (H2 p id top H)].
Qed.

Lemma walk_listed (fuel : nat) :
  ∀ stack st st',
    listed_ok X self excludes stack →
    listed_ok X self excludes (yielded st) →
    walk X fuel t excludes stack st = Some st' →
    listed_ok X self excludes (yielded st').
Proof.
  induction fuel as [|fuel IH]; intros stack st st' Hs Hy W.
  - destruct stack as [|[[? ?] ?] ?]; [|done]. by injection W as <-.
  - destruct stack as [|[[root_ id] top] pending]; [by injection W as <-|].
    cbn [walk] in W.
    pose proof (inode_loop_spec root_
                  (filter (fun d => os_path_join root_ d.1 ∉ excludes)
                     (dirs_of (scandir t id))) (dirs_inodes st)) as (_ & _ & _ & Sub).
    unfold walk_body in W.
    destruct (inode_loop _ _ _) as [scandirs seen].
    destruct (files_loop _ _ _ _ _) as [fm fd]. cbn [fst snd] in *.
    apply IH in W; [done| |].
    + apply listed_ok_app.
      * intros p i b Hp. apply list_elem_of_fmap in Hp as (d & [= -> -> ->] & Hd).
        apply Sub in Hd. apply list_elem_of_filter in Hd as [Hd _]. exact Hd.
      * intros p i b Hp. apply (Hs p i b). by right.
    + cbn [yielded]. apply listed_ok_app; [done|].
      intros p i b Hp. apply list_elem_of_singleton in Hp as [= -> -> ->].
      apply (Hs root_ id top). by left.
Qed.

Lemma scan_topdirs_listed (fuel : nat) (tops : list string) :
  (∀ topdir, topdir ∈ tops → topdir ∈ topdirs) →
  ∀ st st', listed_ok X self excludes (yielded st) →
            scan_topdirs X self fuel t excludes tops st = Some st' →
            listed_ok X self excludes (yielded st').
Proof.
  induction tops as [|topdir more IH]; intros Ht st st' Hy; cbn [scan_topdirs].
  - by intros [= <-].
  - destruct (scan_topdir X self fuel t excludes topdir st) as [st1|] eqn:E; [|done].
    apply IH; [intros x Hx; apply Ht; by right|]. revert E. unfold scan_topdir.
    case_bool_decide as Hex; [by intros [= <-]|].
    destruct (t_top t !! _) as [id|]; [|by intros [= <-]].
    apply walk_listed; [|done].
    intros p i b Hp. apply list_elem_of_singleton in Hp as [= -> -> ->].
    exists topdir. split; [apply Ht; by left|]. by split.
Qed.

End Excluded.

(** X25. The scan keeps out of what is excluded.  A top directory (/etc,
    /var, /usr) is walked only when its plain name is not excluded, and
    is walked under the root prefix when one is set; a directory the
    walk enters from its parent has a path that is neither among the
    paths to exclude nor one of /var/lib/mock, /var/run,
    /var/lib/docker, /var/lib/containers. *)
Theorem scan_respects_excludes (X : externals) (self : RpmConf) (t : tree) :
  ∃ st, scan X self (enough_fuel t) t = Some st
        ∧ (∀ p id, (p, id, false) ∈ yielded st →
                   (p ∉ exclude self) ∧ (p ∉ default_excludes))
        ∧ (∀ p id, (p, id, true) ∈ yielded st →
                   ∃ topdir, topdir ∈ topdirs
                             ∧ (topdir ∉ exclude self)
                             ∧ p = walked_top X self topdir).
Proof.
  destruct (scan_ok X self t) as (st & E & _ & _).
  exists st. split; [exact E|].
  assert (L : listed_ok X self (exclude self ++ default_excludes) (yielded st)).
  { unfold scan in E.
    apply (scan_topdirs_listed X self t _ _ topdirs) in E; [done|done|].
    intros p i b H. by apply elem_of_nil in H. }
  split.
  - intros p id H. specialize (L p id false H). cbn in L.
    split; intros Hin; apply L; apply elem_of_app; [by left|by right].
  - intros p id H. destruct (L p id true H) as (topdir & Ht & Hex & ->).
    exists topdir. split; [done|]. split; [|done].
    intros Hin. apply Hex. apply elem_of_app. by left.
Qed.

(** ** An unattended update, end to end *)

Lemma artifacts_differ (k1 k2 : kind) (base_path : string) :
  k1 ≠ k2 → artifact_of k1 base_path ≠ artifact_of k2 base_path.
Proof.
  intros N E. unfold artifact_of in E.
  apply (inj (String.append base_path)) in E. destruct k1, k2; done.
Qed.

Lemma absent_is_not_accessible (fs : filesystem) (p : string) :
  fs !! p = None → os_access_F_OK fs p = false.
Proof.
  intros E. unfold os_access_F_OK, os_path_exists, os_stat, MAXSYMLINKS.
  cbn [follow]. by rewrite E.
Qed.

(** X26. A package under an unattended policy, end to end.  The
    configuration file and its .rpmnew are regular files that differ in
    content and in modification time, and there is no .rpmsave and no
    .rpmorig.  Then [_handle_package] returns with nothing printed and
    nothing read: under use_maintainer the configuration file has the
    content and the modification time of the .rpmnew; under use_your
    and default it is as it was; in all three cases the .rpmnew is
    gone and no other path has changed. *)
Theorem unattended_update_of_a_package (X : externals) (self : RpmConf)
    (conf policy c c' : string) (m m' : Z) (inp : list read_event) (w : world) :
  diff self = false → test self = false → debug self = false →
  unattended self = Some policy →
  policy ∈ ["use_maintainer"; "use_your"; "default"] →
  w_fs w !! conf = Some (Reg c m) →
  w_fs w !! artifact_of NEW conf = Some (Reg c' m') →
  c ≠ c' → m ≠ m' →
  w_fs w !! artifact_of BACKUP conf = None →
  w_fs w !! artifact_of ORIG conf = None →
  _handle_package X self [conf] inp w
  = Ok (0, inp)
      (set_fs (delete (artifact_of NEW conf)
                 (if bool_decide (policy = "use_maintainer")
                  then <[conf := Reg c' m']> (w_fs w) else w_fs w)) w).
Proof.
  intros Df T D U P C N Hc Hm B O.
  pose proof (artifact_is_not_base NEW conf) as Nn.
  assert (S : same_files conf (artifact_of NEW conf) w = Ok false w).
  { unfold same_files, is_broken_symlink, os_path_islink, os_path_exists,
      filecmp_cmp, os_stat.
    rewrite (follow_not_a_link _ conf (Reg c m)), (follow_not_a_link _ _ (Reg c' m'));
      try done.
    rewrite C, N. cbn [orb negb andb].
    rewrite (bool_decide_eq_false_2 (m = m')) by done. rewrite andb_false_r.
    rewrite (bool_decide_eq_false_2 (c = c')) by done.
    by destruct (negb _). }
  assert (H : _handle_rpmnew X self conf (artifact_of NEW conf) inp w
              = Ok inp (set_fs (delete (artifact_of NEW conf)
                                  (if bool_decide (policy = "use_maintainer")
                                   then <[conf := Reg c' m']> (w_fs w) else w_fs w)) w)).
  { unfold _handle_rpmnew. unfold bind at 1. rewrite S, U.
    destruct (decide (policy = "use_maintainer")) as [->|Np].
    - rewrite !(bool_decide_eq_true_2 _ eq_refl). unfold bind.
      unfold _overwrite, _copy, bind, lift_fs. rewrite D.
      rewrite (_copy_fs_regular (w_fs w) _ conf conf c' m'); try done.
      + rewrite _remove_real; [reflexivity|done|].
        unfold is_file. cbn [w_fs set_fs]. rewrite lookup_insert_ne by done. by rewrite N.
      + apply write_target_not_a_link. intros t. by rewrite C.
      + intros t. by rewrite C.
      + intros t. by rewrite C.
    - rewrite (bool_decide_eq_false_2 (Some policy = Some "use_maintainer"))
        by (intros [= ->]; done).
      rewrite (bool_decide_eq_false_2 (policy = "use_maintainer")) by done.
      rewrite bool_decide_eq_true_2.
      + unfold bind. rewrite _remove_real; [reflexivity|done|].
        unfold is_file. by rewrite N.
      + apply elem_of_cons in P as [->|P]; [done|]. set_solver. }
  assert (Gone : ∀ k, k ≠ NEW →
            w_fs w !! artifact_of k conf = None →
            os_access_F_OK
              (delete (artifact_of NEW conf)
                 (if bool_decide (policy = "use_maintainer")
                  then <[conf := Reg c' m']> (w_fs w) else w_fs w))
              (artifact_of k conf) = false).
  { intros k Hk E. apply absent_is_not_accessible.
    rewrite lookup_delete_ne by (by apply artifacts_differ).
    case_bool_decide; [|done].
    rewrite lookup_insert_ne; [done|]. intros E'. by apply (artifact_is_not_base k conf). }
  unfold _handle_package. cbn [handle_conf_files]. unfold bind at 1.
  unfold handle_conf_file. rewrite Df. unfold bind at 1.
  unfold handle_suffix at 1.
  change (conf +:+ "." +:+ "rpmnew") with (artifact_of NEW conf).
  assert (A : os_access_F_OK (w_fs w) (artifact_of NEW conf) = true).
  { unfold os_access_F_OK, os_path_exists, os_stat.
    by rewrite (follow_not_a_link _ _ (Reg c' m')). }
  rewrite A, T. unfold bind at 1. rewrite H. unfold ret at 1. unfold bind at 1.
  unfold handle_suffix at 1.
  change (conf +:+ "." +:+ "rpmsave") with (artifact_of BACKUP conf).
  cbn [w_fs set_fs]. rewrite (Gone BACKUP) by done.
  unfold handle_suffix.
  change (conf +:+ "." +:+ "rpmorig") with (artifact_of ORIG conf).
  cbn [w_fs set_fs]. rewrite (Gone ORIG) by done. reflexivity.
Qed.

Lemma unattended_update_of_a_package_witness :
  "use_maintainer" ∈ ["use_maintainer"; "use_your"; "default"]
  ∧ fs_pending_update !! "/etc/x.conf" = Some (Reg "A" 5)
  ∧ _handle_package sample_externals (with_policy "use_maintainer") ["/etc/x.conf"] []
      (world0 fs_pending_update)
    = Ok (0, [])
        (world0 (delete "/etc/x.conf.rpmnew"
                   (<["/etc/x.conf" := Reg "B" 7]> fs_pending_update))).
Proof.
  assert (P : "use_maintainer" ∈ ["use_maintainer"; "use_your"; "default"]) by (by left).
  split; [exact P|]. split; [reflexivity|].
  exact (unattended_update_of_a_package sample_externals (with_policy "use_maintainer")
           "/etc/x.conf" "use_maintainer" "A" "B" 5 7 []
           (world0 fs_pending_update)
           eq_refl eq_refl eq_refl eq_refl P eq_refl eq_refl
           ltac:(discriminate) ltac:(discriminate) eq_refl eq_refl).
Defined.
